(** * RCIP converter: the text-to-recipe conversion engine of [rcip_converter.py]

    Shallow embedding of [RCIPConverter] (ingredient and step parsers, diet
    label inference, document assembly, Schema.org adapter, validator) and
    the properties its specification states about it, followed by the
    section splitter, the conversion and the validation of [RCIPAgent]
    ([rcip_agent.py]) and further properties of both.

    Python values are modelled as follows.
    - [str] is a list of Unicode code points ([pystr]); literals of the source
      are written [u "..."] and decoded from the UTF-8 bytes of this file.
      [\d], [\s], [str.strip], [int] and [float] follow the Unicode tables
      of CPython 3.11; [str.lower] is exact on Basic Latin, on Cyrillic and
      on the two characters that lower into Basic Latin, which is every
      character that can meet a keyword or a pattern of the program, and
      leaves the other cased letters as they are.
    - [re] patterns are terms of a small pattern language run by a
      backtracking matcher with the priorities of [re]: leftmost start,
      greedy repetition, first success.
    - [int] is [Z].  [int] of a string raises [ValueError] when the string
      has more than 4300 characters, the default conversion limit of
      CPython 3.11,
      and so does [str] of an integer of more than 4300 digits; the parsers
      that call [int] pass the exception on.
    - [float] is an exact rational ([Q], kept reduced): binary64 rounding
      and overflow are abstracted away, and a property of a quantity is
      stated for numbers of at most 308 digits, where [float] is finite.
    - [str] of a float or of a container is not computed: it is whatever
      the runtime renders, a text or an exception, and the adapter is
      parameterised by it.
    - [dict] is an association list in insertion order, [list] a list; the
      documents are values of [pyval].
    - a Python exception is [None] in the [option] monad.
    - [uuid.uuid4()] and [datetime.utcnow()] are read from an explicit
      record of outside values ([Outside]). *)

From Stdlib Require Import String Ascii.
From Stdlib Require Import List NArith ZArith QArith Bool Lia.
Import ListNotations.

Set Implicit Arguments.

(* ================================================================== *)
(** ** Python strings *)
(* ================================================================== *)

Module Py.

Local Open Scope N_scope.

(** A code point and a Python [str]. *)
Definition cp := N.
Definition pystr := list cp.

(** UTF-8 decoding of a literal of this file: [need] continuation bytes are
    still expected for the code point accumulated in [acc]. *)
Fixpoint utf8_go (bs : list N) (need : nat) (acc : N) : pystr :=
  match bs with
  | [] => []
  | b :: bs' =>
      match need with
      | O =>
          if b <? 128 then b :: utf8_go bs' 0 0
          else if b <? 224 then utf8_go bs' 1 (b - 192)
          else if b <? 240 then utf8_go bs' 2 (b - 224)
          else utf8_go bs' 3 (b - 240)
      | S n =>
          let acc' := acc * 64 + (b - 128) in
          match n with
          | O => acc' :: utf8_go bs' 0 0
          | S _ => utf8_go bs' n acc'
          end
      end
  end.

Definition u (s : string) : pystr :=
  utf8_go (map N_of_ascii (list_ascii_of_string s)) 0 0.

Definition cp_eqb (a b : cp) : bool := a =? b.

(** The line feed ['\n']. *)
Definition LF : cp := 10.

Fixpoint str_eqb (a b : pystr) : bool :=
  match a, b with
  | [], [] => true
  | x :: a', y :: b' => cp_eqb x y && str_eqb a' b'
  | _, _ => false
  end.

(** [s.startswith(p)] *)
Fixpoint startswith (p s : pystr) : bool :=
  match p, s with
  | [], _ => true
  | x :: p', y :: s' => cp_eqb x y && startswith p' s'
  | _ :: _, [] => false
  end.

(** [p in s] for two strings: substring containment. *)
Fixpoint contains (p s : pystr) : bool :=
  startswith p s ||
  match s with
  | [] => false
  | _ :: s' => contains p s'
  end.

(** [str.isspace] on one character, which is also the class [\s] of [re]
    on [str] patterns. *)
Definition is_space (c : cp) : bool :=
  ((9 <=? c) && (c <=? 13)) || ((28 <=? c) && (c <=? 32)) ||
  (c =? 133) || (c =? 160) || (c =? 5760) ||
  ((8192 <=? c) && (c <=? 8202)) || (c =? 8232) || (c =? 8233) ||
  (c =? 8239) || (c =? 8287) || (c =? 12288).

(** First code point of every block of ten decimal digits (Unicode general
    category Nd, Unicode 14 as shipped with CPython 3.11): [\d], [int] and
    [float] accept all of them, the digit value being the offset in its
    block. *)
Definition digit_blocks : list cp :=
  [48; 1632; 1776; 1984; 2406; 2534; 2662; 2790; 2918; 3046; 3174; 3302;
   3430; 3558; 3664; 3792; 3872; 4160; 4240; 6112; 6160; 6470; 6608; 6784;
   6800; 6992; 7088; 7232; 7248; 42528; 43216; 43264; 43472; 43504; 43600;
   44016; 65296; 66720; 68912; 69734; 69872; 69942; 70096; 70384; 70736;
   70864; 71248; 71360; 71472; 71904; 72016; 72784; 73040; 73120; 92768;
   92864; 93008; 120782; 120792; 120802; 120812; 120822; 123200; 123632;
   125264; 130032].

Definition in_block (c b : cp) : bool := (b <=? c) && (c <=? b + 9).

Definition is_digit (c : cp) : bool := existsb (in_block c) digit_blocks.

Definition digit_value (c : cp) : N :=
  match find (in_block c) digit_blocks with
  | Some b => c - b
  | None => 0
  end.

(** The number a string of decimal digits spells. *)
Definition digits_value (s : pystr) : Z :=
  Z.of_N (fold_left (fun acc c => 10 * acc + digit_value c) s 0).

(** The limit of CPython 3.11 ([sys.int_max_str_digits], 4300 unless it is
    reconfigured) on the digits of a conversion between [str] and [int]. *)
Definition int_max_str_digits : nat := 4300.

(** [int(s)] for a string of decimal digits: [ValueError] ([None] here)
    when the string has more digits than the limit allows, leading zeros
    included. *)
Definition int_of_digits (s : pystr) : option Z :=
  if Nat.ltb int_max_str_digits (length s) then None
  else Some (digits_value s).

(** [str.lower] on one character.  Exact on every character whose lower
    case lies in Basic Latin or in the Cyrillic block (the only characters
    the keywords and patterns of this program mention); other cased letters
    are left as they are. *)
Definition lower_cp (c : cp) : pystr :=
  if (65 <=? c) && (c <=? 90) then [c + 32]
  else if c =? 304 then [105; 775]
  else if (1024 <=? c) && (c <=? 1039) then [c + 80]
  else if (1040 <=? c) && (c <=? 1071) then [c + 32]
  else if c =? 8490 then [107]
  else [c].

Definition lower (s : pystr) : pystr := flat_map lower_cp s.

(** [s.lstrip], [s.rstrip] and [s.strip] for a class of characters. *)
Fixpoint lstrip_by (p : cp -> bool) (s : pystr) : pystr :=
  match s with
  | [] => []
  | c :: s' => if p c then lstrip_by p s' else s
  end.

Definition rstrip_by (p : cp -> bool) (s : pystr) : pystr :=
  List.rev (lstrip_by p (List.rev s)).

Definition strip_by (p : cp -> bool) (s : pystr) : pystr :=
  rstrip_by p (lstrip_by p s).

(** [s.strip()] *)
Definition strip (s : pystr) : pystr := strip_by is_space s.

(** [s.strip('.')] *)
Definition strip_dots (s : pystr) : pystr := strip_by (cp_eqb 46) s.

(** [s.split(sep)] for a one-character separator. *)
Fixpoint split (sep : cp) (s : pystr) : list pystr :=
  match s with
  | [] => [[]]
  | c :: s' =>
      if cp_eqb c sep then [] :: split sep s'
      else match split sep s' with
           | l :: ls => (c :: l) :: ls
           | [] => [[c]]
           end
  end.

(** [sep.join(parts)] *)
Fixpoint join (sep : pystr) (parts : list pystr) : pystr :=
  match parts with
  | [] => []
  | [p] => p
  | p :: ps => p ++ sep ++ join sep ps
  end.

(** [s.replace(a, b)] for single characters. *)
Definition replace_cp (a b : cp) (s : pystr) : pystr :=
  map (fun c => if cp_eqb c a then b else c) s.

(** Decimal rendering of a natural number, as [str(n)] and [{n:d}] give. *)
Fixpoint uint_chars (d : Decimal.uint) : pystr :=
  match d with
  | Decimal.Nil => []
  | Decimal.D0 d => 48 :: uint_chars d
  | Decimal.D1 d => 49 :: uint_chars d
  | Decimal.D2 d => 50 :: uint_chars d
  | Decimal.D3 d => 51 :: uint_chars d
  | Decimal.D4 d => 52 :: uint_chars d
  | Decimal.D5 d => 53 :: uint_chars d
  | Decimal.D6 d => 54 :: uint_chars d
  | Decimal.D7 d => 55 :: uint_chars d
  | Decimal.D8 d => 56 :: uint_chars d
  | Decimal.D9 d => 57 :: uint_chars d
  end.

Definition str_of_nat (n : nat) : pystr := uint_chars (Nat.to_uint n).

(** [{n:0wd}]: decimal digits, padded on the left with zeros to width [w]. *)
Definition zero_pad (w : nat) (n : nat) : pystr :=
  let d := str_of_nat n in
  repeat 48 (w - length d)%nat ++ d.

End Py.

Import Py.

(* ================================================================== *)
(** ** The fragment of [re] the converter uses *)
(* ================================================================== *)

Module Re.

Local Open Scope N_scope.

(** Patterns: one character of a class, a literal, a greedy [*] over a
    class, a greedy [?], concatenation and numbered capturing groups.
    [x+] is [Cat (Chr x) (Star x)]. *)
Inductive regex : Type :=
| Chr (p : cp -> bool)
| Lit (s : pystr)
| Star (p : cp -> bool)
| Opt (r : regex)
| Cat (r1 r2 : regex)
| Grp (i : nat) (r : regex).

Definition Plus (p : cp -> bool) : regex := Cat (Chr p) (Star p).

(** Captured groups, most recently closed first. *)
Definition caps := list (nat * pystr).

Fixpoint drop_prefix (p s : pystr) : option pystr :=
  match p, s with
  | [], _ => Some s
  | x :: p', y :: s' => if cp_eqb x y then drop_prefix p' s' else None
  | _ :: _, [] => None
  end.

(** Greedy repetition with backtracking: the longest run first, then one
    character less at a time. *)
Fixpoint star {A} (p : cp -> bool) (s : pystr) (k : pystr -> option A)
  : option A :=
  match s with
  | c :: s' =>
      if p c then
        match star p s' k with
        | Some a => Some a
        | None => k s
        end
      else k s
  | [] => k []
  end.

(** The part of [s] consumed when [s'] is what is left of it. *)
Definition consumed (s s' : pystr) : pystr :=
  firstn (length s - length s')%nat s.

(** Backtracking matcher in continuation-passing style: [k] is the rest of
    the pattern; the first success in priority order is returned, as the
    engine of [re] does. *)
Fixpoint rmatch {A} (r : regex) (s : pystr) (cs : caps)
  (k : pystr -> caps -> option A) : option A :=
  match r with
  | Chr p =>
      match s with
      | c :: s' => if p c then k s' cs else None
      | [] => None
      end
  | Lit l =>
      match drop_prefix l s with
      | Some s' => k s' cs
      | None => None
      end
  | Star p => star p s (fun s' => k s' cs)
  | Opt r1 =>
      match rmatch r1 s cs k with
      | Some a => Some a
      | None => k s cs
      end
  | Cat r1 r2 => rmatch r1 s cs (fun s' cs' => rmatch r2 s' cs' k)
  | Grp i r1 => rmatch r1 s cs (fun s' cs' => k s' ((i, consumed s s') :: cs'))
  end.

(** A match object: the captured groups and the unmatched rest. *)
Record match_obj : Type := MkMatch { m_caps : caps; m_rest : pystr }.

(** [re.match(r, s)] *)
Definition re_match (r : regex) (s : pystr) : option match_obj :=
  rmatch r s [] (fun s' cs => Some (MkMatch cs s')).

(** [re.search(r, s)]: leftmost start position first. *)
Fixpoint re_search (r : regex) (s : pystr) : option match_obj :=
  match re_match r s with
  | Some m => Some m
  | None =>
      match s with
      | [] => None
      | _ :: s' => re_search r s'
      end
  end.

(** [m.group(i)]: [None] when group [i] took no part in the match. *)
Fixpoint group (i : nat) (cs : caps) : option pystr :=
  match cs with
  | [] => None
  | (j, t) :: cs' => if Nat.eqb i j then Some t else group i cs'
  end.

(** [m.lastindex] *)
Definition lastindex (m : match_obj) : option nat :=
  match m_caps m with
  | [] => None
  | (j, _) :: _ => Some j
  end.

(** [re.sub('^' + r, '', s)]: the pattern is anchored at the start of the
    string, so at most the leading match is removed. *)
Definition re_sub_start (r : regex) (s : pystr) : pystr :=
  match re_match r s with
  | Some m => m_rest m
  | None => s
  end.

(** Character classes of the patterns. *)
Definition any_of (l : pystr) (c : cp) : bool := existsb (cp_eqb c) l.
Definition in_range (lo hi c : cp) : bool := (lo <=? c) && (c <=? hi).
(** [.] without DOTALL: anything but a newline. *)
Definition dot (c : cp) : bool := negb (cp_eqb c LF).

End Re.

Import Re.

(* ================================================================== *)
(** ** Exceptions *)
(* ================================================================== *)

(** A computation that may raise: [None] is a raised exception. *)
Definition bind {A B} (m : option A) (f : A -> option B) : option B :=
  match m with
  | Some a => f a
  | None => None
  end.

Notation "x <- m ;; k" := (bind m (fun x => k))
  (at level 61, m at next level, right associativity).

(* ================================================================== *)
(** ** Numbers *)
(* ================================================================== *)

(** A Python number: [int] or [float]. *)
Inductive number : Type :=
| Int (z : Z)
| Float (q : Q).

Definition num_Q (n : number) : Q :=
  match n with
  | Int z => inject_Z z
  | Float q => q
  end.

(** [a == b] on numbers. *)
Definition num_eqb (a b : number) : bool := Qeq_bool (num_Q a) (num_Q b).

(** [a * b] on numbers: an [int] only when both are. *)
Definition num_mul (a b : number) : number :=
  match a, b with
  | Int x, Int y => Int (x * y)
  | _, _ => Float (Qred (num_Q a * num_Q b))
  end.

(** [float(s)] for [s] made of digits, one optional point and digits, the
    only strings the ingredient pattern hands to it.  [float] has no limit
    on the digits; the value is the exact rational. *)
Definition float_of_decimal (s : pystr) : Q :=
  match split 46%N s with
  | ip :: fp :: _ =>
      Qred (Qmake (digits_value (ip ++ fp))
                  (Z.to_pos (10 ^ Z.of_nat (length fp))))
  | _ => inject_Z (digits_value s)
  end.

(* ================================================================== *)
(** ** Lexicon tables *)
(* ================================================================== *)

(** The code point of a one-character literal. *)
Definition ch (s : string) : cp := hd 0%N (u s).

Definition ALLERGEN_KEYWORDS : list (pystr * list pystr) :=
  [ (u "milk", [u "молоко"; u "сливки"; u "сметана"; u "йогурт"; u "кефир";
                u "творог"; u "сыр"; u "масло сливочное"]);
    (u "lactose", [u "молоко"; u "сливки"; u "сметана"; u "йогурт"; u "кефир"]);
    (u "eggs", [u "яйцо"; u "яйца"; u "желток"; u "белок"]);
    (u "fish", [u "рыба"; u "лосось"; u "форель"; u "треска"; u "тунец";
                u "скумбрия"]);
    (u "shellfish", [u "креветки"; u "краб"; u "омар"; u "мидии"; u "устрицы";
                     u "кальмар"]);
    (u "tree-nuts", [u "орех"; u "миндаль"; u "фундук"; u "кешью"; u "фисташки";
                     u "пекан"]);
    (u "peanuts", [u "арахис"]);
    (u "wheat", [u "мука"; u "пшеница"; u "хлеб"; u "макароны"; u "спагетти";
                 u "булка"]);
    (u "gluten", [u "мука"; u "пшеница"; u "рожь"; u "ячмень"; u "овес";
                  u "хлеб"; u "макароны"]);
    (u "soybeans", [u "соя"; u "тофу"; u "соевый"]);
    (u "sesame", [u "кунжут"; u "тахини"]);
    (u "celery", [u "сельдерей"]);
    (u "mustard", [u "горчица"]);
    (u "sulphites", [u "вино"; u "уксус"]) ].

Definition DIET_KEYWORDS : list (pystr * list pystr) :=
  [ (u "vegetarian", [u "без мяса"; u "вегетариан"]);
    (u "vegan", [u "веган"]);
    (u "gluten-free", [u "без глютена"; u "безглютен"]);
    (u "dairy-free", [u "без молока"; u "без молочн"]) ].

(** Keyword, then the standard unit and the multiplier, in the order of the
    source (a [dict] is iterated in insertion order). *)
Definition UNIT_MAPPING : list (pystr * (pystr * number)) :=
  [ (u "кг", (u "kg", Int 1000));
    (u "килограмм", (u "kg", Int 1000));
    (u "г", (u "g", Int 1));
    (u "гр", (u "g", Int 1));
    (u "грамм", (u "g", Int 1));
    (u "мг", (u "mg", Int 1));

    (u "л", (u "l", Int 1000));
    (u "литр", (u "l", Int 1000));
    (u "мл", (u "ml", Int 1));
    (u "миллилитр", (u "ml", Int 1));

    (u "ч.л.", (u "tsp", Int 5));
    (u "ч.ложка", (u "tsp", Int 5));
    (u "чайная ложка", (u "tsp", Int 5));
    (u "ст.л.", (u "tbsp", Int 15));
    (u "ст.ложка", (u "tbsp", Int 15));
    (u "столовая ложка", (u "tbsp", Int 15));
    (u "стакан", (u "cup", Int 240));
    (u "стак", (u "cup", Int 240));

    (u "шт", (u "pcs", Int 1));
    (u "штук", (u "pcs", Int 1));
    (u "штука", (u "pcs", Int 1));
    (u "штуки", (u "pcs", Int 1));

    (u "щепотка", (u "pinch", Float (1 # 2)));
    (u "щепот", (u "pinch", Float (1 # 2)));
    (u "по вкусу", (u "to-taste", Int 0));
    (u "вкус", (u "to-taste", Int 0)) ].

Definition ACTION_MAPPING : list (pystr * pystr) :=
  [ (u "добавить", u "add"); (u "добавь", u "add"); (u "добавляем", u "add");
    (u "положить", u "add");
    (u "смешать", u "mix"); (u "смешай", u "mix"); (u "смешиваем", u "mix");
    (u "перемешать", u "mix");
    (u "соединить", u "combine"); (u "объединить", u "combine");
    (u "взбить", u "blend"); (u "взбивать", u "blend");
    (u "нарезать", u "cut"); (u "нарежь", u "cut"); (u "порезать", u "cut");
    (u "нашинковать", u "slice"); (u "нашинкуй", u "slice");
    (u "измельчить", u "mince"); (u "измельчай", u "mince");
    (u "варить", u "boil"); (u "свари", u "boil"); (u "вскипятить", u "boil");
    (u "тушить", u "simmer"); (u "туши", u "simmer"); (u "протушить", u "simmer");
    (u "жарить", u "fry"); (u "жарь", u "fry"); (u "обжарить", u "fry");
    (u "пожарить", u "fry");
    (u "запекать", u "bake"); (u "запеки", u "bake"); (u "выпекать", u "bake");
    (u "охладить", u "cool"); (u "остудить", u "cool");
    (u "замесить", u "knead"); (u "месить", u "knead");
    (u "раскатать", u "roll"); (u "раскатай", u "roll");
    (u "процедить", u "strain"); (u "процеди", u "strain");
    (u "настоять", u "rest"); (u "настаивать", u "rest");
    (u "подавать", u "garnish"); (u "подать", u "garnish");
    (u "украсить", u "garnish") ].

(* ================================================================== *)
(** ** Parsed records *)
(* ================================================================== *)

Record ParsedIngredient : Type := MkIngredient {
  ing_name : pystr;
  ing_amount : pystr;
  ing_value : number;
  ing_unit : pystr;
  ing_allergens : list pystr;
  ing_notes : pystr
}.

Record ParsedStep : Type := MkStep {
  step_text : pystr;
  step_action : pystr;
  time_minutes : option Z;
  temperature_c : option Z
}.

(* ================================================================== *)
(** ** Ingredient parser *)
(* ================================================================== *)

Infix "&>" := Cat (at level 60, right associativity).

(** [[а-яА-Я.]] *)
Definition unit_class (c : cp) : bool :=
  in_range (ch "а") (ch "я") c || in_range (ch "А") (ch "Я") c ||
  cp_eqb c (ch ".").

(** The pattern of [_parse_ingredient_line]: group 1 is [\d+[.,]?\d*], then
    [\s*], the optional group 2 [[а-яА-Я.]+], then [\s+] and group 3 [.+]. *)
Definition ingredient_pattern : regex :=
  Grp 1 (Plus is_digit &> Opt (Chr (any_of (u ".,"))) &> Star is_digit) &>
  Star is_space &>
  Opt (Grp 2 (Plus unit_class)) &>
  Plus is_space &>
  Grp 3 (Plus dot).

(** [^[-•*]\s*] *)
Definition bullet_pattern : regex :=
  Chr (any_of (u "-•*")) &> Star is_space.

(** [^\d+[\.)]\s*] *)
Definition numbering_pattern : regex :=
  Plus is_digit &> Chr (any_of (u ".)")) &> Star is_space.

(** [m.group(i)] of a group that takes part in every match of its pattern. *)
Definition group_text (i : nat) (m : match_obj) : pystr :=
  match group i (m_caps m) with
  | Some t => t
  | None => []
  end.

(** [m.group(i) or default] *)
Definition group_or (i : nat) (m : match_obj) (default : pystr) : pystr :=
  match group i (m_caps m) with
  | Some (c :: t) => c :: t
  | _ => default
  end.

(** The loop of [_normalize_unit] over the items of the table. *)
Fixpoint first_unit (table : list (pystr * (pystr * number)))
  (unit_lower : pystr) : pystr * number :=
  match table with
  | [] => (u "pcs", Int 1)
  | (key, (standard_unit, multiplier)) :: rest =>
      if contains key unit_lower then (standard_unit, multiplier)
      else first_unit rest unit_lower
  end.

Definition _normalize_unit (unit_str : pystr) : pystr * number :=
  let unit_lower := strip_dots (lower unit_str) in
  first_unit UNIT_MAPPING unit_lower.

Definition _detect_allergens (ingredient_name : pystr) : list pystr :=
  let name_lower := lower ingredient_name in
  map fst
    (filter (fun entry => existsb (fun keyword => contains keyword name_lower)
                                  (snd entry))
            ALLERGEN_KEYWORDS).

Definition _parse_ingredient_line (line : pystr) : option ParsedIngredient :=
  let '(name, value, unit) :=
    match re_match ingredient_pattern line with
    | Some m =>
        let value_str := replace_cp (ch ",") (ch ".") (group_text 1 m) in
        let unit_str := group_or 2 m (u "шт") in
        let name := strip (group_text 3 m) in
        let value := Float (float_of_decimal value_str) in
        let '(unit, multiplier) := _normalize_unit unit_str in
        let value :=
          if negb (num_eqb multiplier (Int 1)) then num_mul value multiplier
          else value in
        (name, value, unit)
    | None => (strip line, Int 0, u "to-taste")
    end in
  let allergens := _detect_allergens name in
  Some (MkIngredient name line value unit allergens []).

(** [[line.strip() for line in text.split('\n') if line.strip()]] *)
Definition stripped_lines (text : pystr) : list pystr :=
  map strip
    (filter (fun line => negb (str_eqb (strip line) []))
            (split LF text)).

(** [s.startswith((p1, p2, ...))] *)
Definition startswith_any (ps : list pystr) (s : pystr) : bool :=
  existsb (fun p => startswith p s) ps.

Definition ingredient_headings : list pystr :=
  [u "ингредиент"; u "состав"; u "для теста"].

Definition step_headings : list pystr :=
  [u "приготовление"; u "инструкция"; u "шаг"].

(** The [for] loop of [parse_ingredients]; [ingredients] is the list built
    so far. *)
Fixpoint parse_ingredients_loop (lines : list pystr)
  (ingredients : list ParsedIngredient) : list ParsedIngredient :=
  match lines with
  | [] => ingredients
  | line :: rest =>
      if startswith_any ingredient_headings (lower line)
      then parse_ingredients_loop rest ingredients
      else
        let line := re_sub_start bullet_pattern line in
        match _parse_ingredient_line line with
        | Some ingredient =>
            parse_ingredients_loop rest (ingredients ++ [ingredient])
        | None => parse_ingredients_loop rest ingredients
        end
  end.

Definition parse_ingredients (text : pystr) : list ParsedIngredient :=
  parse_ingredients_loop (stripped_lines text) [].

(* ================================================================== *)
(** ** Step parser *)
(* ================================================================== *)

(** The loop of [_detect_action] over the items of the table. *)
Fixpoint first_action (table : list (pystr * pystr)) (text_lower : pystr)
  : pystr :=
  match table with
  | [] => u "prepare"
  | (keyword, action) :: rest =>
      if contains keyword text_lower then action
      else first_action rest text_lower
  end.

Definition _detect_action (text : pystr) : pystr :=
  first_action ACTION_MAPPING (lower text).

(** A pattern with its source text, which [_extract_time] inspects. *)
Definition pattern : Type := (pystr * regex)%type.

(** [(\d+)\s*мин], [(\d+)\s*час], [(\d+)-(\d+)\s*мин] *)
Definition time_patterns : list pattern :=
  [ (u "(\d+)\s*мин", Grp 1 (Plus is_digit) &> Star is_space &> Lit (u "мин"));
    (u "(\d+)\s*час", Grp 1 (Plus is_digit) &> Star is_space &> Lit (u "час"));
    (u "(\d+)-(\d+)\s*мин",
     Grp 1 (Plus is_digit) &> Lit (u "-") &> Grp 2 (Plus is_digit) &>
     Star is_space &> Lit (u "мин")) ].

(** The [for] loop of [_extract_time].  The outer [option] is an
    exception ([int] raises on a run of digits beyond its limit), the inner
    one Python's [None]. *)
Fixpoint extract_time_loop (patterns : list pattern) (text : pystr)
  : option (option Z) :=
  match patterns with
  | [] => Some None
  | (src, rx) :: rest =>
      match re_search rx (lower text) with
      | Some m =>
          if contains (u "час") src
          then
            hours <- int_of_digits (group_text 1 m) ;;
            Some (Some (hours * 60)%Z)
          else
            match lastindex m with
            | Some 2%nat =>
                low <- int_of_digits (group_text 1 m) ;;
                high <- int_of_digits (group_text 2 m) ;;
                Some (Some ((low + high) / 2)%Z)
            | _ =>
                minutes <- int_of_digits (group_text 1 m) ;;
                Some (Some minutes)
            end
      | None => extract_time_loop rest text
      end
  end.

Definition _extract_time (text : pystr) : option (option Z) :=
  extract_time_loop time_patterns text.

(** [(\d+)\s*[°С]], [(\d+)\s*град], [при\s+(\d+)] *)
Definition temperature_patterns : list pattern :=
  [ (u "(\d+)\s*[°С]",
     Grp 1 (Plus is_digit) &> Star is_space &> Chr (any_of (u "°С")));
    (u "(\d+)\s*град",
     Grp 1 (Plus is_digit) &> Star is_space &> Lit (u "град"));
    (u "при\s+(\d+)",
     Lit (u "при") &> Plus is_space &> Grp 1 (Plus is_digit)) ].

(** The [for] loop of [_extract_temperature], with the same two layers. *)
Fixpoint extract_temperature_loop (patterns : list pattern) (text : pystr)
  : option (option Z) :=
  match patterns with
  | [] => Some None
  | (_, rx) :: rest =>
      match re_search rx text with
      | Some m =>
          degrees <- int_of_digits (group_text 1 m) ;;
          Some (Some degrees)
      | None => extract_temperature_loop rest text
      end
  end.

Definition _extract_temperature (text : pystr) : option (option Z) :=
  extract_temperature_loop temperature_patterns text.

(** [_parse_step_line]: an exception of the two extractions goes through;
    the record is never Python's [None]. *)
Definition _parse_step_line (line : pystr) : option (option ParsedStep) :=
  let action := _detect_action line in
  time_minutes <- _extract_time line ;;
  temperature_c <- _extract_temperature line ;;
  Some (Some (MkStep line action time_minutes temperature_c)).

(** The [for] loop of [parse_steps]; an exception ends it. *)
Fixpoint parse_steps_loop (lines : list pystr) (steps : list ParsedStep)
  : option (list ParsedStep) :=
  match lines with
  | [] => Some steps
  | line :: rest =>
      if startswith_any step_headings (lower line)
      then parse_steps_loop rest steps
      else
        let line := re_sub_start numbering_pattern line in
        let line := re_sub_start bullet_pattern line in
        step <- _parse_step_line line ;;
        match step with
        | Some step => parse_steps_loop rest (steps ++ [step])
        | None => parse_steps_loop rest steps
        end
  end.

Definition parse_steps (text : pystr) : option (list ParsedStep) :=
  parse_steps_loop (stripped_lines text) [].

(* ================================================================== *)
(** ** Python values and dictionaries *)
(* ================================================================== *)

#[local] Set Warnings "-register-all".

Inductive pyval : Type :=
| PNone
| PBool (b : bool)
| PNum (n : number)
| PStr (s : pystr)
| PList (l : list pyval)
| PDict (d : list (pystr * pyval)).

(** A [dict] with string keys, in insertion order. *)
Definition dict : Type := list (pystr * pyval).

(** [d[k]] and [k in d] *)
Fixpoint dict_get (d : dict) (k : pystr) : option pyval :=
  match d with
  | [] => None
  | (k', v) :: d' => if str_eqb k' k then Some v else dict_get d' k
  end.

Definition dict_has (d : dict) (k : pystr) : bool :=
  match dict_get d k with
  | Some _ => true
  | None => false
  end.

(** [d[k] = v]: an existing key keeps its place, a new one goes last. *)
Fixpoint dict_set (d : dict) (k : pystr) (v : pyval) : dict :=
  match d with
  | [] => [(k, v)]
  | (k', v') :: d' =>
      if str_eqb k' k then (k', v) :: d' else (k', v') :: dict_set d' k v
  end.

(** Truth value of [if x:]. *)
Definition truthy (x : pyval) : bool :=
  match x with
  | PNone => false
  | PBool b => b
  | PNum n => negb (num_eqb n (Int 0))
  | PStr s => negb (str_eqb s [])
  | PList l => match l with [] => false | _ => true end
  | PDict d => match d with [] => false | _ => true end
  end.

(** An [Optional[int]] as a value. *)
Definition of_opt_int (x : option Z) : pyval :=
  match x with
  | Some z => PNum (Int z)
  | None => PNone
  end.

(** [for x in v]: the items a value yields, [TypeError] for the others. *)
Definition py_iter (v : pyval) : option (list pyval) :=
  match v with
  | PList l => Some l
  | PStr s => Some (map (fun c => PStr [c]) s)
  | PDict d => Some (map (fun kv => PStr (fst kv)) d)
  | _ => None
  end.

(** [v.get(k, default)]: only a [dict] has the method. *)
Definition py_get (v : pyval) (k : pystr) (default : pyval) : option pyval :=
  match v with
  | PDict d =>
      match dict_get d k with
      | Some x => Some x
      | None => Some default
      end
  | _ => None
  end.

Definition is_str_eq (k : pystr) (v : pyval) : bool :=
  match v with
  | PStr s => str_eqb s k
  | _ => false
  end.

(** [k in v] for a string [k]. *)
Definition py_in (k : pystr) (v : pyval) : option bool :=
  match v with
  | PDict d => Some (dict_has d k)
  | PList l => Some (existsb (is_str_eq k) l)
  | PStr s => Some (contains k s)
  | _ => None
  end.

Definition hashable (v : pyval) : bool :=
  match v with
  | PList _ | PDict _ => false
  | _ => true
  end.

(** [s.update(v)] on a set kept as the list of its elements. *)
Definition set_update (s : list pyval) (v : pyval) : option (list pyval) :=
  items <- py_iter v ;;
  if forallb hashable items then Some (s ++ items) else None.

(** [k in s] for a string [k] and a set [s]. *)
Definition set_has (k : pystr) (s : list pyval) : bool :=
  existsb (is_str_eq k) s.

Fixpoint enumerate_from {A} (i : nat) (l : list A) : list (nat * A) :=
  match l with
  | [] => []
  | x :: l' => (i, x) :: enumerate_from (S i) l'
  end.

(** [enumerate(l)] *)
Definition enumerate {A} (l : list A) : list (nat * A) := enumerate_from 0 l.

(* ================================================================== *)
(** ** RCIP structures *)
(* ================================================================== *)

(** What [convert] reads from outside the program, in call order:
    [uuid.uuid4()] rendered by the f-string, then
    [datetime.utcnow().isoformat()] in [_create_meta] and, when a source
    URL is given, once more for the extensions. *)
Record Outside : Type := MkOutside {
  uuid4 : pystr;
  utcnow_meta : pystr;
  utcnow_extensions : pystr
}.

Definition rcip_version : pystr := u "0.1".

Definition _create_meta (o : Outside) (name description servings : pyval)
  (prep_time cook_time : option Z) (difficulty cuisine : pystr)
  (author : pyval) : dict :=
  let meta :=
    [ (u "name", name);
      (u "author", author);
      (u "created_date", PStr (utcnow_meta o ++ u "Z"));
      (u "difficulty", PStr difficulty) ] in
  let meta :=
    if truthy description then dict_set meta (u "description") description
    else meta in
  let meta :=
    if truthy servings
    then dict_set meta (u "servings")
           (PDict [ (u "amount", servings);
                    (u "unit", PStr (u "portions"));
                    (u "adjustable", PBool true) ])
    else meta in
  let meta :=
    if truthy (of_opt_int prep_time)
    then dict_set meta (u "prep_time_minutes") (of_opt_int prep_time)
    else meta in
  let meta :=
    if truthy (of_opt_int cook_time)
    then dict_set meta (u "cook_time_minutes") (of_opt_int cook_time)
    else meta in
  let meta :=
    match prep_time, cook_time with
    | Some p, Some c =>
        if truthy (of_opt_int prep_time) && truthy (of_opt_int cook_time)
        then dict_set meta (u "total_time_minutes") (PNum (Int (p + c)))
        else meta
    | _, _ => meta
    end in
  let meta :=
    if truthy (PStr cuisine)
    then dict_set meta (u "keywords") (PList [PStr (lower cuisine)])
    else meta in
  dict_set meta (u "diet_labels") (PList []).

Definition _ingredient_to_rcip (ing : ParsedIngredient) (index : nat)
  : pyval :=
  PDict
    [ (u "id", PStr (u "ing-" ++ zero_pad 4 index));
      (u "name", PStr (ing_name ing));
      (u "human_amount", PStr (ing_amount ing));
      (u "machine_amount",
       PDict [ (u "value", PNum (ing_value ing));
               (u "unit", PStr (ing_unit ing));
               (u "approximate", PBool false) ]);
      (u "allergens", PList (map PStr (ing_allergens ing)));
      (u "notes", PStr (ing_notes ing)) ].

Definition _step_to_rcip (step : ParsedStep) (index : nat) : pyval :=
  let rcip_step :=
    [ (u "step_id", PStr (u "s-" ++ zero_pad 2 index));
      (u "human_text", PStr (step_text step));
      (u "action", PStr (step_action step)) ] in
  let params : dict := [] in
  let params :=
    if truthy (of_opt_int (time_minutes step))
    then dict_set params (u "time_minutes") (of_opt_int (time_minutes step))
    else params in
  let params :=
    if truthy (of_opt_int (temperature_c step))
    then dict_set params (u "temperature_c") (of_opt_int (temperature_c step))
    else params in
  let rcip_step :=
    if truthy (PDict params) then dict_set rcip_step (u "params") (PDict params)
    else rcip_step in
  PDict rcip_step.

(** The first [for] loop of [_detect_diet_labels]. *)
Fixpoint collect_allergens (ingredients : list pyval)
  (all_allergens : list pyval) : option (list pyval) :=
  match ingredients with
  | [] => Some all_allergens
  | ing :: rest =>
      allergens <- py_get ing (u "allergens") (PList []) ;;
      all_allergens <- set_update all_allergens allergens ;;
      collect_allergens rest all_allergens
  end.

Definition _detect_diet_labels (ingredients : pyval) : option (list pystr) :=
  items <- py_iter ingredients ;;
  all_allergens <- collect_allergens items [] ;;
  let diet_labels : list pystr := [] in
  let has_meat := existsb (fun a => set_has a all_allergens) [u "fish"] in
  let diet_labels := if negb has_meat then diet_labels else diet_labels in
  let diet_labels :=
    if negb (set_has (u "gluten") all_allergens) &&
       negb (set_has (u "wheat") all_allergens)
    then diet_labels ++ [u "gluten-free"] else diet_labels in
  let diet_labels :=
    if negb (set_has (u "milk") all_allergens) &&
       negb (set_has (u "lactose") all_allergens)
    then diet_labels ++ [u "dairy-free"] else diet_labels in
  let diet_labels :=
    if negb (set_has (u "tree-nuts") all_allergens) &&
       negb (set_has (u "peanuts") all_allergens)
    then diet_labels ++ [u "nut-free"] else diet_labels in
  Some diet_labels.

(** [d[k]]: [KeyError] when the key is missing. *)
Definition py_item (d : dict) (k : pystr) : option pyval := dict_get d k.

(** [d[k1][k2] = v]: the inner dictionary is updated in place. *)
Definition set_nested (d : dict) (k1 k2 : pystr) (v : pyval) : option dict :=
  inner <- py_item d k1 ;;
  match inner with
  | PDict inner_d => Some (dict_set d k1 (PDict (dict_set inner_d k2 v)))
  | _ => None
  end.

(** The two list comprehensions of [convert]. *)
Definition ingredients_to_rcip (parsed_ingredients : list ParsedIngredient)
  : list pyval :=
  map (fun '(i, ing) => _ingredient_to_rcip ing (i + 1))
      (enumerate parsed_ingredients).

Definition steps_to_rcip (parsed_steps : list ParsedStep) : list pyval :=
  map (fun '(i, step) => _step_to_rcip step (i + 1)) (enumerate parsed_steps).

(** [convert]; the keyword parameters are all passed by the caller (the
    defaults of the source are [description=""], [servings=4],
    [prep_time=None], [cook_time=None], [difficulty="intermediate"],
    [cuisine=""], [author="Web Source"], [source_url=""]). *)
Definition convert (o : Outside) (name : pyval)
  (ingredients_text steps_text : option pystr)
  (description servings : pyval) (prep_time cook_time : option Z)
  (difficulty cuisine : pystr) (author : pyval) (source_url : pystr)
  : option pyval :=
  let recipe : dict :=
    [ (u "rcip_version", PStr rcip_version);
      (u "id", PStr (u "rcip-" ++ uuid4 o));
      (u "meta",
       PDict (_create_meta o name description servings prep_time cook_time
                difficulty cuisine author));
      (u "ingredients", PList []);
      (u "steps", PList []) ] in
  let recipe :=
    match ingredients_text with
    | Some (c :: t) =>
        let parsed_ingredients := parse_ingredients (c :: t) in
        dict_set recipe (u "ingredients")
          (PList (ingredients_to_rcip parsed_ingredients))
    | _ => recipe
    end in
  recipe <-
    match steps_text with
    | Some (c :: t) =>
        parsed_steps <- parse_steps (c :: t) ;;
        Some (dict_set recipe (u "steps")
                (PList (steps_to_rcip parsed_steps)))
    | _ => Some recipe
    end ;;
  ingredients <- py_item recipe (u "ingredients") ;;
  diet_labels <- _detect_diet_labels ingredients ;;
  recipe <- set_nested recipe (u "meta") (u "diet_labels")
              (PList (map PStr diet_labels)) ;;
  let recipe :=
    if truthy (PStr source_url)
    then dict_set recipe (u "extensions")
           (PDict [ (u "source_url", PStr source_url);
                    (u "converted_date",
                     PStr (utcnow_extensions o ++ u "Z")) ])
    else recipe in
  Some (PDict recipe).

(* ================================================================== *)
(** ** Schema.org adapter *)
(* ================================================================== *)

Definition str_of_Z (z : Z) : pystr :=
  match z with
  | Zneg _ => u "-" ++ str_of_nat (Z.abs_nat z)
  | _ => str_of_nat (Z.abs_nat z)
  end.

Fixpoint mapM {A B} (f : A -> option B) (l : list A) : option (list B) :=
  match l with
  | [] => Some []
  | x :: l' => y <- f x ;; ys <- mapM f l' ;; Some (y :: ys)
  end.

Definition as_str (v : pyval) : option pystr :=
  match v with
  | PStr s => Some s
  | _ => None
  end.

(** [sep.join(v)]: [TypeError] unless [v] yields strings only. *)
Definition py_join (sep : pystr) (v : pyval) : option pystr :=
  items <- py_iter v ;;
  parts <- mapM as_str items ;;
  Some (join sep parts).

Definition newline : pystr := [LF].

(** [(\d+)H], [(\d+)M] and [\d+] *)
Definition hours_pattern : regex := Grp 1 (Plus is_digit) &> Lit (u "H").
Definition minutes_pattern : regex := Grp 1 (Plus is_digit) &> Lit (u "M").
Definition digits_pattern : regex := Grp 0 (Plus is_digit).

(** The outer [option] is an exception, the inner one Python's [None]. *)
Definition _parse_iso_duration (duration : pyval) : option (option Z) :=
  if negb (truthy duration) then Some None
  else
    match duration with
    | PStr s =>
        let minutes := 0%Z in
        minutes <-
          match re_search hours_pattern s with
          | Some hours_match =>
              hours <- int_of_digits (group_text 1 hours_match) ;;
              Some (minutes + hours * 60)%Z
          | None => Some minutes
          end ;;
        minutes <-
          match re_search minutes_pattern s with
          | Some minutes_match =>
              mins <- int_of_digits (group_text 1 minutes_match) ;;
              Some (minutes + mins)%Z
          | None => Some minutes
          end ;;
        Some (if (0 <? minutes)%Z then Some minutes else None)
    | _ => None
    end.

(** The servings block of [from_schema_org]. *)
Definition schema_servings (servings : pyval) : option pyval :=
  match servings with
  | PStr s =>
      match re_search digits_pattern s with
      | Some m =>
          amount <- int_of_digits (group_text 0 m) ;;
          Some (PNum (Int amount))
      | None => Some (PNum (Int 4))
      end
  | _ => Some (if negb (truthy servings) then PNum (Int 4) else servings)
  end.

Section Adapter.

(** [str(v)] for a float or a container [v], as the runtime renders it:
    the text, or an exception when the rendering fails (a container may
    hold an integer beyond the conversion limit). *)
Variable str_other : pyval -> option pystr.

(** [str(v)].  A string is itself; [None], booleans and integers are
    rendered, an integer of more digits than the limit allows raising
    [ValueError]. *)
Definition py_str (v : pyval) : option pystr :=
  match v with
  | PStr s => Some s
  | PNone => Some (u "None")
  | PBool true => Some (u "True")
  | PBool false => Some (u "False")
  | PNum (Int z) =>
      if Nat.ltb int_max_str_digits (length (str_of_nat (Z.abs_nat z)))
      then None
      else Some (str_of_Z z)
  | _ => str_other v
  end.

(** One item of the [recipeInstructions] list; the default of [get] is
    evaluated whether or not the key is there. *)
Definition instruction_item (step : pyval) : option pyval :=
  match step with
  | PDict d =>
      default <- py_str step ;;
      match dict_get d (u "text") with
      | Some text => Some text
      | None => Some (PStr default)
      end
  | _ => s <- py_str step ;; Some (PStr s)
  end.

(** The author block of [from_schema_org]. *)
Definition schema_author (author_data : pyval) : option pyval :=
  match author_data with
  | PDict _ => py_get author_data (u "name") (PStr (u "Unknown"))
  | _ => s <- py_str author_data ;; Some (PStr s)
  end.

(** The steps block of [from_schema_org]. *)
Definition schema_steps_text (instructions : pyval) : option pystr :=
  match instructions with
  | PStr s => Some s
  | PList l =>
      items <- mapM instruction_item l ;;
      py_join newline (PList items)
  | _ => Some []
  end.

Definition from_schema_org (o : Outside) (schema_data : pyval)
  : option pyval :=
  name <- py_get schema_data (u "name") (PStr (u "Unknown Recipe")) ;;
  description <- py_get schema_data (u "description") (PStr []) ;;
  author_data <- py_get schema_data (u "author") (PDict []) ;;
  author <- schema_author author_data ;;
  prep <- py_get schema_data (u "prepTime") (PStr []) ;;
  prep_time <- _parse_iso_duration prep ;;
  cook <- py_get schema_data (u "cookTime") (PStr []) ;;
  cook_time <- _parse_iso_duration cook ;;
  servings <- py_get schema_data (u "recipeYield") PNone ;;
  servings <- schema_servings servings ;;
  ingredients_list <- py_get schema_data (u "recipeIngredient") (PList []) ;;
  ingredients_text <- py_join newline ingredients_list ;;
  instructions <- py_get schema_data (u "recipeInstructions") (PList []) ;;
  steps_text <- schema_steps_text instructions ;;
  convert o name (Some ingredients_text) (Some steps_text) description
    servings prep_time cook_time (u "intermediate") [] author [].

End Adapter.

(* ================================================================== *)
(** ** Validator *)
(* ================================================================== *)

Definition required_fields : list pystr :=
  [u "rcip_version"; u "id"; u "meta"; u "ingredients"; u "steps"].

(** The first [for] loop of [validate]. *)
Fixpoint check_required (fields : list pystr) (recipe : pyval)
  (errors : list pystr) : option (list pystr) :=
  match fields with
  | [] => Some errors
  | field :: rest =>
      present <- py_in field recipe ;;
      let errors :=
        if negb present
        then errors ++ [u "Missing required field: " ++ field]
        else errors in
      check_required rest recipe errors
  end.

(** The second [for] loop of [validate]. *)
Fixpoint check_allergens (items : list (nat * pyval)) (errors : list pystr)
  : option (list pystr) :=
  match items with
  | [] => Some errors
  | (i, ing) :: rest =>
      present <- py_in (u "allergens") ing ;;
      let errors :=
        if negb present
        then errors ++
             [u "Ingredient " ++ str_of_nat (i + 1) ++
              u " missing allergens field"]
        else errors in
      check_allergens rest errors
  end.

Definition validate (recipe : pyval) : option (bool * list pystr) :=
  errors <- check_required required_fields recipe [] ;;
  ingredients <- py_get recipe (u "ingredients") (PList []) ;;
  items <- py_iter ingredients ;;
  errors <- check_allergens (enumerate items) errors ;;
  Some (Nat.eqb (length errors) 0, errors).

(* ================================================================== *)
(** ** The agent ([rcip_agent.py]): section splitter, conversion, validation *)
(* ================================================================== *)

(** [s.split(sep)] for a separator of any length: [skip] characters of a
    separator just found are still to be passed over, [cur] is the piece
    read so far, last character first. *)
Fixpoint split_go (sep s : pystr) (skip : nat) (cur : pystr) : list pystr :=
  match s with
  | [] => [List.rev cur]
  | c :: s' =>
      match skip with
      | S k => split_go sep s' k cur
      | O =>
          if startswith sep s
          then List.rev cur :: split_go sep s' (length sep - 1) []
          else split_go sep s' 0 (c :: cur)
      end
  end.

Definition split_str (sep s : pystr) : list pystr := split_go sep s 0 [].

(** [s.replace(old, new)] *)
Fixpoint replace_go (old new s : pystr) (skip : nat) : pystr :=
  match s with
  | [] => []
  | c :: s' =>
      match skip with
      | S k => replace_go old new s' k
      | O =>
          if startswith old s
          then new ++ replace_go old new s' (length old - 1)
          else c :: replace_go old new s' 0
      end
  end.

Definition replace_str (old new s : pystr) : pystr := replace_go old new s 0.

(** The dictionary [scrape_recipe] returns: its keys 'url' and 'text'. *)
Record RecipeData : Type := MkRecipeData {
  rd_url : pystr;
  rd_text : pystr
}.

(** An [Optional[str]] as a value. *)
Definition of_opt_str (x : option pystr) : pyval :=
  match x with
  | Some s => PStr s
  | None => PNone
  end.

Inductive section_name : Type :=
| InIngredients
| InSteps.

Definition ingredient_words : list pystr :=
  [u "ingredient"; u "ingredients"; u "состав"; u "нужно:"; u "понадобится"].

Definition step_words : list pystr :=
  [u "instruction"; u "instructions"; u "method"; u "step"; u "steps";
   u "приготовление"; u "инструкция"; u "способ"; u "шаг"].

(** [any(word in s for word in words)] *)
Definition contains_any (words : list pystr) (s : pystr) : bool :=
  existsb (fun word => contains word s) words.

Definition is_some {A} (x : option A) : bool :=
  match x with
  | Some _ => true
  | None => false
  end.

(** The pattern [^[-•*]] of the splitter and [^\d+[\.)]]. *)
Definition bullet_start_pattern : regex := Chr (any_of (u "-•*")).
Definition numbered_start_pattern : regex :=
  Plus is_digit &> Chr (any_of (u ".)")).

Section Splitter.

(** [str.isalnum] on one character: a table of the Python runtime. *)
Variable is_alnum : cp -> bool.

(** The class [\w] of [re]. *)
Definition is_word (c : cp) : bool := is_alnum c || cp_eqb c (ch "_").

(** [^\d+[\s\w]+] *)
Definition quantity_start_pattern : regex :=
  Plus is_digit &> Plus (fun c => is_space c || is_word c).

(** The [for] loop of [_extract_structured_text]. *)
Fixpoint extract_loop (lines : list pystr)
  (current_section : option section_name) (ingredients steps : list pystr)
  : list pystr * list pystr :=
  match lines with
  | [] => (ingredients, steps)
  | line :: rest =>
      let line := strip line in
      if str_eqb line [] then
        extract_loop rest current_section ingredients steps
      else
        let line_lower := lower line in
        if contains_any ingredient_words line_lower then
          extract_loop rest (Some InIngredients) ingredients steps
        else if contains_any step_words line_lower then
          extract_loop rest (Some InSteps) ingredients steps
        else
          match current_section with
          | Some InIngredients =>
              if is_some (re_match quantity_start_pattern line) ||
                 is_some (re_match bullet_start_pattern line)
              then extract_loop rest current_section
                     (ingredients ++ [line]) steps
              else extract_loop rest current_section ingredients steps
          | Some InSteps =>
              if is_some (re_match numbered_start_pattern line) ||
                 is_some (re_match bullet_start_pattern line) ||
                 Nat.ltb 30 (length line)
              then extract_loop rest current_section ingredients
                     (steps ++ [line])
              else extract_loop rest current_section ingredients steps
          | None => extract_loop rest current_section ingredients steps
          end
  end.

(** ['\n'.join(l) if l else None] *)
Definition join_or_none (l : list pystr) : option pystr :=
  match l with
  | [] => None
  | _ :: _ => Some (join newline l)
  end.

Definition _extract_structured_text (text : pystr)
  : option pystr * option pystr :=
  let lines := split LF text in
  let '(ingredients, steps) := extract_loop lines None [] [] in
  (join_or_none ingredients, join_or_none steps).

(** [_convert_with_llm].  The reply of the language model is an outside
    value, [None] when the call raises; the result [None] is Python's
    [None]: no document. *)
Definition _convert_with_llm (o : Outside) (reply : option pystr)
  (recipe_data : RecipeData) (recipe_name : pyval) : option pyval :=
  match reply with
  | None => None
  | Some response =>
      match split_str (u "STEPS:") response with
      | [part0; part1] =>
          let ing_part := strip (replace_str (u "INGREDIENTS:") [] part0) in
          let steps_part := strip part1 in
          convert o recipe_name (Some ing_part) (Some steps_part) (PStr [])
            (PNum (Int 4)) None None (u "intermediate") []
            (PStr (u "Web Source")) (rd_url recipe_data)
      | _ => None
      end
  end.

(** [convert_to_rcip]: the local parser when the splitter finds both
    sections, the language model otherwise or when the local conversion
    raises. *)
Definition convert_to_rcip (o : Outside) (reply : option pystr)
  (recipe_data : RecipeData) (recipe_name : pyval) : option pyval :=
  let '(ingredients_text, steps_text) :=
    _extract_structured_text (rd_text recipe_data) in
  if truthy (of_opt_str ingredients_text) && truthy (of_opt_str steps_text)
  then
    match convert o recipe_name ingredients_text steps_text (PStr [])
            (PNum (Int 4)) None None (u "intermediate") []
            (PStr (u "Web Source")) (rd_url recipe_data) with
    | Some rcip_recipe => Some rcip_recipe
    | None => _convert_with_llm o reply recipe_data recipe_name
    end
  else _convert_with_llm o reply recipe_data recipe_name.

End Splitter.

Definition agent_required_fields : list pystr :=
  [u "rcip_version"; u "id"; u "meta"; u "ingredients"; u "steps"].

(** The first [for] loop of [validate_rcip]: [False] at the first missing
    field. *)
Fixpoint rcip_fields_present (fields : list pystr) (recipe : pyval)
  : option bool :=
  match fields with
  | [] => Some true
  | field :: rest =>
      present <- py_in field recipe ;;
      if negb present then Some false
      else rcip_fields_present rest recipe
  end.

(** The second [for] loop of [validate_rcip]; the warning it prints reads
    the name of the ingredient with [ing.get]. *)
Fixpoint rcip_allergens_present (items : list pyval) : option bool :=
  match items with
  | [] => Some true
  | ing :: rest =>
      present <- py_in (u "allergens") ing ;;
      if negb present then _ <- py_get ing (u "name") PNone ;; Some false
      else rcip_allergens_present rest
  end.

Definition validate_rcip (recipe : pyval) : option bool :=
  ok <- rcip_fields_present agent_required_fields recipe ;;
  if negb ok then Some false
  else
    ingredients <- py_get recipe (u "ingredients") (PList []) ;;
    items <- py_iter ingredients ;;
    rcip_allergens_present items.

(* ================================================================== *)
(** ** Definitions used to state the properties *)
(* ================================================================== *)

(** The entries of a unit table that some token can reach: an entry is
    shadowed when an earlier key is a substring of its key. *)
Fixpoint live_units (seen : list pystr)
  (table : list (pystr * (pystr * number))) : list (pystr * (pystr * number)) :=
  match table with
  | [] => []
  | (key, r) :: rest =>
      if existsb (fun k => contains k key) seen
      then live_units (seen ++ [key]) rest
      else (key, r) :: live_units (seen ++ [key]) rest
  end.

(** [text or ''] *)
Definition text_or_empty (text : option pystr) : pystr :=
  match text with
  | Some t => t
  | None => []
  end.

(** The lines of a text that are neither blank nor headings. *)
Definition data_lines (headings : list pystr) (text : pystr) : list pystr :=
  filter (fun line => negb (startswith_any headings (lower line)))
         (stripped_lines text).

(** A tag occurs in the union of the allergen sets of the ingredients. *)
Definition in_allergen_union (tag : pystr) (parsed : list ParsedIngredient)
  : Prop :=
  exists ing, In ing parsed /\ In tag (ing_allergens ing).

(** The value of a field of a dictionary value. *)
Definition field (k : pystr) (v : pyval) : option pyval :=
  match v with
  | PDict d => dict_get d k
  | _ => None
  end.

(** What a pattern matches, without the order of the search: [den r s s']
    holds when [r] matches a prefix of [s] and [s'] is what follows it. *)
Fixpoint den (r : regex) (s s' : pystr) : Prop :=
  match r with
  | Chr p => exists c, s = c :: s' /\ p c = true
  | Lit l => s = l ++ s'
  | Star p => exists a, s = a ++ s' /\ forallb p a = true
  | Opt r1 => den r1 s s' \/ s = s'
  | Cat r1 r2 => exists m, den r1 s m /\ den r2 m s'
  | Grp _ r1 => den r1 s s'
  end.

(** Group [i] is closed on every way through the pattern. *)
Fixpoint binds (i : nat) (r : regex) : bool :=
  match r with
  | Grp j r1 => Nat.eqb i j || binds i r1
  | Cat r1 r2 => binds i r1 || binds i r2
  | _ => false
  end.

Definition is_none {A} (x : option A) : bool :=
  match x with
  | None => true
  | Some _ => false
  end.

(** The document [convert] builds, written out: the five fields of the
    literal, then the extensions when a source URL is given. *)
Definition recipe_lit (idv meta : pyval) (X Y : list pyval) : dict :=
  [ (u "rcip_version", PStr rcip_version);
    (u "id", idv);
    (u "meta", meta);
    (u "ingredients", PList X);
    (u "steps", PList Y) ].

Definition extensions_entry (o : Outside) (source_url : pystr) : dict :=
  if truthy (PStr source_url)
  then [ (u "extensions",
          PDict [ (u "source_url", PStr source_url);
                  (u "converted_date", PStr (utcnow_extensions o ++ u "Z")) ]) ]
  else [].

(** Erasing the three places where two runs may differ: the id, the
    creation date of the meta section and the conversion date of the
    extensions. *)
Definition dict_remove (d : dict) (k : pystr) : dict :=
  filter (fun kv => negb (str_eqb (fst kv) k)) d.

Definition remove_field (k : pystr) (v : pyval) : pyval :=
  match v with
  | PDict d => PDict (dict_remove d k)
  | _ => v
  end.

Definition update_field (k : pystr) (f : pyval -> pyval) (v : pyval) : pyval :=
  match v with
  | PDict d =>
      PDict (map (fun kv => if str_eqb (fst kv) k then (fst kv, f (snd kv))
                            else kv) d)
  | _ => v
  end.

Definition scrub (recipe : pyval) : pyval :=
  remove_field (u "id")
    (update_field (u "meta") (remove_field (u "created_date"))
       (update_field (u "extensions") (remove_field (u "converted_date"))
          recipe)).

(** Every run of decimal digits in [s] has at most [n] digits; [run] is
    the length of the run that ends where [s] starts. *)
Fixpoint runs_within (n run : nat) (s : pystr) : bool :=
  match s with
  | [] => true
  | c :: t =>
      if is_digit c then Nat.leb (S run) n && runs_within n (S run) t
      else runs_within n 0 t
  end.

Definition digit_runs_within (n : nat) (s : pystr) : bool :=
  runs_within n 0 s.

(** Objects on which the adapter raises nowhere before it calls [convert]:
    [str] succeeds on an author that is not an object and on every item of
    a list of instructions, an item that is an object has a string, if
    anything, under "text", the two durations are empty or strings, and no
    run of digits of a duration or of a yield given as a string is beyond
    the limit of [int].  Any of the fields may be absent. *)
Definition is_str (v : pyval) : bool :=
  match v with
  | PStr _ => true
  | _ => false
  end.

Definition absent_or (p : pyval -> bool) (d : dict) (k : pystr) : bool :=
  match dict_get d k with
  | None => true
  | Some v => p v
  end.

Definition author_ok (str_other : pyval -> option pystr) (v : pyval) : bool :=
  match v with
  | PDict _ => true
  | _ => is_some (py_str str_other v)
  end.

Definition duration_ok (v : pyval) : bool :=
  negb (truthy v) ||
  match v with
  | PStr s => digit_runs_within int_max_str_digits s
  | _ => false
  end.

Definition yield_ok (v : pyval) : bool :=
  match v with
  | PStr s => digit_runs_within int_max_str_digits s
  | _ => true
  end.

Definition instruction_ok (str_other : pyval -> option pystr) (step : pyval)
  : bool :=
  is_some (py_str str_other step) &&
  match step with
  | PDict d =>
      match dict_get d (u "text") with
      | Some text => is_str text
      | None => true
      end
  | _ => true
  end.

Definition instructions_ok (str_other : pyval -> option pystr) (v : pyval)
  : bool :=
  match v with
  | PList l => forallb (instruction_ok str_other) l
  | _ => true
  end.

Definition schema_shape (str_other : pyval -> option pystr) (d : dict)
  : bool :=
  absent_or (author_ok str_other) d (u "author") &&
  absent_or duration_ok d (u "prepTime") &&
  absent_or duration_ok d (u "cookTime") &&
  absent_or yield_ok d (u "recipeYield") &&
  absent_or (instructions_ok str_other) d (u "recipeInstructions").

(** What [validate] has to report: one message for every required field
    that is missing, then one for every ingredient without allergens. *)
Definition present (k : pystr) (v : pyval) : bool :=
  match py_in k v with
  | Some true => true
  | _ => false
  end.

Definition violations (recipe : pyval) (items : list pyval) : list pystr :=
  map (fun f => u "Missing required field: " ++ f)
      (filter (fun f => negb (present f recipe)) required_fields) ++
  map (fun '(i, _) =>
         u "Ingredient " ++ str_of_nat (i + 1) ++ u " missing allergens field")
      (filter (fun '(_, ing) => negb (present (u "allergens") ing))
              (enumerate items)).

(** The unit codes and the action tags the parsers can produce. *)
Definition unit_codes : list pystr :=
  [u "pcs"; u "kg"; u "g"; u "l"; u "cup"; u "pinch"; u "to-taste"].

Definition action_tags : list pystr :=
  [u "add"; u "mix"; u "combine"; u "blend"; u "cut"; u "slice"; u "mince";
   u "boil"; u "simmer"; u "fry"; u "bake"; u "cool"; u "knead"; u "roll";
   u "strain"; u "rest"; u "garnish"; u "prepare"].

(** An optional integer that is not negative. *)
Definition opt_nonneg (x : option Z) : Prop :=
  match x with
  | Some z => (0 <= z)%Z
  | None => True
  end.

(** Membership and absence of repetitions in a list of strings, decided. *)
Definition str_in (a : pystr) (l : list pystr) : bool := existsb (str_eqb a) l.

Fixpoint nodupb (l : list pystr) : bool :=
  match l with
  | [] => true
  | a :: l' => negb (str_in a l') && nodupb l'
  end.

(** No line feed in a string. *)
Definition no_lf (s : pystr) : bool := negb (existsb (cp_eqb LF) s).

(** The string is empty or starts with a character outside the class. *)
Definition starts_without (p : cp -> bool) (s : pystr) : bool :=
  match s with
  | [] => true
  | c :: _ => negb (p c)
  end.

(** A line as the line loops keep it: without a line feed, stripped and
    not empty. *)
Definition clean_line (l : pystr) : Prop :=
  no_lf l = true /\ strip l = l /\ l <> [].

(** [t] is a run of digits somewhere inside [s]. *)
Definition digits_inside (s t : pystr) : Prop :=
  forallb is_digit t = true /\ exists a b, s = a ++ t ++ b.

(** Every group of the pattern is [(\d+)]. *)
Fixpoint digit_groups (r : regex) : Prop :=
  match r with
  | Grp _ r1 => r1 = Plus is_digit
  | Cat r1 r2 => digit_groups r1 /\ digit_groups r2
  | Opt r1 => digit_groups r1
  | _ => True
  end.

(** A decimal with at most this many digits before the point is below
    10^308, so [float] of it is finite. *)
Definition float_max_digits : nat := 308.

(** [n if n > 0 else None] *)
Definition positive_or_none (n : Z) : option Z :=
  if (0 <? n)%Z then Some n else None.

(** Closed goals are settled by evaluation. *)
Ltac by_eval := vm_compute; reflexivity.

(** Rewriting with an equation whose lists are typed [list cp] in a goal
    whose lists are typed [list N]. *)
Ltac rewrite_cp E :=
  let H := fresh in
  pose proof E as H; cbv delta [cp] in H |- *; rewrite H; clear H.

(** A boolean conjunction in the context, taken apart. *)
Ltac andb_split H H1 H2 :=
  apply andb_true_iff in H; destruct H as [H1 H2].

(* ================================================================== *)
(** ** Strings *)
(* ================================================================== *)

Lemma cp_eqb_eq (a b : cp) : cp_eqb a b = true <-> a = b.
Proof. apply N.eqb_eq. Qed.

Lemma str_eqb_eq (a b : pystr) : str_eqb a b = true <-> a = b.
Proof.
  revert b; induction a as [|x a IH]; intros [|y b]; simpl;
    try (split; [discriminate | discriminate]); try tauto.
  rewrite andb_true_iff, cp_eqb_eq, IH.
  split; [intros [-> ->]; reflexivity | intros H; inversion H; auto].
Qed.

Lemma str_eqb_refl (a : pystr) : str_eqb a a = true.
Proof. apply str_eqb_eq; reflexivity. Qed.

Lemma startswith_iff (p s : pystr) :
  startswith p s = true <-> exists t, s = p ++ t.
Proof.
  revert s; induction p as [|x p IH]; intros s; simpl.
  - split; [intros _; exists s; reflexivity | reflexivity].
  - destruct s as [|y s].
    + split; [discriminate | intros [t H]; discriminate].
    + rewrite andb_true_iff, cp_eqb_eq, IH. split.
      * intros [-> [t ->]]. exists t; reflexivity.
      * intros [t H]. inversion H; subst. split; [reflexivity | exists t; reflexivity].
Qed.

Lemma contains_iff (p s : pystr) :
  contains p s = true <-> exists a b, s = a ++ p ++ b.
Proof.
  induction s as [|c s IH].
  - simpl. rewrite orb_false_r, startswith_iff. split.
    + intros [t H]. exists [], t. exact H.
    + intros [a [b H]]. destruct a; [exists b; exact H | discriminate].
  - change (contains p (c :: s)) with (startswith p (c :: s) || contains p s).
    rewrite orb_true_iff, startswith_iff, IH. split.
    + intros [[t H] | [a [b H]]].
      * exists [], t. exact H.
      * exists (c :: a), b. simpl. rewrite H. reflexivity.
    + intros [[|x a] [b H]].
      * left. exists b. exact H.
      * right. inversion H. exists a, b. reflexivity.
Qed.

Lemma contains_trans (a b s : pystr) :
  contains a b = true -> contains b s = true -> contains a s = true.
Proof.
  rewrite !contains_iff. intros [x [y ->]] [x' [y' ->]].
  exists (x' ++ x), (y ++ y'). rewrite <- !app_assoc. reflexivity.
Qed.

(* ================================================================== *)
(** ** The matcher finds a match whenever there is one *)
(* ================================================================== *)

Lemma drop_prefix_app (l s : pystr) : drop_prefix l (l ++ s) = Some s.
Proof.
  induction l as [|c l IH]; [reflexivity | ].
  cbn [app drop_prefix]. unfold cp_eqb. rewrite N.eqb_refl. exact IH.
Qed.

Lemma drop_prefix_some (l s s' : pystr) :
  drop_prefix l s = Some s' -> s = l ++ s'.
Proof.
  revert s; induction l as [|c l IH]; intros s H.
  - inversion H. reflexivity.
  - destruct s as [|y s]; [discriminate | ].
    cbn [drop_prefix] in H. destruct (cp_eqb c y) eqn:E; [ | discriminate].
    apply cp_eqb_eq in E. subst y. rewrite (IH _ H). reflexivity.
Qed.

Lemma star_complete {A} (p : cp -> bool) (k : pystr -> option A) (a : pystr) :
  forall s', forallb p a = true -> k s' <> None -> star p (a ++ s') k <> None.
Proof.
  induction a as [|c a IH]; intros s' Ha Hk.
  - cbn [app]. destruct s' as [|c s']; [exact Hk | ].
    cbn [star]. destruct (p c); [ | exact Hk].
    destruct (star p s' k); [discriminate | exact Hk].
  - cbn [forallb] in Ha. andb_split Ha Hc Ha.
    cbn [app star]. rewrite Hc.
    specialize (IH s' Ha Hk).
    destruct (star p (a ++ s') k); [discriminate | contradiction].
Qed.

Lemma star_sound {A} (p : cp -> bool) (k : pystr -> option A) (s : pystr) :
  forall r, star p s k = Some r ->
  exists a s', s = a ++ s' /\ forallb p a = true /\ k s' = Some r.
Proof.
  induction s as [|c s IH]; intros r H.
  - exists [], []. auto.
  - cbn [star] in H. destruct (p c) eqn:Hc.
    + destruct (star p s k) as [r'|] eqn:Hs.
      * inversion H; subst r'. destruct (IH r eq_refl) as [a [s' [-> [Ha Hk]]]].
        exists (c :: a), s'. cbn [forallb]. rewrite Hc, Ha. auto.
      * exists [], (c :: s). auto.
    + exists [], (c :: s). auto.
Qed.

Lemma rmatch_complete {A} (r : regex) :
  forall (s s' : pystr) (cs : caps) (k : pystr -> caps -> option A),
    den r s s' -> (forall cs', k s' cs' <> None) -> rmatch r s cs k <> None.
Proof.
  induction r as [p | l | p | r1 IH1 | r1 IH1 r2 IH2 | i r1 IH1];
    intros s s' cs k Hd Hk; cbn [den] in Hd; cbn [rmatch].
  - destruct Hd as [c [-> Hc]]. rewrite Hc. apply Hk.
  - subst s. rewrite drop_prefix_app. apply Hk.
  - destruct Hd as [a [-> Ha]]. apply star_complete; [exact Ha | apply Hk].
  - destruct Hd as [Hd | ->].
    + specialize (IH1 s s' cs k Hd Hk).
      destruct (rmatch r1 s cs k); [discriminate | contradiction].
    + destruct (rmatch r1 s' cs k); [discriminate | apply Hk].
  - destruct Hd as [m [Hd1 Hd2]].
    apply (IH1 s m); [exact Hd1 | ].
    intros cs'. apply (IH2 m s'); [exact Hd2 | exact Hk].
  - apply (IH1 s s'); [exact Hd | ]. intros cs'. apply Hk.
Qed.

Lemma rmatch_sound {A} (r : regex) :
  forall (s : pystr) (cs : caps) (k : pystr -> caps -> option A) (x : A),
    rmatch r s cs k = Some x ->
    exists s' cs', den r s s' /\ k s' cs' = Some x.
Proof.
  induction r as [p | l | p | r1 IH1 | r1 IH1 r2 IH2 | i r1 IH1];
    intros s cs k x H; cbn [rmatch] in H; cbn [den].
  - destruct s as [|c s]; [discriminate | ].
    destruct (p c) eqn:Hc; [ | discriminate].
    exists s, cs. split; [exists c; auto | exact H].
  - destruct (drop_prefix l s) as [s'|] eqn:Hp; [ | discriminate].
    exists s', cs. split; [apply drop_prefix_some, Hp | exact H].
  - apply star_sound in H. destruct H as [a [s' [-> [Ha Hk]]]].
    exists s', cs. split; [exists a; auto | exact Hk].
  - destruct (rmatch r1 s cs k) as [y|] eqn:H1.
    + inversion H; subst y.
      destruct (IH1 _ _ _ _ H1) as [s' [cs' [Hd Hk]]].
      exists s', cs'. auto.
    + exists s, cs. auto.
  - destruct (IH1 _ _ _ _ H) as [m [cs1 [Hd1 H2]]].
    destruct (IH2 _ _ _ _ H2) as [s' [cs2 [Hd2 Hk]]].
    exists s', cs2. split; [exists m; auto | exact Hk].
  - destruct (IH1 _ _ _ _ H) as [s' [cs' [Hd Hk]]].
    exists s', ((i, consumed s s') :: cs'). auto.
Qed.

Lemma re_search_complete (r : regex) (pre suf s' : pystr) :
  den r suf s' -> re_search r (pre ++ suf) <> None.
Proof.
  intros Hd. induction pre as [|c pre IH].
  - cbn [app]. assert (Hm : re_match r suf <> None).
    { unfold re_match. apply (rmatch_complete r suf s'); [exact Hd | discriminate]. }
    destruct suf; cbn [re_search]; destruct (re_match r _); congruence.
  - cbn [app re_search]. destruct (re_match r (c :: pre ++ suf)); [discriminate | exact IH].
Qed.

Lemma re_search_sound (r : regex) (s : pystr) (m : match_obj) :
  re_search r s = Some m -> exists pre suf s', s = pre ++ suf /\ den r suf s'.
Proof.
  induction s as [|c s IH]; cbn [re_search]; intros H.
  - destruct (re_match r []) as [m'|] eqn:Hm; [ | discriminate].
    unfold re_match in Hm. apply rmatch_sound in Hm.
    destruct Hm as [s' [cs' [Hd _]]]. exists [], [], s'. auto.
  - destruct (re_match r (c :: s)) as [m'|] eqn:Hm.
    + unfold re_match in Hm. apply rmatch_sound in Hm.
      destruct Hm as [s' [cs' [Hd _]]]. exists [], (c :: s), s'. auto.
    + destruct (IH H) as [pre [suf [s' [-> Hd]]]].
      exists (c :: pre), suf, s'. auto.
Qed.

(** A group that is closed on every way through the pattern takes part in
    every match, so [group_text] never falls back on its default for it. *)
Lemma rmatch_binds {A} (r : regex) :
  forall (s : pystr) (cs : caps) (k : pystr -> caps -> option A) (x : A),
    rmatch r s cs k = Some x ->
    exists s' cs',
      k s' cs' = Some x /\
      forall i, binds i r = true \/ group i cs <> None -> group i cs' <> None.
Proof.
  induction r as [p | l | p | r1 IH1 | r1 IH1 r2 IH2 | j r1 IH1];
    intros s cs k x H; cbn [rmatch] in H; cbn [binds].
  - destruct s as [|c s]; [discriminate | ].
    destruct (p c); [ | discriminate].
    exists s, cs. split; [exact H | intros i [Hb | Hg]; [discriminate | exact Hg]].
  - destruct (drop_prefix l s) as [s'|]; [ | discriminate].
    exists s', cs. split; [exact H | intros i [Hb | Hg]; [discriminate | exact Hg]].
  - apply star_sound in H. destruct H as [a [s' [_ [_ Hk]]]].
    exists s', cs. split; [exact Hk | intros i [Hb | Hg]; [discriminate | exact Hg]].
  - destruct (rmatch r1 s cs k) as [y|] eqn:H1.
    + inversion H; subst y.
      destruct (IH1 _ _ _ _ H1) as [s' [cs' [Hk Hg]]].
      exists s', cs'. split; [exact Hk | ].
      intros i [Hb | Hi]; [discriminate | apply Hg; right; exact Hi].
    + exists s, cs. split; [exact H | intros i [Hb | Hg]; [discriminate | exact Hg]].
  - destruct (IH1 _ _ _ _ H) as [s1 [cs1 [H2 Hg1]]].
    destruct (IH2 _ _ _ _ H2) as [s' [cs' [Hk Hg2]]].
    exists s', cs'. split; [exact Hk | ].
    intros i [Hb | Hi].
    + apply orb_true_iff in Hb. destruct Hb as [Hb | Hb].
      * apply Hg2. right. apply Hg1. left. exact Hb.
      * apply Hg2. left. exact Hb.
    + apply Hg2. right. apply Hg1. right. exact Hi.
  - destruct (IH1 _ _ _ _ H) as [s' [cs' [Hk Hg]]].
    exists s', ((j, consumed s s') :: cs'). split; [exact Hk | ].
    intros i Hi. cbn [group]. destruct (Nat.eqb i j) eqn:E; [discriminate | ].
    apply Hg. destruct Hi as [Hb | Hi]; [left | right; exact Hi].
    cbn [orb] in Hb. exact Hb.
Qed.

Lemma re_match_binds (r : regex) (s : pystr) (m : match_obj) (i : nat) :
  re_match r s = Some m -> binds i r = true -> group i (m_caps m) <> None.
Proof.
  unfold re_match. intros H Hb. apply rmatch_binds in H.
  destruct H as [s' [cs' [Hk Hg]]]. inversion Hk; subst m. cbn [m_caps].
  apply Hg. left. exact Hb.
Qed.

Lemma re_search_binds (r : regex) (s : pystr) (m : match_obj) (i : nat) :
  re_search r s = Some m -> binds i r = true -> group i (m_caps m) <> None.
Proof.
  induction s as [|c s IH]; cbn [re_search]; intros H Hb.
  - destruct (re_match r []) as [m'|] eqn:Hm; [ | discriminate].
    inversion H; subst m'. exact (@re_match_binds r _ m i Hm Hb).
  - destruct (re_match r (c :: s)) as [m'|] eqn:Hm.
    + inversion H; subst m'. exact (@re_match_binds r _ m i Hm Hb).
    + exact (IH H Hb).
Qed.

(** Every group the parsers read with [group_text] is such a group. *)
Lemma group_text_groups_are_mandatory :
  binds 1 ingredient_pattern = true /\
  binds 3 ingredient_pattern = true /\
  forallb (fun p => binds 1 (snd p)) time_patterns = true /\
  binds 2 (snd (nth 2 time_patterns ([], Lit []))) = true /\
  forallb (fun p => binds 1 (snd p)) temperature_patterns = true /\
  binds 1 hours_pattern = true /\
  binds 1 minutes_pattern = true /\
  binds 0 digits_pattern = true.
Proof. repeat split; reflexivity. Qed.

(* ================================================================== *)
(** ** Unit normalization *)
(* ================================================================== *)

Lemma first_unit_live (table : list (pystr * (pystr * number))) :
  forall (seen : list pystr) (s : pystr),
    (forall k, In k seen -> contains k s = false) ->
    first_unit table s = (u "pcs", Int 1) \/
    In (first_unit table s) (map snd (live_units seen table)).
Proof.
  induction table as [|[key [std m]] rest IH]; intros seen s Hseen; simpl.
  - left; reflexivity.
  - destruct (contains key s) eqn:Hk.
    + right.
      destruct (existsb (fun k => contains k key) seen) eqn:Hsh.
      * apply existsb_exists in Hsh. destruct Hsh as [k [Hin Hc]].
        pose proof (Hseen k Hin) as Hf.
        rewrite (contains_trans _ _ _ Hc Hk) in Hf. discriminate.
      * left; reflexivity.
    + destruct (IH (seen ++ [key]) s) as [H | H].
      * intros k Hin. apply in_app_or in Hin. destruct Hin as [Hin | [<- | []]]; auto.
      * left; exact H.
      * right. destruct (existsb (fun k => contains k key) seen);
          [exact H | right; exact H].
Qed.

Lemma normalize_unit_eq (unit_str : pystr) :
  _normalize_unit unit_str =
  first_unit UNIT_MAPPING (strip_dots (lower unit_str)).
Proof. reflexivity. Qed.

(** Every unit and multiplier [_normalize_unit] can return. *)
Lemma normalize_unit_cases (unit_str : pystr) :
  In (_normalize_unit unit_str)
     [ (u "pcs", Int 1); (u "kg", Int 1000); (u "g", Int 1); (u "l", Int 1000);
       (u "cup", Int 240); (u "pinch", Float (1 # 2)); (u "to-taste", Int 0) ].
Proof.
  rewrite normalize_unit_eq.
  pose proof (first_unit_live UNIT_MAPPING [] (strip_dots (lower unit_str))
                (fun k (H : In k []) => match H with end)) as H.
  remember (first_unit UNIT_MAPPING (strip_dots (lower unit_str))) as r eqn:Hr.
  clear Hr.
  vm_compute in H. vm_compute.
  repeat (destruct H as [H | H]; [subst r; auto 10 | ]).
  destruct H.
Qed.

(** C10: unit normalization never returns the codes "mg" or "ml".  Every
    token that contains the key for milligrams also contains the earlier
    key for grams, and every token that contains a key for milliliters also
    contains the earlier key for liters, so the first match is never one of
    the two; the tokens that spell the keys themselves come out as grams
    and liters. *)
Theorem normalize_unit_never_mg_ml (unit_str token : pystr) :
  fst (_normalize_unit unit_str) <> u "mg" /\
  fst (_normalize_unit unit_str) <> u "ml" /\
  implb (contains (u "мг") token) (contains (u "г") token) = true /\
  implb (contains (u "мл") token) (contains (u "л") token) = true /\
  implb (contains (u "миллилитр") token) (contains (u "л") token) = true /\
  _normalize_unit (u "мг") = (u "g", Int 1) /\
  _normalize_unit (u "мл") = (u "l", Int 1000) /\
  _normalize_unit (u "миллилитр") = (u "l", Int 1000).
Proof.
  assert (Hne : forall code, existsb (str_eqb code)
                   (map fst [ (u "pcs", Int 1); (u "kg", Int 1000);
                              (u "g", Int 1); (u "l", Int 1000);
                              (u "cup", Int 240); (u "pinch", Float (1 # 2));
                              (u "to-taste", Int 0) ]) = false ->
                 fst (_normalize_unit unit_str) <> code).
  { intros code Hcode E.
    assert (Hin : In code (map fst
                   [ (u "pcs", Int 1); (u "kg", Int 1000); (u "g", Int 1);
                     (u "l", Int 1000); (u "cup", Int 240);
                     (u "pinch", Float (1 # 2)); (u "to-taste", Int 0) ])).
    { rewrite <- E. apply in_map. apply normalize_unit_cases. }
    assert (Ht : existsb (str_eqb code)
                   (map fst [ (u "pcs", Int 1); (u "kg", Int 1000);
                              (u "g", Int 1); (u "l", Int 1000);
                              (u "cup", Int 240); (u "pinch", Float (1 # 2));
                              (u "to-taste", Int 0) ]) = true).
    { apply existsb_exists. exists code. split; [exact Hin | apply str_eqb_refl]. }
    rewrite Ht in Hcode. discriminate. }
  assert (Hsub : forall a b, contains a b = true ->
                   implb (contains b token) (contains a token) = true).
  { intros a b Hab. destruct (contains b token) eqn:Hb; [ | reflexivity].
    simpl. exact (contains_trans _ _ _ Hab Hb). }
  split; [apply Hne; by_eval | ].
  split; [apply Hne; by_eval | ].
  split; [apply Hsub; by_eval | ].
  split; [apply Hsub; by_eval | ].
  split; [apply Hsub; by_eval | ].
  repeat split; by_eval.
Qed.

(** [_parse_ingredient_line] on every line: the record of a matched line
    carries the code and the multiplier of the first table entry found in
    its unit token, the record of an unmatched line is the default one. *)
Lemma parse_ingredient_line_cases (line : pystr) :
  match re_match ingredient_pattern line with
  | Some m =>
      let found := _normalize_unit (group_or 2 m (u "шт")) in
      let number :=
        Float (float_of_decimal
                 (replace_cp (ch ",") (ch ".") (group_text 1 m))) in
      let name := strip (group_text 3 m) in
      _parse_ingredient_line line =
        Some (MkIngredient name line
                (if negb (num_eqb (snd found) (Int 1))
                 then num_mul number (snd found) else number)
                (fst found) (_detect_allergens name) [])
  | None =>
      _parse_ingredient_line line =
        Some (MkIngredient (strip line) line (Int 0) (u "to-taste")
                (_detect_allergens (strip line)) [])
  end.
Proof.
  unfold _parse_ingredient_line.
  destruct (re_match ingredient_pattern line) as [m | ]; [ | reflexivity].
  cbv zeta. destruct (_normalize_unit (group_or 2 m (u "шт"))) as [unit mult].
  reflexivity.
Qed.

(** C1, as the code behaves: the quantity of a matched line is the number
    times the multiplier, but the unit stored with it is the code of the
    matched table entry, not the base unit: a line in kilograms keeps "kg"
    next to the value in grams, a line in liters keeps "l".  The codes and
    multipliers [_normalize_unit] can return are listed; a multiplier other
    than 1 never comes with the code "g" or "ml". *)
Theorem parse_ingredient_keeps_source_unit (line unit_str : pystr) :
  _parse_ingredient_line (u "2 кг сахара") =
    Some (MkIngredient (u "сахара") (u "2 кг сахара") (Float 2000) (u "kg")
                       [] []) /\
  _parse_ingredient_line (u "1 л воды") =
    Some (MkIngredient (u "воды") (u "1 л воды") (Float 1000) (u "l") [] []) /\
  u "kg" <> u "g" /\ u "l" <> u "ml" /\
  In (_normalize_unit unit_str)
     [ (u "pcs", Int 1); (u "kg", Int 1000); (u "g", Int 1); (u "l", Int 1000);
       (u "cup", Int 240); (u "pinch", Float (1 # 2)); (u "to-taste", Int 0) ] /\
  match re_match ingredient_pattern line with
  | Some m =>
      let found := _normalize_unit (group_or 2 m (u "шт")) in
      let number :=
        Float (float_of_decimal
                 (replace_cp (ch ",") (ch ".") (group_text 1 m))) in
      let name := strip (group_text 3 m) in
      _parse_ingredient_line line =
        Some (MkIngredient name line
                (if negb (num_eqb (snd found) (Int 1))
                 then num_mul number (snd found) else number)
                (fst found) (_detect_allergens name) [])
  | None =>
      _parse_ingredient_line line =
        Some (MkIngredient (strip line) line (Int 0) (u "to-taste")
                (_detect_allergens (strip line)) [])
  end.
Proof.
  split; [by_eval | ].
  split; [by_eval | ].
  split; [vm_compute; discriminate | ].
  split; [vm_compute; discriminate | ].
  split; [apply normalize_unit_cases | apply parse_ingredient_line_cases].
Qed.

(* ================================================================== *)
(** ** Time extraction *)
(* ================================================================== *)

(** Wherever the range pattern matches, the minutes pattern matches too
    (from the second number on), so the minutes pattern, tried first, is
    never passed over in favour of the range pattern. *)
Lemma range_pattern_is_shadowed (s : pystr) :
  re_search (snd (nth 0 time_patterns ([], Lit []))) s = None ->
  re_search (snd (nth 2 time_patterns ([], Lit []))) s = None.
Proof.
  intros Hmin.
  destruct (re_search (snd (nth 2 time_patterns ([], Lit []))) s) as [m|] eqn:Hr;
    [ | reflexivity].
  exfalso. apply re_search_sound in Hr.
  destruct Hr as [pre [suf [s' [-> Hd]]]].
  cbn [nth time_patterns snd den Plus] in Hd.
  destruct Hd as [m1 [[m0 [[c1 [-> Hc1]] [a1 [-> Ha1]]]] Hd]].
  destruct Hd as [m2 [-> Hd]].
  destruct Hd as [m3 [[m4 [[c2 [-> Hc2]] [a2 [-> Ha2]]]] Hd]].
  destruct Hd as [m5 [[a3 [-> Ha3]] ->]].
  revert Hmin.
  replace (pre ++ c1 :: a1 ++ u "-" ++ c2 :: a2 ++ a3 ++ u "мин" ++ s')
    with ((pre ++ c1 :: a1 ++ u "-") ++ (c2 :: a2 ++ a3 ++ u "мин" ++ s')).
  - apply (re_search_complete _ _ (c2 :: a2 ++ a3 ++ u "мин" ++ s') s').
    cbn [nth time_patterns snd den Plus].
    exists (a3 ++ u "мин" ++ s'). split.
    + exists (a2 ++ a3 ++ u "мин" ++ s'). split.
      * exists c2. auto.
      * exists a2. auto.
    + exists (u "мин" ++ s'). split; [exists a3; auto | reflexivity].
  - rewrite <- !app_assoc. cbn [app]. rewrite <- !app_assoc. reflexivity.
Qed.

(** C2, as the code behaves: the minutes pattern is tried first and matches
    the second number of a range, so "20-30 минут" yields 30, not 25, and
    the range branch is never taken: on every text the result is the one of
    the first two patterns alone.  An hours match is multiplied by 60. *)
Theorem extract_time_never_averages_a_range (text : pystr) :
  _extract_time (u "Запекать 20-30 минут") = Some (Some 30%Z) /\
  _extract_time (u "Жарить 2-3 минуты") = Some (Some 3%Z) /\
  _extract_time (u "Варить 1 час") = Some (Some 60%Z) /\
  _extract_time text = extract_time_loop (firstn 2 time_patterns) text.
Proof.
  split; [by_eval | ].
  split; [by_eval | ].
  split; [by_eval | ].
  unfold _extract_time.
  pose proof (range_pattern_is_shadowed (lower text)) as Hsh.
  cbn [nth time_patterns snd] in Hsh.
  cbn [time_patterns firstn extract_time_loop] in *.
  destruct (re_search (Grp 1 (Plus is_digit) &> Star is_space &> Lit (u "мин"))
              (lower text)) as [m1|]; [reflexivity | ].
  destruct (re_search (Grp 1 (Plus is_digit) &> Star is_space &> Lit (u "час"))
              (lower text)) as [m2|]; [reflexivity | ].
  rewrite (Hsh eq_refl). reflexivity.
Qed.

Local Open Scope N_scope.

(* ================================================================== *)
(** ** Stripping *)
(* ================================================================== *)

Lemma lstrip_suffix (p : cp -> bool) (s : pystr) :
  exists w, s = w ++ lstrip_by p s.
Proof.
  induction s as [|c s [w IH]]; [exists []; reflexivity | ].
  cbn [lstrip_by]. destruct (p c).
  - exists (c :: w). cbn [app]. f_equal. exact IH.
  - exists []. reflexivity.
Qed.

Lemma lstrip_starts_without (p : cp -> bool) (s : pystr) :
  starts_without p (lstrip_by p s) = true.
Proof.
  induction s as [|c s IH]; [reflexivity | ].
  cbn [lstrip_by]. destruct (p c) eqn:Hc; [exact IH | ].
  cbn [starts_without]. rewrite Hc. reflexivity.
Qed.

Lemma lstrip_fixed (p : cp -> bool) (s : pystr) :
  starts_without p s = true -> lstrip_by p s = s.
Proof.
  destruct s as [|c s]; [reflexivity | ].
  cbn [starts_without lstrip_by]. intros H. apply negb_true_iff in H.
  rewrite H. reflexivity.
Qed.

Lemma rstrip_prefix (p : cp -> bool) (s : pystr) :
  exists w, s = rstrip_by p s ++ w.
Proof.
  unfold rstrip_by. destruct (lstrip_suffix p (List.rev s)) as [w E].
  exists (List.rev w). apply (f_equal (@List.rev cp)) in E.
  rewrite rev_involutive, rev_app_distr in E. exact E.
Qed.

Lemma strip_by_middle (p : cp -> bool) (s : pystr) :
  exists a b, s = a ++ strip_by p s ++ b.
Proof.
  unfold strip_by. destruct (lstrip_suffix p s) as [a Ea].
  destruct (rstrip_prefix p (lstrip_by p s)) as [b Eb].
  exists a, b. rewrite <- Eb. exact Ea.
Qed.

Lemma strip_by_idempotent (p : cp -> bool) (s : pystr) :
  strip_by p (strip_by p s) = strip_by p s.
Proof.
  unfold strip_by.
  assert (H : starts_without p (rstrip_by p (lstrip_by p s)) = true).
  { pose proof (lstrip_starts_without p s) as Hs.
    destruct (rstrip_prefix p (lstrip_by p s)) as [w E].
    destruct (rstrip_by p (lstrip_by p s)) as [|c t]; [reflexivity | ].
    rewrite E in Hs. exact Hs. }
  rewrite (lstrip_fixed _ _ H).
  unfold rstrip_by at 1 2. rewrite rev_involutive.
  rewrite (lstrip_fixed p (lstrip_by p (List.rev (lstrip_by p s))))
    by apply lstrip_starts_without.
  reflexivity.
Qed.

Lemma consumed_app (a b : pystr) : consumed (a ++ b) b = a.
Proof.
  unfold consumed. rewrite length_app.
  replace (length a + length b - length b)%nat with (length a) by lia.
  rewrite firstn_app, firstn_all, Nat.sub_diag. cbn [firstn].
  apply app_nil_r.
Qed.

(* ================================================================== *)
(** ** Runs of digits and the limit of [int] *)
(* ================================================================== *)

Lemma runs_within_less (n : nat) (s : pystr) :
  forall r r', (r <= r')%nat ->
    runs_within n r' s = true -> runs_within n r s = true.
Proof.
  induction s as [|c s IH]; intros r r' Hle H; [reflexivity | ].
  cbn [runs_within] in *. destruct (is_digit c); [ | exact H].
  andb_split H H1 H2. apply Nat.leb_le in H1.
  apply andb_true_iff. split.
  - apply Nat.leb_le. lia.
  - apply (IH (S r) (S r')); [lia | exact H2].
Qed.

Lemma runs_within_prefix (n : nat) (s y : pystr) :
  forall r, runs_within n r (s ++ y) = true -> runs_within n r s = true.
Proof.
  induction s as [|c s IH]; intros r H; [reflexivity | ].
  cbn [app runs_within] in *. destruct (is_digit c).
  - andb_split H H1 H2. rewrite H1. apply (IH _ H2).
  - apply (IH _ H).
Qed.

Lemma runs_within_suffix (n : nat) (x s : pystr) :
  forall r, runs_within n r (x ++ s) = true -> runs_within n 0 s = true.
Proof.
  induction x as [|c x IH]; intros r H.
  - apply (@runs_within_less n s 0 r); [lia | exact H].
  - cbn [app runs_within] in H. destruct (is_digit c).
    + andb_split H H1 H2. apply (IH _ H2).
    + apply (IH _ H).
Qed.

Lemma digit_runs_within_inside (n : nat) (x s y : pystr) :
  digit_runs_within n (x ++ s ++ y) = true -> digit_runs_within n s = true.
Proof.
  unfold digit_runs_within. intros H.
  apply runs_within_suffix in H. apply runs_within_prefix in H. exact H.
Qed.

Lemma runs_within_run (n : nat) (d y : pystr) :
  forall r, d <> [] -> forallb is_digit d = true ->
    runs_within n r (d ++ y) = true -> (r + length d <= n)%nat.
Proof.
  induction d as [|c d IH]; intros r Hne Hd H; [contradiction | ].
  cbn [forallb] in Hd. andb_split Hd Hc Hd.
  cbn [app runs_within] in H. rewrite Hc in H. andb_split H H1 H2.
  apply Nat.leb_le in H1. cbn [length].
  destruct d as [|c' d']; [cbn [length]; lia | ].
  specialize (IH (S r)). cbn [length] in *.
  assert (S r + S (length d') <= n)%nat
    by (apply IH; [discriminate | exact Hd | exact H2]).
  lia.
Qed.

(** Under the bound, a run of digits inside the string is short. *)
Lemma digits_inside_length (n : nat) (s t : pystr) :
  digit_runs_within n s = true -> digits_inside s t -> (length t <= n)%nat.
Proof.
  intros H [Hd [a [b E]]]. subst s. unfold digit_runs_within in H.
  apply runs_within_suffix in H.
  destruct t as [|c t]; [cbn [length]; lia | ].
  apply (@runs_within_run n (c :: t) b 0); [discriminate | exact Hd | exact H].
Qed.

Lemma digits_inside_weaken (x s y t : pystr) :
  digits_inside s t -> digits_inside (x ++ s ++ y) t.
Proof.
  intros [Hd [a [b E]]]. split; [exact Hd | ].
  exists (x ++ a), (b ++ y). subst s. rewrite <- !app_assoc. reflexivity.
Qed.

(** Lower-casing neither makes nor breaks a run of digits. *)
Lemma lower_cp_digit (c : cp) : is_digit c = true -> lower_cp c = [c].
Proof.
  intros H. unfold is_digit in H. apply existsb_exists in H.
  destruct H as [b [Hb Hc]].
  assert (Hall : forallb (fun b => (b =? 48) || (1632 <=? b) && negb ((8481 <=? b) && (b <=? 8490)))
                   digit_blocks = true) by (vm_compute; reflexivity).
  rewrite forallb_forall in Hall. specialize (Hall b Hb).
  unfold in_block in Hc. andb_split Hc H1 H2.
  apply N.leb_le in H1, H2. unfold lower_cp.
  assert (R : c <= 57 \/ (1632 <= c /\ c <> 8490)).
  { apply orb_true_iff in Hall. destruct Hall as [E | E].
    - apply N.eqb_eq in E. lia.
    - andb_split E E1 E2. apply N.leb_le in E1.
      apply negb_true_iff, andb_false_iff in E2.
      right. split; [lia | ].
      destruct E2 as [E2 | E2]; apply N.leb_gt in E2; lia. }
  destruct ((65 <=? c) && (c <=? 90)) eqn:E1.
  { andb_split E1 A B. apply N.leb_le in A, B. lia. }
  destruct (c =? 304) eqn:E2; [apply N.eqb_eq in E2; lia | ].
  destruct ((1024 <=? c) && (c <=? 1039)) eqn:E3.
  { andb_split E3 A B. apply N.leb_le in A, B. lia. }
  destruct ((1040 <=? c) && (c <=? 1071)) eqn:E4.
  { andb_split E4 A B. apply N.leb_le in A, B. lia. }
  destruct (c =? 8490) eqn:E5; [apply N.eqb_eq in E5; lia | reflexivity].
Qed.

Lemma lower_cp_not_digit (c : cp) :
  is_digit c = false ->
  lower_cp c <> [] /\ forallb (fun x => negb (is_digit x)) (lower_cp c) = true.
Proof.
  intros H. unfold lower_cp.
  destruct ((65 <=? c) && (c <=? 90)) eqn:E1.
  { andb_split E1 A B. apply N.leb_le in A, B. split; [discriminate | ].
    cbn [forallb]. rewrite andb_true_r. apply negb_true_iff.
    destruct (is_digit (c + 32)) eqn:Hd; [ | reflexivity].
    unfold is_digit in Hd. apply existsb_exists in Hd.
    destruct Hd as [b [Hb Hc]].
    assert (Hall : forallb (fun b => (b =? 48) || (1632 <=? b)) digit_blocks
                   = true) by (vm_compute; reflexivity).
    rewrite forallb_forall in Hall. specialize (Hall b Hb).
    unfold in_block in Hc. andb_split Hc H1 H2. apply N.leb_le in H1, H2.
    apply orb_true_iff in Hall.
    destruct Hall as [E | E]; [apply N.eqb_eq in E | apply N.leb_le in E]; lia. }
  destruct (c =? 304) eqn:E2.
  { split; [discriminate | vm_compute; reflexivity]. }
  destruct ((1024 <=? c) && (c <=? 1039)) eqn:E3.
  { andb_split E3 A B. apply N.leb_le in A, B. split; [discriminate | ].
    cbn [forallb]. rewrite andb_true_r. apply negb_true_iff.
    destruct (is_digit (c + 80)) eqn:Hd; [ | reflexivity].
    unfold is_digit in Hd. apply existsb_exists in Hd.
    destruct Hd as [b [Hb Hc]].
    assert (Hall : forallb (fun b => (b <=? 48) || (1632 <=? b)) digit_blocks
                   = true) by (vm_compute; reflexivity).
    rewrite forallb_forall in Hall. specialize (Hall b Hb).
    unfold in_block in Hc. andb_split Hc H1 H2. apply N.leb_le in H1, H2.
    apply orb_true_iff in Hall.
    destruct Hall as [E | E]; apply N.leb_le in E; lia. }
  destruct ((1040 <=? c) && (c <=? 1071)) eqn:E4.
  { andb_split E4 A B. apply N.leb_le in A, B. split; [discriminate | ].
    cbn [forallb]. rewrite andb_true_r. apply negb_true_iff.
    destruct (is_digit (c + 32)) eqn:Hd; [ | reflexivity].
    unfold is_digit in Hd. apply existsb_exists in Hd.
    destruct Hd as [b [Hb Hc]].
    assert (Hall : forallb (fun b => (b <=? 48) || (1632 <=? b)) digit_blocks
                   = true) by (vm_compute; reflexivity).
    rewrite forallb_forall in Hall. specialize (Hall b Hb).
    unfold in_block in Hc. andb_split Hc H1 H2. apply N.leb_le in H1, H2.
    apply orb_true_iff in Hall.
    destruct Hall as [E | E]; apply N.leb_le in E; lia. }
  destruct (c =? 8490) eqn:E5.
  { split; [discriminate | vm_compute; reflexivity]. }
  split; [discriminate | ]. cbn [forallb]. rewrite H. reflexivity.
Qed.

Lemma runs_within_reset (n : nat) (w s : pystr) :
  w <> [] -> forallb (fun x => negb (is_digit x)) w = true ->
  forall r, runs_within n r (w ++ s) = runs_within n 0 s.
Proof.
  induction w as [|c w IH]; intros Hne Hw r; [contradiction | ].
  cbn [forallb] in Hw. andb_split Hw Hc Hw. apply negb_true_iff in Hc.
  cbn [app runs_within]. rewrite Hc.
  destruct w as [|c' w']; [reflexivity | ].
  apply IH; [discriminate | exact Hw].
Qed.

Lemma runs_within_lower (n : nat) (s : pystr) :
  forall r, runs_within n r (lower s) = runs_within n r s.
Proof.
  induction s as [|c s IH]; intros r; [reflexivity | ].
  unfold lower in *. cbn [flat_map].
  destruct (is_digit c) eqn:Hc.
  - rewrite (lower_cp_digit c Hc). cbn [app runs_within]. rewrite Hc, IH.
    reflexivity.
  - destruct (lower_cp_not_digit c Hc) as [Hne Hnd].
    rewrite (runs_within_reset n (flat_map lower_cp s) Hne Hnd).
    cbn [runs_within]. rewrite Hc. apply IH.
Qed.

Lemma digit_runs_within_lower (n : nat) (s : pystr) :
  digit_runs_within n (lower s) = digit_runs_within n s.
Proof. apply runs_within_lower. Qed.

(* ================================================================== *)
(** ** What the groups of a pattern capture *)
(* ================================================================== *)

Lemma den_suffix (r : regex) :
  forall s s', den r s s' -> exists a, s = a ++ s'.
Proof.
  induction r as [p | l | p | r1 IH1 | r1 IH1 r2 IH2 | i r1 IH1];
    intros s s' H; cbn [den] in H.
  - destruct H as [c [-> _]]. exists [c]. reflexivity.
  - exists l. exact H.
  - destruct H as [a [-> _]]. exists a. reflexivity.
  - destruct H as [H | ->]; [apply (IH1 _ _ H) | exists []; reflexivity].
  - destruct H as [m [H1 H2]].
    destruct (IH1 _ _ H1) as [a ->]. destruct (IH2 _ _ H2) as [b ->].
    exists (a ++ b). rewrite app_assoc. reflexivity.
  - apply (IH1 _ _ H).
Qed.

Lemma den_plus_digits (s s' : pystr) :
  den (Plus is_digit) s s' ->
  exists d, s = d ++ s' /\ d <> [] /\ forallb is_digit d = true.
Proof.
  unfold Plus. cbn [den]. intros [m [[c [-> Hc]] [a [-> Ha]]]].
  exists (c :: a). split; [reflexivity | ]. split; [discriminate | ].
  cbn [forallb]. rewrite Hc, Ha. reflexivity.
Qed.

(** A match of a pattern whose groups are all [(\d+)] captures runs of
    digits of the string it is searched in ([s0], of which [s] is what is
    still to be read). *)
Lemma rmatch_digit_caps {A} (s0 : pystr) (r : regex) :
  digit_groups r ->
  forall (s : pystr) (cs : caps) (k : pystr -> caps -> option A) (x : A),
    (exists pre, s0 = pre ++ s) ->
    Forall (fun c => digits_inside s0 (snd c)) cs ->
    rmatch r s cs k = Some x ->
    exists s' cs',
      den r s s' /\
      Forall (fun c => digits_inside s0 (snd c)) cs' /\
      k s' cs' = Some x.
Proof.
  induction r as [p | l | p | r1 IH1 | r1 IH1 r2 IH2 | i r1 IH1];
    intros Hg s cs k x Hs Hcs H; cbn [rmatch] in H; cbn [den].
  - destruct s as [|c s]; [discriminate | ].
    destruct (p c) eqn:Hc; [ | discriminate].
    exists s, cs. split; [exists c; auto | auto].
  - destruct (drop_prefix l s) as [s'|] eqn:Hp; [ | discriminate].
    exists s', cs. split; [apply drop_prefix_some, Hp | auto].
  - apply star_sound in H. destruct H as [a [s' [-> [Ha Hk]]]].
    exists s', cs. split; [exists a; auto | auto].
  - cbn [digit_groups] in Hg.
    destruct (rmatch r1 s cs k) as [y|] eqn:H1.
    + inversion H; subst y.
      destruct (IH1 Hg _ _ _ _ Hs Hcs H1) as [s' [cs' [Hd [Hc Hk]]]].
      exists s', cs'. auto.
    + exists s, cs. auto.
  - cbn [digit_groups] in Hg. destruct Hg as [Hg1 Hg2].
    destruct (IH1 Hg1 _ _ _ _ Hs Hcs H) as [m [cs1 [Hd1 [Hc1 H2]]]].
    assert (Hm : exists pre, s0 = pre ++ m).
    { destruct Hs as [pre ->]. destruct (den_suffix _ _ _ Hd1) as [a ->].
      exists (pre ++ a). rewrite app_assoc. reflexivity. }
    destruct (IH2 Hg2 _ _ _ _ Hm Hc1 H2) as [s' [cs2 [Hd2 [Hc2 Hk]]]].
    exists s', cs2. split; [exists m; auto | auto].
  - cbn [digit_groups] in Hg. subst r1.
    destruct (IH1 (conj I I) _ _ _ _ Hs Hcs H) as [s' [cs' [Hd [Hc Hk]]]].
    exists s', ((i, consumed s s') :: cs').
    split; [exact Hd | ]. split; [ | exact Hk].
    constructor; [ | exact Hc]. cbn [snd].
    destruct (@den_plus_digits s s' Hd) as [d [-> [_ Hdig]]].
    rewrite consumed_app. split; [exact Hdig | ].
    destruct Hs as [pre ->]. exists pre, s'. reflexivity.
Qed.

Lemma re_match_digit_caps (r : regex) (s : pystr) (m : match_obj) :
  digit_groups r -> re_match r s = Some m ->
  Forall (fun c => digits_inside s (snd c)) (m_caps m).
Proof.
  unfold re_match. intros Hg H.
  apply (@rmatch_digit_caps _ s r Hg) in H;
    [ | exists []; reflexivity | constructor].
  destruct H as [s' [cs' [_ [Hc Hk]]]]. inversion Hk; subst m. exact Hc.
Qed.

Lemma re_search_digit_caps (r : regex) (s : pystr) (m : match_obj) :
  digit_groups r -> re_search r s = Some m ->
  Forall (fun c => digits_inside s (snd c)) (m_caps m).
Proof.
  intros Hg. induction s as [|c s IH]; cbn [re_search]; intros H.
  - destruct (re_match r []) as [m'|] eqn:Hm; [ | discriminate].
    inversion H; subst m'. apply (@re_match_digit_caps r _ _ Hg Hm).
  - destruct (re_match r (c :: s)) as [m'|] eqn:Hm.
    + inversion H; subst m'. apply (@re_match_digit_caps r _ _ Hg Hm).
    + specialize (IH H). eapply Forall_impl; [ | exact IH].
      intros cap Hcap. apply (@digits_inside_weaken [c] s [] (snd cap)) in Hcap.
      rewrite app_nil_r in Hcap. exact Hcap.
Qed.

Lemma group_text_inside (s : pystr) (m : match_obj) (i : nat) :
  Forall (fun c => digits_inside s (snd c)) (m_caps m) ->
  digits_inside s (group_text i m).
Proof.
  unfold group_text. destruct m as [cs rest]. cbn [m_caps].
  intros H. induction H as [|[j t] cs Ht _ IH].
  - cbn [group]. split; [reflexivity | exists [], s; reflexivity].
  - cbn [group]. destruct (Nat.eqb i j); [exact Ht | exact IH].
Qed.

(** [int] does not raise on a group of such a match when the runs of
    digits of the string are within its limit. *)
Lemma int_of_group (r : regex) (s : pystr) (m : match_obj) (i : nat) :
  digit_groups r -> digit_runs_within int_max_str_digits s = true ->
  re_search r s = Some m ->
  int_of_digits (group_text i m) = Some (digits_value (group_text i m)).
Proof.
  intros Hg Hr Hm. unfold int_of_digits.
  pose proof (@digits_inside_length _ s (group_text i m) Hr
                (@group_text_inside s m i
                   (@re_search_digit_caps r s m Hg Hm))) as Hl.
  destruct (Nat.ltb_spec int_max_str_digits (length (group_text i m)));
    [lia | reflexivity].
Qed.

Lemma int_of_digits_short (s : pystr) :
  (length s <= int_max_str_digits)%nat ->
  int_of_digits s = Some (digits_value s).
Proof.
  intros H. unfold int_of_digits.
  destruct (Nat.ltb_spec int_max_str_digits (length s)); [lia | reflexivity].
Qed.

Lemma int_of_digits_some (s : pystr) (z : Z) :
  int_of_digits s = Some z ->
  z = digits_value s /\ (length s <= int_max_str_digits)%nat.
Proof.
  unfold int_of_digits.
  destruct (Nat.ltb_spec int_max_str_digits (length s)); [discriminate | ].
  intros E. inversion E. split; [reflexivity | assumption].
Qed.

Lemma int_of_digits_none (s : pystr) :
  int_of_digits s = None <-> (int_max_str_digits < length s)%nat.
Proof.
  unfold int_of_digits.
  destruct (Nat.ltb_spec int_max_str_digits (length s)).
  - tauto.
  - split; [discriminate | lia].
Qed.

(* ================================================================== *)
(** ** Time and temperature of a step line *)
(* ================================================================== *)

Lemma time_patterns_digit_groups :
  Forall (fun p => digit_groups (snd p)) time_patterns /\
  Forall (fun p => digit_groups (snd p)) temperature_patterns /\
  digit_groups hours_pattern /\ digit_groups minutes_pattern /\
  digit_groups digits_pattern.
Proof.
  unfold time_patterns, temperature_patterns, hours_pattern, minutes_pattern,
    digits_pattern.
  repeat split; repeat constructor.
Qed.

Lemma extract_time_loop_returns (patterns : list pattern) (text : pystr) :
  Forall (fun p => digit_groups (snd p)) patterns ->
  digit_runs_within int_max_str_digits text = true ->
  exists r, extract_time_loop patterns text = Some r.
Proof.
  intros Hg Hr. rewrite <- digit_runs_within_lower in Hr.
  induction Hg as [|[src rx] rest Hrx _ IH].
  - exists None. reflexivity.
  - cbn [extract_time_loop]. cbn [snd] in Hrx.
    destruct (re_search rx (lower text)) as [m|] eqn:Hm; [ | exact IH].
    rewrite !(@int_of_group rx (lower text) m _ Hrx Hr Hm). cbn [bind].
    destruct (contains (u "час") src); [eexists; reflexivity | ].
    destruct (lastindex m) as [[|[|[|j]]]|]; eexists; reflexivity.
Qed.

Lemma extract_temperature_loop_returns (patterns : list pattern)
  (text : pystr) :
  Forall (fun p => digit_groups (snd p)) patterns ->
  digit_runs_within int_max_str_digits text = true ->
  exists r, extract_temperature_loop patterns text = Some r.
Proof.
  intros Hg Hr.
  induction Hg as [|[src rx] rest Hrx _ IH].
  - exists None. reflexivity.
  - cbn [extract_temperature_loop]. cbn [snd] in Hrx.
    destruct (re_search rx text) as [m|] eqn:Hm; [ | exact IH].
    rewrite (@int_of_group rx text m 1 Hrx Hr Hm). eexists; reflexivity.
Qed.

Lemma parse_step_line_returns (line : pystr) :
  digit_runs_within int_max_str_digits line = true ->
  exists time temp,
    _extract_time line = Some time /\
    _extract_temperature line = Some temp /\
    _parse_step_line line =
      Some (Some (MkStep line (_detect_action line) time temp)).
Proof.
  intros Hr.
  destruct time_patterns_digit_groups as [Ht [Hc _]].
  destruct (@extract_time_loop_returns _ line Ht Hr) as [time Htime].
  destruct (@extract_temperature_loop_returns _ line Hc Hr) as [temp Htemp].
  exists time, temp. unfold _parse_step_line, _extract_time,
    _extract_temperature. rewrite Htime, Htemp. auto.
Qed.

(** A step line is parsed into a record or raises; it is never dropped. *)
Lemma parse_step_line_cases (line : pystr) :
  _parse_step_line line = None \/
  exists time temp,
    _extract_time line = Some time /\
    _extract_temperature line = Some temp /\
    _parse_step_line line =
      Some (Some (MkStep line (_detect_action line) time temp)).
Proof.
  unfold _parse_step_line.
  destruct (_extract_time line) as [time|]; [ | left; reflexivity].
  destruct (_extract_temperature line) as [temp|]; [ | left; reflexivity].
  right. exists time, temp. auto.
Qed.

(* ================================================================== *)
(** ** The line loops of the two parsers *)
(* ================================================================== *)

Lemma parse_ingredient_line_some (line : pystr) :
  exists ing, _parse_ingredient_line line = Some ing.
Proof.
  unfold _parse_ingredient_line.
  destruct (re_match ingredient_pattern line) as [m | ].
  - destruct (_normalize_unit (group_or 2 m (u "шт"))) as [unit multiplier].
    eexists; reflexivity.
  - eexists; reflexivity.
Qed.

Lemma parse_ingredients_loop_spec (lines : list pystr) :
  forall acc,
    map Some (parse_ingredients_loop lines acc) =
    map Some acc ++
    map (fun l => _parse_ingredient_line (re_sub_start bullet_pattern l))
        (filter (fun line =>
                   negb (startswith_any ingredient_headings (lower line)))
                lines).
Proof.
  induction lines as [|line rest IH]; intros acc.
  - simpl. rewrite app_nil_r. reflexivity.
  - cbn [parse_ingredients_loop filter].
    destruct (startswith_any ingredient_headings (lower line)).
    + cbn [negb]. apply IH.
    + cbn [negb map].
      destruct (parse_ingredient_line_some (re_sub_start bullet_pattern line))
        as [ing Hing].
      rewrite Hing, IH, map_app. cbn [map].
      rewrite <- app_assoc. reflexivity.
Qed.

Lemma parse_steps_loop_cons (line : pystr) (rest : list pystr)
  (acc : list ParsedStep) :
  parse_steps_loop (line :: rest) acc =
    if startswith_any step_headings (lower line)
    then parse_steps_loop rest acc
    else
      step <- _parse_step_line
                (re_sub_start bullet_pattern
                   (re_sub_start numbering_pattern line)) ;;
      match step with
      | Some step => parse_steps_loop rest (acc ++ [step])
      | None => parse_steps_loop rest acc
      end.
Proof. reflexivity. Qed.

(** The records of the step loop, when it returns: one for each line that
    is not a heading, in order. *)
Lemma parse_steps_loop_spec (lines : list pystr) :
  forall acc steps,
    parse_steps_loop lines acc = Some steps ->
    map (fun step => Some (Some step)) steps =
    map (fun step => Some (Some step)) acc ++
    map (fun l => _parse_step_line
                    (re_sub_start bullet_pattern
                       (re_sub_start numbering_pattern l)))
        (filter (fun line => negb (startswith_any step_headings (lower line)))
                lines).
Proof.
  induction lines as [|line rest IH]; intros acc steps H.
  - cbn [parse_steps_loop] in H. inversion H. cbn [filter map].
    rewrite app_nil_r. reflexivity.
  - rewrite parse_steps_loop_cons in H. cbn [filter].
    destruct (startswith_any step_headings (lower line)).
    + cbn [negb]. exact (IH _ _ H).
    + cbn [negb map].
      destruct (parse_step_line_cases
                  (re_sub_start bullet_pattern
                     (re_sub_start numbering_pattern line)))
        as [Hn | [time [temp [_ [_ Hs]]]]].
      * rewrite Hn in H. discriminate H.
      * rewrite Hs in H. rewrite Hs. cbn [bind] in H.
        rewrite (IH _ _ H), map_app. cbn [map].
        rewrite <- app_assoc. reflexivity.
Qed.

(** The step loop raises exactly when one of its lines does. *)
Lemma parse_steps_loop_raises (lines : list pystr) :
  forall acc,
    parse_steps_loop lines acc = None <->
    exists l,
      In l (filter (fun line =>
                      negb (startswith_any step_headings (lower line)))
                   lines) /\
      _parse_step_line
        (re_sub_start bullet_pattern (re_sub_start numbering_pattern l)) =
      None.
Proof.
  induction lines as [|line rest IH]; intros acc.
  - cbn [parse_steps_loop filter]. split; [discriminate | ].
    intros [l [[] _]].
  - rewrite parse_steps_loop_cons. cbn [filter].
    destruct (startswith_any step_headings (lower line)).
    + cbn [negb]. apply IH.
    + cbn [negb].
      destruct (parse_step_line_cases
                  (re_sub_start bullet_pattern
                     (re_sub_start numbering_pattern line)))
        as [Hn | [time [temp [_ [_ Hs]]]]].
      * rewrite Hn. cbn [bind]. split; [intros _ | reflexivity].
        exists line. split; [left; reflexivity | exact Hn].
      * rewrite Hs. cbn [bind]. rewrite IH. split.
        -- intros [l [Hin Hl]]. exists l. split; [right; exact Hin | exact Hl].
        -- intros [l [[E | Hin] Hl]].
           ++ subst l. rewrite Hs in Hl. discriminate.
           ++ exists l. auto.
Qed.

Lemma parse_ingredients_lines (text : pystr) :
  map Some (parse_ingredients text) =
  map (fun l => _parse_ingredient_line (re_sub_start bullet_pattern l))
      (data_lines ingredient_headings text).
Proof. unfold parse_ingredients. rewrite parse_ingredients_loop_spec. reflexivity. Qed.

Lemma parse_steps_lines (text : pystr) (steps : list ParsedStep) :
  parse_steps text = Some steps ->
  map (fun step => Some (Some step)) steps =
  map (fun l => _parse_step_line
                  (re_sub_start bullet_pattern
                     (re_sub_start numbering_pattern l)))
      (data_lines step_headings text).
Proof.
  unfold parse_steps. intros H. apply parse_steps_loop_spec in H. exact H.
Qed.

Lemma parse_steps_raises (text : pystr) :
  parse_steps text = None <->
  exists l,
    In l (data_lines step_headings text) /\
    _parse_step_line
      (re_sub_start bullet_pattern (re_sub_start numbering_pattern l)) = None.
Proof. unfold parse_steps. apply parse_steps_loop_raises. Qed.

Lemma parse_ingredients_length (text : pystr) :
  length (parse_ingredients text) =
  length (data_lines ingredient_headings text).
Proof.
  rewrite <- (length_map Some (parse_ingredients text)), parse_ingredients_lines.
  apply length_map.
Qed.

Lemma parse_steps_length (text : pystr) (steps : list ParsedStep) :
  parse_steps text = Some steps ->
  length steps = length (data_lines step_headings text).
Proof.
  intros H. apply parse_steps_lines in H.
  rewrite <- (length_map (fun step => Some (Some step)) steps), H.
  apply length_map.
Qed.

(** Every line of the loops lies inside the text, and so does what is left
    of it when its number and its bullet are removed. *)
Lemma split_shape (text : pystr) :
  exists l0 ls,
    split LF text = l0 :: ls /\
    (exists y, text = l0 ++ y) /\
    forall l, In l ls -> exists x y, text = x ++ l ++ y.
Proof.
  induction text as [|c text [l0 [ls [Hs [[y0 Hy0] Hin]]]]].
  - exists [], []. split; [reflexivity | ].
    split; [exists []; reflexivity | intros l []].
  - cbn [split]. rewrite Hs. destruct (cp_eqb c LF).
    + exists [], (l0 :: ls). split; [reflexivity | ].
      split; [exists (c :: text); reflexivity | ].
      intros l [<- | H].
      * exists [c], y0. cbn [app]. rewrite Hy0 at 1. reflexivity.
      * destruct (Hin l H) as [x [y E]]. exists (c :: x), y.
        cbn [app]. rewrite E at 1. reflexivity.
    + exists (c :: l0), ls. split; [reflexivity | ].
      split; [exists y0; cbn [app]; rewrite Hy0 at 1; reflexivity | ].
      intros l H. destruct (Hin l H) as [x [y E]]. exists (c :: x), y.
      cbn [app]. rewrite E at 1. reflexivity.
Qed.

Lemma split_line_inside (text l : pystr) :
  In l (split LF text) -> exists x y, text = x ++ l ++ y.
Proof.
  destruct (split_shape text) as [l0 [ls [Hs [[y0 Hy0] Hin]]]].
  rewrite Hs. intros [<- | H]; [exists [], y0; exact Hy0 | apply Hin, H].
Qed.

Lemma stripped_line_inside (text l : pystr) :
  In l (stripped_lines text) -> exists x y, text = x ++ l ++ y.
Proof.
  unfold stripped_lines. intros H. apply in_map_iff in H.
  destruct H as [raw [<- H]]. apply filter_In in H. destruct H as [H _].
  destruct (split_line_inside _ _ H) as [x [y E]].
  destruct (strip_by_middle is_space raw) as [a [b Er]].
  fold (strip raw) in Er. exists (x ++ a), (b ++ y).
  rewrite E, Er at 1. rewrite <- !app_assoc. reflexivity.
Qed.

Lemma re_sub_start_suffix (r : regex) (l : pystr) :
  exists a, l = a ++ re_sub_start r l.
Proof.
  unfold re_sub_start. destruct (re_match r l) as [m|] eqn:Hm.
  - unfold re_match in Hm. apply rmatch_sound in Hm.
    destruct Hm as [s' [cs' [Hd Hk]]]. inversion Hk. cbn [m_rest].
    apply (den_suffix _ _ _ Hd).
  - exists []. reflexivity.
Qed.

Lemma step_line_runs (n : nat) (text l : pystr) :
  digit_runs_within n text = true -> In l (stripped_lines text) ->
  digit_runs_within n
    (re_sub_start bullet_pattern (re_sub_start numbering_pattern l)) = true.
Proof.
  intros Hr Hin. destruct (stripped_line_inside _ _ Hin) as [x [y E]].
  destruct (re_sub_start_suffix numbering_pattern l) as [a Ea].
  destruct (re_sub_start_suffix bullet_pattern
              (re_sub_start numbering_pattern l)) as [b Eb].
  rewrite E, Ea, Eb in Hr.
  apply (@digit_runs_within_inside n (x ++ a ++ b) _ y).
  rewrite <- !app_assoc in *. exact Hr.
Qed.

Lemma parse_steps_loop_returns (lines : list pystr) :
  Forall (fun l =>
            digit_runs_within int_max_str_digits
              (re_sub_start bullet_pattern
                 (re_sub_start numbering_pattern l)) = true) lines ->
  forall acc, exists steps, parse_steps_loop lines acc = Some steps.
Proof.
  intros H. induction H as [|line rest Hl _ IH]; intros acc.
  - exists acc. reflexivity.
  - rewrite parse_steps_loop_cons.
    destruct (startswith_any step_headings (lower line)); [apply IH | ].
    destruct (parse_step_line_returns _ Hl) as [time [temp [_ [_ Hs]]]].
    rewrite Hs. cbn [bind]. apply IH.
Qed.

(** [parse_steps] returns when no run of digits of the text is beyond the
    limit of [int]. *)
Lemma parse_steps_returns (text : pystr) :
  digit_runs_within int_max_str_digits text = true ->
  exists steps, parse_steps text = Some steps.
Proof.
  intros Hr. unfold parse_steps. apply parse_steps_loop_returns.
  apply Forall_forall. intros l Hl. apply (@step_line_runs _ text l Hr Hl).
Qed.

Local Close Scope N_scope.

Lemma first_action_default (table : list (pystr * pystr)) (s : pystr) :
  forallb (fun entry => negb (contains (fst entry) s)) table = true ->
  first_action table s = u "prepare".
Proof.
  induction table as [|[keyword action] rest IH]; intros H.
  - reflexivity.
  - cbn [forallb fst] in H. andb_split H Hk Hrest.
    cbn [first_action]. destruct (contains keyword s).
    + discriminate.
    + apply IH, Hrest.
Qed.

Lemma extract_time_loop_none (patterns : list pattern) (text : pystr) :
  forallb (fun p => is_none (re_search (snd p) (lower text))) patterns = true ->
  extract_time_loop patterns text = Some None.
Proof.
  induction patterns as [|[src rx] rest IH]; intros H.
  - reflexivity.
  - cbn [forallb snd] in H. andb_split H Hp Hrest.
    cbn [extract_time_loop]. destruct (re_search rx (lower text)).
    + discriminate.
    + apply IH, Hrest.
Qed.

Lemma extract_temperature_loop_none (patterns : list pattern) (text : pystr) :
  forallb (fun p => is_none (re_search (snd p) text)) patterns = true ->
  extract_temperature_loop patterns text = Some None.
Proof.
  induction patterns as [|[src rx] rest IH]; intros H.
  - reflexivity.
  - cbn [forallb snd] in H. andb_split H Hp Hrest.
    cbn [extract_temperature_loop]. destruct (re_search rx text).
    + discriminate.
    + apply IH, Hrest.
Qed.

(** C8, as the code behaves: every line that is neither blank nor a
    heading yields exactly one ingredient record, in input order, and the
    ingredient parser never raises; a line the quantity pattern does not
    match becomes the default record (the stripped line as name, quantity
    0, unit "to-taste").  The step parser gives one record for each such
    line whenever it returns, and a line is never dropped: it becomes a
    record or raises.  It raises exactly when [int] refuses a number of a
    line, and so never when no run of digits of the text has more than
    4300 digits.  A step line with no action keyword, no time pattern and
    no temperature pattern becomes a "prepare" step without time or
    temperature. *)
Theorem every_data_line_yields_one_record (text line : pystr) :
  map Some (parse_ingredients text) =
    map (fun l => _parse_ingredient_line (re_sub_start bullet_pattern l))
        (data_lines ingredient_headings text) /\
  length (parse_ingredients text) =
    length (data_lines ingredient_headings text) /\
  (exists ing, _parse_ingredient_line line = Some ing) /\
  (re_match ingredient_pattern line = None ->
   _parse_ingredient_line line =
     Some (MkIngredient (strip line) line (Int 0) (u "to-taste")
                        (_detect_allergens (strip line)) [])) /\
  (forall steps,
     parse_steps text = Some steps ->
     map (fun step => Some (Some step)) steps =
       map (fun l => _parse_step_line
                       (re_sub_start bullet_pattern
                          (re_sub_start numbering_pattern l)))
           (data_lines step_headings text) /\
     length steps = length (data_lines step_headings text)) /\
  (_parse_step_line line = None \/
   exists step, _parse_step_line line = Some (Some step)) /\
  (parse_steps text = None <->
   exists l,
     In l (data_lines step_headings text) /\
     _parse_step_line
       (re_sub_start bullet_pattern (re_sub_start numbering_pattern l)) =
     None) /\
  (digit_runs_within int_max_str_digits text = true ->
   exists steps, parse_steps text = Some steps) /\
  (digit_runs_within int_max_str_digits line = true ->
   exists step, _parse_step_line line = Some (Some step)) /\
  (forallb (fun entry => negb (contains (fst entry) (lower line)))
           ACTION_MAPPING = true ->
   forallb (fun p => is_none (re_search (snd p) (lower line)))
           time_patterns = true ->
   forallb (fun p => is_none (re_search (snd p) line))
           temperature_patterns = true ->
   _parse_step_line line = Some (Some (MkStep line (u "prepare") None None))).
Proof.
  split; [apply parse_ingredients_lines | ].
  split; [apply parse_ingredients_length | ].
  split; [apply parse_ingredient_line_some | ].
  split.
  { intros Hno. unfold _parse_ingredient_line. rewrite Hno. reflexivity. }
  split.
  { intros steps H. split;
      [apply parse_steps_lines, H | apply parse_steps_length, H]. }
  split.
  { destruct (parse_step_line_cases line) as [H | [time [temp [_ [_ H]]]]];
      [left; exact H | right; eexists; exact H]. }
  split; [apply parse_steps_raises | ].
  split; [apply parse_steps_returns | ].
  split.
  { intros H. destruct (parse_step_line_returns _ H)
      as [time [temp [_ [_ Hs]]]]. eexists; exact Hs. }
  intros Ha Ht Hc. unfold _parse_step_line, _detect_action, _extract_time,
    _extract_temperature.
  rewrite (first_action_default _ _ Ha), (extract_time_loop_none _ _ Ht),
    (extract_temperature_loop_none _ _ Hc).
  reflexivity.
Qed.

Lemma every_data_line_yields_one_record_witness :
  _parse_ingredient_line (u "Соль по вкусу") =
    Some (MkIngredient (u "Соль по вкусу") (u "Соль по вкусу") (Int 0)
                       (u "to-taste") [] []) /\
  _parse_step_line (u "Соль по вкусу") =
    Some (Some (MkStep (u "Соль по вкусу") (u "prepare") None None)) /\
  (exists steps, parse_steps (u "Варить 10 минут") = Some steps) /\
  (exists step, _parse_step_line (u "Варить 10 минут") = Some (Some step)).
Proof.
  destruct (every_data_line_yields_one_record
              (u "Варить 10 минут") (u "Соль по вкусу"))
    as (_ & _ & _ & Hi & _ & _ & _ & Ht & _ & Hs).
  destruct (every_data_line_yields_one_record
              (u "Варить 10 минут") (u "Варить 10 минут"))
    as (_ & _ & _ & _ & _ & _ & _ & _ & Hl & _).
  split; [apply Hi; vm_compute; reflexivity | ].
  split; [apply Hs; vm_compute; reflexivity | ].
  split; [apply Ht; vm_compute; reflexivity | ].
  apply Hl. vm_compute. reflexivity.
Defined.

(** A step line with a time of 4301 digits is neither blank nor a heading,
    and [int] raises on it: the line gives no record and [parse_steps]
    does not return. *)
Lemma step_line_with_long_number_raises :
  data_lines step_headings
    (u "Варить " ++ repeat (ch "1") 4301 ++ u " мин") =
    [u "Варить " ++ repeat (ch "1") 4301 ++ u " мин"] /\
  _parse_step_line (u "Варить " ++ repeat (ch "1") 4301 ++ u " мин") = None /\
  parse_steps (u "Варить " ++ repeat (ch "1") 4301 ++ u " мин") = None.
Proof.
  split; [vm_compute; reflexivity | ].
  split; vm_compute; reflexivity.
Qed.

(* ================================================================== *)
(** ** Step records *)
(* ================================================================== *)

(** C9: in the step record a time or a temperature of 0 is left out exactly
    as an absent one is; the params object is present only when one of the
    two is a non-zero number.  A line with "0 мин" has the time 0 extracted,
    a line with "при 0" the temperature 0, and their records carry no
    params. *)
Theorem step_zero_value_is_omitted (text action : pystr) (index : nat)
  (time temp : option Z) :
  _step_to_rcip (MkStep text action (Some 0%Z) temp) index =
    _step_to_rcip (MkStep text action None temp) index /\
  _step_to_rcip (MkStep text action time (Some 0%Z)) index =
    _step_to_rcip (MkStep text action time None) index /\
  field (u "params") (_step_to_rcip (MkStep text action None None) index) =
    None /\
  (match field (u "params") (_step_to_rcip (MkStep text action time temp) index)
   with Some _ => true | None => false end =
   truthy (of_opt_int time) || truthy (of_opt_int temp)) /\
  _extract_time (u "Варить 0 мин") = Some (Some 0%Z) /\
  _extract_temperature (u "Греть при 0") = Some (Some 0%Z) /\
  option_map steps_to_rcip (parse_steps (u "Варить 0 мин")) =
    Some [ PDict [ (u "step_id", PStr (u "s-01"));
                   (u "human_text", PStr (u "Варить 0 мин"));
                   (u "action", PStr (u "boil")) ] ] /\
  option_map steps_to_rcip (parse_steps (u "Греть при 0")) =
    Some [ PDict [ (u "step_id", PStr (u "s-01"));
                   (u "human_text", PStr (u "Греть при 0"));
                   (u "action", PStr (u "prepare")) ] ].
Proof.
  split; [reflexivity | ].
  split; [reflexivity | ].
  split; [reflexivity | ].
  split.
  { unfold _step_to_rcip; simpl time_minutes; simpl temperature_c.
    destruct (truthy (of_opt_int time)), (truthy (of_opt_int temp));
      reflexivity. }
  repeat split; by_eval.
Qed.

(* ================================================================== *)
(** ** Diet labels *)
(* ================================================================== *)

Lemma is_str_eq_iff (k : pystr) (v : pyval) : is_str_eq k v = true <-> v = PStr k.
Proof.
  destruct v; simpl; try (split; [discriminate | discriminate]).
  rewrite str_eqb_eq. split; [intros ->; reflexivity | intros H; inversion H; reflexivity].
Qed.

Lemma set_has_iff (k : pystr) (s : list pyval) :
  set_has k s = true <-> In (PStr k) s.
Proof.
  unfold set_has. rewrite existsb_exists. split.
  - intros [v [Hin Hv]]. apply is_str_eq_iff in Hv. subst v. exact Hin.
  - intros Hin. exists (PStr k). split; [exact Hin | apply is_str_eq_iff; reflexivity].
Qed.

Lemma ingredient_allergens_field (ing : ParsedIngredient) (index : nat) :
  py_get (_ingredient_to_rcip ing index) (u "allergens") (PList []) =
  Some (PList (map PStr (ing_allergens ing))).
Proof. reflexivity. Qed.

Lemma hashable_strs (l : list pystr) : forallb hashable (map PStr l) = true.
Proof. induction l as [|s l IH]; [reflexivity | exact IH]. Qed.

Lemma collect_allergens_rcip (parsed : list ParsedIngredient) :
  forall (n : nat) (acc : list pyval),
    collect_allergens
      (map (fun '(i, ing) => _ingredient_to_rcip ing (i + 1))
           (enumerate_from n parsed)) acc =
    Some (acc ++ map PStr (flat_map ing_allergens parsed)).
Proof.
  induction parsed as [|ing rest IH]; intros n acc.
  - simpl. rewrite app_nil_r. reflexivity.
  - cbn [enumerate_from map collect_allergens flat_map].
    rewrite ingredient_allergens_field. cbn [bind].
    unfold set_update. cbn [py_iter bind]. rewrite hashable_strs.
    cbn [bind]. rewrite IH, map_app, app_assoc. reflexivity.
Qed.

Lemma in_allergen_union_iff (tag : pystr) (parsed : list ParsedIngredient) :
  set_has tag (map PStr (flat_map ing_allergens parsed)) = true <->
  in_allergen_union tag parsed.
Proof.
  rewrite set_has_iff, in_map_iff. unfold in_allergen_union. split.
  - intros [s [Hs Hin]]. inversion Hs; subst s.
    apply in_flat_map in Hin. exact Hin.
  - intros H. exists tag. split; [reflexivity | apply in_flat_map; exact H].
Qed.

(** The labels [_detect_diet_labels] builds from its three tests. *)
Lemma detect_diet_labels_rcip (parsed : list ParsedIngredient) :
  let all := map PStr (flat_map ing_allergens parsed) in
  _detect_diet_labels (PList (ingredients_to_rcip parsed)) =
  Some ((if negb (set_has (u "gluten") all) && negb (set_has (u "wheat") all)
         then [u "gluten-free"] else []) ++
        (if negb (set_has (u "milk") all) && negb (set_has (u "lactose") all)
         then [u "dairy-free"] else []) ++
        (if negb (set_has (u "tree-nuts") all) &&
            negb (set_has (u "peanuts") all)
         then [u "nut-free"] else [])).
Proof.
  intros all. unfold _detect_diet_labels, ingredients_to_rcip, enumerate.
  cbn [py_iter bind]. rewrite collect_allergens_rcip. cbn [bind app].
  fold all.
  destruct (negb (set_has (u "gluten") all) && negb (set_has (u "wheat") all)),
    (negb (set_has (u "milk") all) && negb (set_has (u "lactose") all)),
    (negb (set_has (u "tree-nuts") all) && negb (set_has (u "peanuts") all)),
    (negb (existsb (fun a => set_has a all) [u "fish"]));
    reflexivity.
Qed.

Lemma free_label_iff (a b : pystr) (parsed : list ParsedIngredient) :
  let all := map PStr (flat_map ing_allergens parsed) in
  negb (set_has a all) && negb (set_has b all) = true <->
  ~ in_allergen_union a parsed /\ ~ in_allergen_union b parsed.
Proof.
  intros all. rewrite andb_true_iff, !negb_true_iff.
  rewrite <- !in_allergen_union_iff. fold all.
  destruct (set_has a all), (set_has b all); intuition congruence.
Qed.

(** C3: for every list of parsed ingredients, the inference returns a list
    of labels in which "gluten-free" occurs iff neither "gluten" nor "wheat"
    is in the union of the ingredients' allergen sets, "dairy-free" iff
    neither "milk" nor "lactose" is, "nut-free" iff neither "tree-nuts" nor
    "peanuts" is, and "vegetarian" and "vegan" never occur. *)
Theorem diet_labels_follow_allergen_union (parsed : list ParsedIngredient) :
  exists labels,
    _detect_diet_labels (PList (ingredients_to_rcip parsed)) = Some labels /\
    (In (u "gluten-free") labels <->
     ~ in_allergen_union (u "gluten") parsed /\
     ~ in_allergen_union (u "wheat") parsed) /\
    (In (u "dairy-free") labels <->
     ~ in_allergen_union (u "milk") parsed /\
     ~ in_allergen_union (u "lactose") parsed) /\
    (In (u "nut-free") labels <->
     ~ in_allergen_union (u "tree-nuts") parsed /\
     ~ in_allergen_union (u "peanuts") parsed) /\
    ~ In (u "vegetarian") labels /\
    ~ In (u "vegan") labels.
Proof.
  eexists. split; [apply detect_diet_labels_rcip | ].
  cbv zeta.
  rewrite <- !free_label_iff. cbv zeta.
  set (all := map PStr (flat_map ing_allergens parsed)).
  destruct (negb (set_has (u "gluten") all) && negb (set_has (u "wheat") all)),
    (negb (set_has (u "milk") all) && negb (set_has (u "lactose") all)),
    (negb (set_has (u "tree-nuts") all) && negb (set_has (u "peanuts") all));
    vm_compute; intuition discriminate.
Qed.

(* ================================================================== *)
(** ** Records of the assembled document *)
(* ================================================================== *)

Lemma field_recipe_lit_ingredients (idv meta : pyval) (X Y : list pyval)
  (ext : dict) :
  field (u "ingredients") (PDict (recipe_lit idv meta X Y ++ ext)) =
  Some (PList X).
Proof. reflexivity. Qed.







(* ================================================================== *)
(** ** What [validate] reports *)
(* ================================================================== *)

Lemma check_required_spec (recipe : pyval) (fields : list pystr) :
  forall acc errors,
    check_required fields recipe acc = Some errors ->
    errors =
    acc ++ map (fun f => u "Missing required field: " ++ f)
               (filter (fun f => negb (present f recipe)) fields).
Proof.
  induction fields as [|f rest IH]; intros acc errors H.
  - simpl in H. inversion H. rewrite app_nil_r. reflexivity.
  - cbn [check_required] in H. cbn [filter]. unfold present at 1.
    destruct (py_in f recipe) as [[|]|]; cbn [bind negb] in H.
    + apply IH in H. exact H.
    + apply IH in H. rewrite H, <- app_assoc. reflexivity.
    + discriminate.
Qed.

Lemma check_allergens_spec (items : list (nat * pyval)) :
  forall acc errors,
    check_allergens items acc = Some errors ->
    errors =
    acc ++ map (fun '(i, _) =>
                  u "Ingredient " ++ str_of_nat (i + 1) ++
                  u " missing allergens field")
               (filter (fun '(_, ing) => negb (present (u "allergens") ing))
                       items).
Proof.
  induction items as [|[i ing] rest IH]; intros acc errors H.
  - simpl in H. inversion H. rewrite app_nil_r. reflexivity.
  - cbn [check_allergens] in H. cbn [filter]. unfold present at 1.
    destruct (py_in (u "allergens") ing) as [[|]|]; cbn [bind negb] in H.
    + apply IH in H. exact H.
    + apply IH in H. rewrite H, <- app_assoc. reflexivity.
    + discriminate.
Qed.

Lemma validate_reports_all (recipe : pyval) (ok : bool) (errors : list pystr) :
  validate recipe = Some (ok, errors) ->
  exists v items,
    py_get recipe (u "ingredients") (PList []) = Some v /\
    py_iter v = Some items /\
    errors = violations recipe items /\
    ok = Nat.eqb (length errors) 0.
Proof.
  unfold validate. intros H.
  destruct (check_required required_fields recipe []) as [e1|] eqn:H1;
    [ | discriminate].
  cbn [bind] in H.
  destruct (py_get recipe (u "ingredients") (PList [])) as [v|] eqn:Hv;
    [ | discriminate].
  cbn [bind] in H.
  destruct (py_iter v) as [items|] eqn:Hi; [ | discriminate].
  cbn [bind] in H.
  destruct (check_allergens (enumerate items) e1) as [e2|] eqn:H2;
    [ | discriminate].
  cbn [bind] in H. inversion H; subst ok errors.
  exists v, items.
  split; [reflexivity | ].
  split; [exact Hi | ].
  split; [ | reflexivity].
  apply check_required_spec in H1. apply check_allergens_spec in H2.
  rewrite H2, H1. reflexivity.
Qed.

Lemma check_allergens_all_present (items : list pyval) :
  forallb (present (u "allergens")) items = true ->
  forall n errors,
    check_allergens (enumerate_from n items) errors = Some errors.
Proof.
  induction items as [|ing rest IH]; intros H n errors.
  - reflexivity.
  - cbn [forallb] in H. andb_split H Hp Hrest.
    cbn [enumerate_from check_allergens]. unfold present in Hp.
    destruct (py_in (u "allergens") ing) as [[|]|]; try discriminate.
    cbn [bind negb]. apply IH, Hrest.
Qed.

Lemma rcip_ingredients_have_allergens (parsed : list ParsedIngredient) :
  forall n,
    forallb (present (u "allergens"))
      (map (fun '(i, ing) => _ingredient_to_rcip ing (i + 1))
           (enumerate_from n parsed)) = true.
Proof.
  induction parsed as [|ing rest IH]; intros n.
  - reflexivity.
  - cbn [enumerate_from map forallb]. rewrite IH. reflexivity.
Qed.

Lemma validate_recipe_lit (idv meta : pyval) (X Y : list pyval) (ext : dict) :
  forallb (present (u "allergens")) X = true ->
  validate (PDict (recipe_lit idv meta X Y ++ ext)) = Some (true, []).
Proof.
  intros HX. unfold validate.
  change (check_required required_fields
            (PDict (recipe_lit idv meta X Y ++ ext)) []) with (Some (@nil pystr)).
  cbn [bind].
  change (py_get (PDict (recipe_lit idv meta X Y ++ ext)) (u "ingredients")
            (PList [])) with (Some (PList X)).
  cbn [bind py_iter]. unfold enumerate.
  rewrite (check_allergens_all_present X HX). reflexivity.
Qed.

(* ================================================================== *)
(** ** The document [convert] assembles *)
(* ================================================================== *)

Section Assembled.

(** The arguments of one call of [convert]. *)
Variables (name : pyval) (it st : option pystr) (desc serv : pyval)
  (pt ct : option Z) (diff cui : pystr) (auth : pyval) (url : pystr).

(** [convert] raises exactly when the step parser does; otherwise the
    document is the literal with the records of the two parsers. *)
Lemma convert_normal_form (o : Outside) :
  exists labels,
    _detect_diet_labels
      (PList (ingredients_to_rcip (parse_ingredients (text_or_empty it)))) =
      Some labels /\
    convert o name it st desc serv pt ct diff cui auth url =
    match parse_steps (text_or_empty st) with
    | Some parsed_steps =>
        Some (PDict
          (recipe_lit (PStr (u "rcip-" ++ uuid4 o))
             (PDict (dict_set
                       (_create_meta o name desc serv pt ct diff cui auth)
                       (u "diet_labels") (PList (map PStr labels))))
             (ingredients_to_rcip (parse_ingredients (text_or_empty it)))
             (steps_to_rcip parsed_steps)
           ++ extensions_entry o url))
    | None => None
    end.
Proof.
  eexists. split; [apply detect_diet_labels_rcip | ].
  set (labels := _ ++ _ ++ _).
  unfold convert.
  generalize (_create_meta o name desc serv pt ct diff cui auth). intros meta.
  assert (HR : forall idv M,
    (let recipe := recipe_lit idv M [] [] in
     let recipe :=
       match it with
       | Some (c :: t) =>
           let parsed_ingredients := parse_ingredients (c :: t) in
           dict_set recipe (u "ingredients")
             (PList (ingredients_to_rcip parsed_ingredients))
       | _ => recipe
       end in
     match st with
     | Some (c :: t) =>
         parsed_steps <- parse_steps (c :: t) ;;
         Some (dict_set recipe (u "steps")
                 (PList (steps_to_rcip parsed_steps)))
     | _ => Some recipe
     end) =
    match parse_steps (text_or_empty st) with
    | Some parsed_steps =>
        Some (recipe_lit idv M
                (ingredients_to_rcip (parse_ingredients (text_or_empty it)))
                (steps_to_rcip parsed_steps))
    | None => None
    end).
  { intros idv M.
    destruct st as [[|c' t']|]; cbn [text_or_empty];
      try change (parse_steps []) with (Some (@nil ParsedStep));
      [ | destruct (parse_steps (c' :: t')); cbn [bind] | ];
      destruct it as [[|c t]|]; reflexivity. }
  cbv zeta in HR |- *.
  unfold recipe_lit in HR at 1.
  rewrite HR. clear HR.
  destruct (parse_steps (text_or_empty st)) as [parsed_steps|];
    [ | reflexivity].
  cbn [bind].
  set (X := ingredients_to_rcip (parse_ingredients (text_or_empty it))).
  set (Y := steps_to_rcip parsed_steps).
  change (py_item (recipe_lit (PStr (u "rcip-" ++ uuid4 o)) (PDict meta) X Y)
            (u "ingredients")) with (Some (PList X)).
  cbn [bind]. unfold X at 1. rewrite detect_diet_labels_rcip. cbv zeta.
  fold labels. cbn [bind].
  change (set_nested (recipe_lit (PStr (u "rcip-" ++ uuid4 o)) (PDict meta) X Y)
            (u "meta") (u "diet_labels") (PList (map PStr labels)))
    with (Some (recipe_lit (PStr (u "rcip-" ++ uuid4 o))
                  (PDict (dict_set meta (u "diet_labels")
                            (PList (map PStr labels)))) X Y)).
  cbn [bind]. unfold extensions_entry.
  destruct (truthy (PStr url)).
  - reflexivity.
  - rewrite app_nil_r. reflexivity.
Qed.

Lemma convert_returned (o : Outside) (recipe : pyval) :
  convert o name it st desc serv pt ct diff cui auth url = Some recipe ->
  exists labels parsed_steps,
    _detect_diet_labels
      (PList (ingredients_to_rcip (parse_ingredients (text_or_empty it)))) =
      Some labels /\
    parse_steps (text_or_empty st) = Some parsed_steps /\
    recipe =
      PDict
        (recipe_lit (PStr (u "rcip-" ++ uuid4 o))
           (PDict (dict_set
                     (_create_meta o name desc serv pt ct diff cui auth)
                     (u "diet_labels") (PList (map PStr labels))))
           (ingredients_to_rcip (parse_ingredients (text_or_empty it)))
           (steps_to_rcip parsed_steps)
         ++ extensions_entry o url).
Proof.
  destruct (convert_normal_form o) as [labels [Hl Hc]]. rewrite Hc.
  destruct (parse_steps (text_or_empty st)) as [parsed_steps|];
    [ | discriminate].
  intros H. inversion H. exists labels, parsed_steps. auto.
Qed.

(** [convert] raises exactly when [parse_steps] does on the steps text. *)
Lemma convert_raises (o : Outside) :
  convert o name it st desc serv pt ct diff cui auth url = None <->
  parse_steps (text_or_empty st) = None.
Proof.
  destruct (convert_normal_form o) as [labels [_ Hc]]. rewrite Hc.
  destruct (parse_steps (text_or_empty st)); split; congruence.
Qed.

(** It returns when no run of digits of the steps text is beyond the limit
    of [int]. *)
Lemma convert_returns (o : Outside) :
  digit_runs_within int_max_str_digits (text_or_empty st) = true ->
  exists recipe,
    convert o name it st desc serv pt ct diff cui auth url = Some recipe.
Proof.
  intros H. destruct (parse_steps_returns _ H) as [parsed Hp].
  destruct (convert_normal_form o) as [labels [_ Hc]]. rewrite Hc, Hp.
  eexists; reflexivity.
Qed.


(** C7, as the code behaves: every document [convert] returns is accepted
    by [validate] with no error: the five required fields are present and
    every ingredient record has an allergens field.  [convert] returns a
    document unless the step parser raises, which it does not when no run
    of digits of the steps text is beyond the limit of [int].  On any
    document [validate] reports one message for every missing required
    field and one for every ingredient without allergens, not only the
    first. *)
Theorem validate_accepts_converted_document (o : Outside) (other : pyval) :
  (forall recipe,
     convert o name it st desc serv pt ct diff cui auth url = Some recipe ->
     validate recipe = Some (true, []) /\
     forallb (fun f => present f recipe) required_fields = true /\
     exists ingredients,
       field (u "ingredients") recipe = Some (PList ingredients) /\
       forallb (present (u "allergens")) ingredients = true) /\
  (digit_runs_within int_max_str_digits (text_or_empty st) = true ->
   exists recipe,
     convert o name it st desc serv pt ct diff cui auth url = Some recipe) /\
  (convert o name it st desc serv pt ct diff cui auth url = None <->
   parse_steps (text_or_empty st) = None) /\
  (forall ok errors,
     validate other = Some (ok, errors) ->
     exists v items,
       py_get other (u "ingredients") (PList []) = Some v /\
       py_iter v = Some items /\
       errors = violations other items /\
       ok = Nat.eqb (length errors) 0).
Proof.
  split.
  { intros recipe H. apply convert_returned in H.
    destruct H as [labels [parsed_steps [_ [_ ->]]]].
    split; [apply validate_recipe_lit, (rcip_ingredients_have_allergens _ 0) | ].
    split; [reflexivity | ].
    eexists. split; [apply field_recipe_lit_ingredients | ].
    apply (rcip_ingredients_have_allergens _ 0). }
  split; [apply convert_returns | ].
  split; [apply convert_raises | ].
  intros ok errors. apply validate_reports_all.
Qed.

Lemma create_meta_without_date (o o' : Outside) (labels : pyval) :
  dict_remove
    (dict_set (_create_meta o name desc serv pt ct diff cui auth)
              (u "diet_labels") labels) (u "created_date") =
  dict_remove
    (dict_set (_create_meta o' name desc serv pt ct diff cui auth)
              (u "diet_labels") labels) (u "created_date").
Proof.
  unfold _create_meta.
  destruct (truthy desc), (truthy serv), (truthy (PStr cui));
    destruct pt as [p|], ct as [c|];
    try destruct (truthy (of_opt_int (Some p)));
    try destruct (truthy (of_opt_int (Some c)));
    by_eval.
Qed.

Lemma create_meta_date (o : Outside) (labels : pyval) :
  dict_get
    (dict_set (_create_meta o name desc serv pt ct diff cui auth)
              (u "diet_labels") labels) (u "created_date") =
  Some (PStr (utcnow_meta o ++ u "Z")).
Proof.
  unfold _create_meta.
  destruct (truthy desc), (truthy serv), (truthy (PStr cui));
    destruct pt as [p|], ct as [c|];
    try destruct (truthy (of_opt_int (Some p)));
    try destruct (truthy (of_opt_int (Some c)));
    by_eval.
Qed.

Lemma scrub_recipe_lit (idv : pyval) (M : dict) (X Y : list pyval)
  (o : Outside) :
  scrub (PDict (recipe_lit idv (PDict M) X Y ++ extensions_entry o url)) =
  PDict ([ (u "rcip_version", PStr rcip_version);
           (u "meta", PDict (dict_remove M (u "created_date")));
           (u "ingredients", PList X);
           (u "steps", PList Y) ] ++
         (if truthy (PStr url)
          then [ (u "extensions", PDict [ (u "source_url", PStr url) ]) ]
          else [])).
Proof.
  unfold extensions_entry. destruct (truthy (PStr url)); reflexivity.
Qed.

(** C6: two calls of [convert] with the same arguments raise together or
    return together, and the two documents they return are equal once the
    id, the creation date of the meta section and the conversion date of
    the extensions are erased; these three places hold the values read
    from outside (the extensions exist only when a source URL is given).
    Both calls return when no run of digits of the steps text is beyond
    the limit of [int]. *)
Theorem convert_runs_differ_only_in_id_and_dates (o1 o2 : Outside) :
  (convert o1 name it st desc serv pt ct diff cui auth url = None <->
   convert o2 name it st desc serv pt ct diff cui auth url = None) /\
  (forall r1 r2,
     convert o1 name it st desc serv pt ct diff cui auth url = Some r1 ->
     convert o2 name it st desc serv pt ct diff cui auth url = Some r2 ->
     scrub r1 = scrub r2 /\
     field (u "id") r1 = Some (PStr (u "rcip-" ++ uuid4 o1)) /\
     (exists meta1,
        field (u "meta") r1 = Some meta1 /\
        field (u "created_date") meta1 =
          Some (PStr (utcnow_meta o1 ++ u "Z"))) /\
     field (u "extensions") r1 =
       (if truthy (PStr url)
        then Some (PDict [ (u "source_url", PStr url);
                           (u "converted_date",
                            PStr (utcnow_extensions o1 ++ u "Z")) ])
        else None)) /\
  (digit_runs_within int_max_str_digits (text_or_empty st) = true ->
   exists r1 r2,
     convert o1 name it st desc serv pt ct diff cui auth url = Some r1 /\
     convert o2 name it st desc serv pt ct diff cui auth url = Some r2).
Proof.
  split; [rewrite !convert_raises; tauto | ].
  split.
  { intros r1 r2 H1 H2.
    apply convert_returned in H1, H2.
    destruct H1 as [labels1 [parsed1 [Hl1 [Hp1 ->]]]].
    destruct H2 as [labels2 [parsed2 [Hl2 [Hp2 ->]]]].
    assert (labels2 = labels1) by congruence. subst labels2.
    assert (parsed2 = parsed1) by congruence. subst parsed2.
    split.
    { rewrite !scrub_recipe_lit.
      rewrite (create_meta_without_date o1 o2). reflexivity. }
    split; [reflexivity | ].
    split; [eexists; split; [reflexivity | apply create_meta_date] | ].
    unfold extensions_entry. destruct (truthy (PStr url)); reflexivity. }
  intros H. destruct (convert_returns o1 H) as [r1 H1].
  destruct (convert_returns o2 H) as [r2 H2]. exists r1, r2. auto.
Qed.

End Assembled.


Lemma validate_accepts_converted_document_witness :
  (exists recipe,
     convert (MkOutside (u "id") (u "t1") (u "t2")) (PStr (u "Суп"))
       (Some (u "Соль")) (Some (u "Варить 10 минут")) (PStr [])
       (PNum (Int 4)) None None (u "intermediate") []
       (PStr (u "Web Source")) [] = Some recipe /\
     validate recipe = Some (true, [])) /\
  validate (PDict [ (u "id", PNone);
                    (u "ingredients",
                     PList [ PDict [];
                             PDict [(u "allergens", PList [])];
                             PDict [(u "name", PStr (u "соль"))] ]) ]) =
  Some (false,
        [ u "Missing required field: rcip_version";
          u "Missing required field: meta";
          u "Missing required field: steps";
          u "Ingredient 1 missing allergens field";
          u "Ingredient 3 missing allergens field" ]) /\
  exists v items,
    py_get (PDict [ (u "id", PNone);
                    (u "ingredients",
                     PList [ PDict [];
                             PDict [(u "allergens", PList [])];
                             PDict [(u "name", PStr (u "соль"))] ]) ])
           (u "ingredients") (PList []) = Some v /\
    py_iter v = Some items /\
    [ u "Missing required field: rcip_version";
      u "Missing required field: meta";
      u "Missing required field: steps";
      u "Ingredient 1 missing allergens field";
      u "Ingredient 3 missing allergens field" ] =
    violations (PDict [ (u "id", PNone);
                        (u "ingredients",
                         PList [ PDict [];
                                 PDict [(u "allergens", PList [])];
                                 PDict [(u "name", PStr (u "соль"))] ]) ])
               items /\
    false = Nat.eqb (length
      [ u "Missing required field: rcip_version";
        u "Missing required field: meta";
        u "Missing required field: steps";
        u "Ingredient 1 missing allergens field";
        u "Ingredient 3 missing allergens field" ]) 0.
Proof.
  assert (Hv : validate (PDict [ (u "id", PNone);
                    (u "ingredients",
                     PList [ PDict [];
                             PDict [(u "allergens", PList [])];
                             PDict [(u "name", PStr (u "соль"))] ]) ]) =
  Some (false,
        [ u "Missing required field: rcip_version";
          u "Missing required field: meta";
          u "Missing required field: steps";
          u "Ingredient 1 missing allergens field";
          u "Ingredient 3 missing allergens field" ])).
  { vm_compute. reflexivity. }
  destruct (validate_accepts_converted_document (PStr (u "Суп"))
              (Some (u "Соль")) (Some (u "Варить 10 минут")) (PStr [])
              (PNum (Int 4)) None None (u "intermediate") []
              (PStr (u "Web Source")) []
              (MkOutside (u "id") (u "t1") (u "t2"))
              (PDict [ (u "id", PNone);
                       (u "ingredients",
                        PList [ PDict [];
                                PDict [(u "allergens", PList [])];
                                PDict [(u "name", PStr (u "соль"))] ]) ]))
    as [Hdoc [Hret [_ Hall]]].
  split.
  { destruct Hret as [recipe Hr]; [vm_compute; reflexivity | ].
    exists recipe. split; [exact Hr | apply (Hdoc recipe Hr)]. }
  split; [exact Hv | ].
  exact (Hall _ _ Hv).
Defined.

(** With a time of 4301 digits in the steps text, [convert] raises: there
    is no document for [validate] to accept. *)
Lemma convert_raises_on_long_number :
  (recipe <- convert (MkOutside (u "id") (u "t1") (u "t2")) (PStr (u "Суп"))
               (Some (u "Соль"))
               (Some (u "Варить " ++ repeat (ch "1") 4301 ++ u " мин"))
               (PStr []) (PNum (Int 4)) None None (u "intermediate") []
               (PStr (u "Web Source")) [] ;;
   validate recipe) = None.
Proof. vm_compute. reflexivity. Qed.

Lemma convert_runs_differ_only_in_id_and_dates_witness :
  exists r1 r2,
    convert (MkOutside (u "id1") (u "t1") (u "t2")) (PStr (u "Суп"))
      (Some (u "Соль")) (Some (u "Варить 10 минут")) (PStr [])
      (PNum (Int 4)) None None (u "intermediate") []
      (PStr (u "Web Source")) (u "https://example.org") = Some r1 /\
    convert (MkOutside (u "id2") (u "t3") (u "t4")) (PStr (u "Суп"))
      (Some (u "Соль")) (Some (u "Варить 10 минут")) (PStr [])
      (PNum (Int 4)) None None (u "intermediate") []
      (PStr (u "Web Source")) (u "https://example.org") = Some r2 /\
    scrub r1 = scrub r2.
Proof.
  destruct (convert_runs_differ_only_in_id_and_dates (PStr (u "Суп"))
              (Some (u "Соль")) (Some (u "Варить 10 минут")) (PStr [])
              (PNum (Int 4)) None None (u "intermediate") []
              (PStr (u "Web Source")) (u "https://example.org")
              (MkOutside (u "id1") (u "t1") (u "t2"))
              (MkOutside (u "id2") (u "t3") (u "t4")))
    as [_ [Hsame Hret]].
  destruct Hret as [r1 [r2 [H1 H2]]]; [vm_compute; reflexivity | ].
  exists r1, r2. split; [exact H1 | ]. split; [exact H2 | ].
  apply (Hsame r1 r2 H1 H2).
Defined.

(* ================================================================== *)
(** ** The Schema.org adapter *)
(* ================================================================== *)

Lemma bind_some {A B} (m : option A) (f : A -> option B) (r : B) :
  bind m f = Some r -> exists a, m = Some a /\ f a = Some r.
Proof. destruct m as [a|]; [intros H; exists a; auto | discriminate]. Qed.

Lemma py_get_dict (d : dict) (k : pystr) (default : pyval) :
  py_get (PDict d) k default =
  Some (match dict_get d k with Some x => x | None => default end).
Proof. unfold py_get. destruct (dict_get d k); reflexivity. Qed.

Lemma mapM_as_str (ss : list pystr) : mapM as_str (map PStr ss) = Some ss.
Proof.
  induction ss as [|s ss IH]; [reflexivity | ].
  cbn [map mapM as_str bind]. rewrite IH. reflexivity.
Qed.

Lemma py_join_strs (sep : pystr) (ss : list pystr) :
  py_join sep (PList (map PStr ss)) = Some (join sep ss).
Proof. unfold py_join. cbn [py_iter bind]. rewrite mapM_as_str. reflexivity. Qed.

Lemma parse_iso_duration_returns (v : pyval) :
  duration_ok v = true -> exists r, _parse_iso_duration v = Some r.
Proof.
  unfold duration_ok, _parse_iso_duration. intros H.
  destruct (negb (truthy v)); [eexists; reflexivity | ].
  cbn [orb] in H. destruct v; try discriminate.
  destruct time_patterns_digit_groups as [_ [_ [Hh [Hm _]]]].
  destruct (re_search hours_pattern s) as [mh|] eqn:Eh.
  - rewrite (@int_of_group hours_pattern s mh 1 Hh H Eh). cbn [bind].
    destruct (re_search minutes_pattern s) as [mm|] eqn:Em.
    + rewrite (@int_of_group minutes_pattern s mm 1 Hm H Em).
      eexists; reflexivity.
    + eexists; reflexivity.
  - cbn [bind].
    destruct (re_search minutes_pattern s) as [mm|] eqn:Em.
    + rewrite (@int_of_group minutes_pattern s mm 1 Hm H Em).
      eexists; reflexivity.
    + eexists; reflexivity.
Qed.

Lemma schema_servings_returns (v : pyval) :
  yield_ok v = true -> exists r, schema_servings v = Some r.
Proof.
  unfold yield_ok, schema_servings. intros H.
  destruct v; try (eexists; reflexivity).
  destruct time_patterns_digit_groups as [_ [_ [_ [_ Hd]]]].
  destruct (re_search digits_pattern s) as [m|] eqn:E.
  - rewrite (@int_of_group digits_pattern s m 0 Hd H E).
    eexists; reflexivity.
  - eexists; reflexivity.
Qed.

Lemma is_some_eq {A} (x : option A) :
  is_some x = true -> exists a, x = Some a.
Proof. destruct x as [a|]; [exists a; reflexivity | discriminate]. Qed.

Section AdapterFacts.

Variable str_other : pyval -> option pystr.

Lemma schema_author_returns (v : pyval) :
  author_ok str_other v = true ->
  exists a, schema_author str_other v = Some a.
Proof.
  unfold author_ok, schema_author. intros H.
  destruct v;
    try (apply is_some_eq in H; destruct H as [rendered E]; rewrite E;
         eexists; reflexivity).
  rewrite py_get_dict. eexists; reflexivity.
Qed.

Lemma instruction_item_returns (step : pyval) :
  instruction_ok str_other step = true ->
  exists t, instruction_item str_other step = Some (PStr t).
Proof.
  unfold instruction_ok, instruction_item. intros H. andb_split H Hs Ht.
  apply is_some_eq in Hs. destruct Hs as [rendered Hr].
  destruct step as [| b | n | s | l | d]; rewrite Hr; cbn [bind];
    try (eexists; reflexivity).
  destruct (dict_get d (u "text")) as [text|]; [ | eexists; reflexivity].
  destruct text; try discriminate. eexists; reflexivity.
Qed.

Lemma instruction_items_return (l : list pyval) :
  forallb (instruction_ok str_other) l = true ->
  exists ts, mapM (instruction_item str_other) l = Some (map PStr ts).
Proof.
  induction l as [|step l IH]; intros H.
  - exists []. reflexivity.
  - cbn [forallb] in H. andb_split H Hs Hl.
    destruct (IH Hl) as [ts Hts].
    destruct (instruction_item_returns step Hs) as [t Ht].
    exists (t :: ts). cbn [mapM]. rewrite Ht, Hts. reflexivity.
Qed.

Lemma schema_steps_return (v : pyval) :
  instructions_ok str_other v = true ->
  exists t, schema_steps_text str_other v = Some t.
Proof.
  unfold instructions_ok, schema_steps_text. intros H.
  destruct v; try (eexists; reflexivity).
  destruct (instruction_items_return l H) as [ts Hts].
  rewrite Hts. cbn [bind]. rewrite py_join_strs. eexists; reflexivity.
Qed.

(** C5: when recipeIngredient is a list of strings, every document the
    adapter returns has as ingredient records those the ingredient parser
    gives for the newline-joined list, which are the records of every
    document a direct call of [convert] on that text returns.  The adapter
    returns a document for every object on which nothing raises before
    [convert] is called and whose steps text has no run of digits beyond
    the limit of [int]. *)
Theorem schema_adapter_uses_ingredient_parser (o : Outside) (d : dict)
  (ss : list pystr) :
  dict_get d (u "recipeIngredient") = Some (PList (map PStr ss)) ->
  (forall recipe,
     from_schema_org str_other o (PDict d) = Some recipe ->
     field (u "ingredients") recipe =
       Some (PList (ingredients_to_rcip
                      (parse_ingredients (join newline ss))))) /\
  (schema_shape str_other d = true ->
   (forall steps_text,
      schema_steps_text str_other
        (match dict_get d (u "recipeInstructions") with
         | Some x => x
         | None => PList []
         end) = Some steps_text ->
      digit_runs_within int_max_str_digits steps_text = true) ->
   exists recipe, from_schema_org str_other o (PDict d) = Some recipe) /\
  (forall (o' : Outside) (name : pyval) (st : option pystr)
          (desc serv : pyval) (pt ct : option Z) (diff cui : pystr)
          (auth : pyval) (url : pystr) (direct : pyval),
     convert o' name (Some (join newline ss)) st desc serv pt ct diff cui
             auth url = Some direct ->
     field (u "ingredients") direct =
       Some (PList (ingredients_to_rcip
                      (parse_ingredients (join newline ss))))).
Proof.
  intros Hing. split; [ | split].
  - intros recipe H. unfold from_schema_org in H.
    rewrite !py_get_dict in H. cbn [bind] in H.
    apply bind_some in H. destruct H as [author [_ H]].
    apply bind_some in H. destruct H as [prep [_ H]].
    apply bind_some in H. destruct H as [cook [_ H]].
    apply bind_some in H. destruct H as [servings [_ H]].
    rewrite Hing, py_join_strs in H. cbn [bind] in H.
    apply bind_some in H. destruct H as [steps_text [_ H]].
    apply convert_returned in H.
    destruct H as [labels [parsed [_ [_ ->]]]].
    apply field_recipe_lit_ingredients.
  - intros Hshape Hruns. unfold schema_shape, absent_or in Hshape.
    andb_split Hshape Hshape Hsteps.
    andb_split Hshape Hshape Hyield.
    andb_split Hshape Hshape Hcook.
    andb_split Hshape Hauthor Hprep.
    unfold from_schema_org. rewrite !py_get_dict. cbn [bind].
    assert (Ha : exists a,
              schema_author str_other
                (match dict_get d (u "author") with
                 | Some x => x
                 | None => PDict []
                 end) = Some a).
    { destruct (dict_get d (u "author"));
        [apply schema_author_returns, Hauthor | eexists; reflexivity]. }
    destruct Ha as [author Ha]. rewrite Ha. cbn [bind].
    assert (Hp : exists r,
              _parse_iso_duration
                (match dict_get d (u "prepTime") with
                 | Some x => x
                 | None => PStr []
                 end) = Some r).
    { destruct (dict_get d (u "prepTime"));
        [apply parse_iso_duration_returns, Hprep | eexists; reflexivity]. }
    destruct Hp as [prep Hp]. rewrite Hp. cbn [bind].
    assert (Hc : exists r,
              _parse_iso_duration
                (match dict_get d (u "cookTime") with
                 | Some x => x
                 | None => PStr []
                 end) = Some r).
    { destruct (dict_get d (u "cookTime"));
        [apply parse_iso_duration_returns, Hcook | eexists; reflexivity]. }
    destruct Hc as [cook Hc]. rewrite Hc. cbn [bind].
    assert (Hy : exists r,
              schema_servings
                (match dict_get d (u "recipeYield") with
                 | Some x => x
                 | None => PNone
                 end) = Some r).
    { destruct (dict_get d (u "recipeYield"));
        [apply schema_servings_returns, Hyield | eexists; reflexivity]. }
    destruct Hy as [servings Hy]. rewrite Hy. cbn [bind].
    rewrite Hing, py_join_strs. cbn [bind].
    assert (Hs : exists t,
              schema_steps_text str_other
                (match dict_get d (u "recipeInstructions") with
                 | Some x => x
                 | None => PList []
                 end) = Some t).
    { destruct (dict_get d (u "recipeInstructions"));
        [apply schema_steps_return, Hsteps | eexists; reflexivity]. }
    destruct Hs as [steps_text Hs]. rewrite Hs. cbn [bind].
    apply convert_returns. cbn [text_or_empty]. apply Hruns, Hs.
  - intros o' name st desc serv pt ct diff cui auth url direct H.
    apply convert_returned in H.
    destruct H as [labels [parsed [_ [_ ->]]]].
    apply field_recipe_lit_ingredients.
Qed.

End AdapterFacts.

Lemma schema_adapter_uses_ingredient_parser_witness :
  exists recipe,
    from_schema_org (fun _ => Some (u "['Maria', 'Ivan']"))
      (MkOutside (u "id") (u "t1") (u "t2"))
      (PDict [ (u "name", PStr (u "Греческий салат"));
               (u "author", PList [ PStr (u "Maria"); PStr (u "Ivan") ]);
               (u "prepTime", PStr (u "PT15M"));
               (u "recipeYield", PStr (u "4 servings"));
               (u "recipeIngredient",
                PList (map PStr [u "2 помидора"; u "100г феты"]));
               (u "recipeInstructions",
                PList [ PStr (u "Нарезать овощи");
                        PDict [ (u "text", PStr (u "Добавить фету")) ] ]) ]) =
    Some recipe /\
    field (u "ingredients") recipe =
      Some (PList (ingredients_to_rcip
                     (parse_ingredients
                        (join newline [u "2 помидора"; u "100г феты"])))).
Proof.
  destruct (@schema_adapter_uses_ingredient_parser
              (fun _ => Some (u "['Maria', 'Ivan']"))
              (MkOutside (u "id") (u "t1") (u "t2"))
              [ (u "name", PStr (u "Греческий салат"));
                (u "author", PList [ PStr (u "Maria"); PStr (u "Ivan") ]);
                (u "prepTime", PStr (u "PT15M"));
                (u "recipeYield", PStr (u "4 servings"));
                (u "recipeIngredient",
                 PList (map PStr [u "2 помидора"; u "100г феты"]));
                (u "recipeInstructions",
                 PList [ PStr (u "Нарезать овощи");
                         PDict [ (u "text", PStr (u "Добавить фету")) ] ]) ]
              [u "2 помидора"; u "100г феты"])
    as [Hpartial [Htotal _]].
  - vm_compute. reflexivity.
  - destruct Htotal as [recipe Hrecipe].
    + vm_compute. reflexivity.
    + intros steps_text H. vm_compute in H. injection H as <-.
      vm_compute. reflexivity.
    + exists recipe. split; [exact Hrecipe | exact (Hpartial recipe Hrecipe)].
Defined.

(* ================================================================== *)
(** ** Invariants of the parsed records *)
(* ================================================================== *)

Lemma str_in_iff (a : pystr) (l : list pystr) : str_in a l = true <-> In a l.
Proof.
  unfold str_in. rewrite existsb_exists. split.
  - intros [x [Hin Hx]]. apply str_eqb_eq in Hx. subst x. exact Hin.
  - intros Hin. exists a. split; [exact Hin | apply str_eqb_refl].
Qed.

Lemma incl_by_eval (l1 l2 : list pystr) :
  forallb (fun a => str_in a l2) l1 = true -> incl l1 l2.
Proof.
  intros H a Ha. rewrite forallb_forall in H. apply str_in_iff, H, Ha.
Qed.

Lemma nodupb_sound (l : list pystr) : nodupb l = true -> NoDup l.
Proof.
  induction l as [|a l IH]; intros H; [constructor | ].
  cbn [nodupb] in H. andb_split H Ha Hl. constructor.
  - intros Hin. apply str_in_iff in Hin. rewrite Hin in Ha. discriminate.
  - apply IH, Hl.
Qed.

Lemma map_some_forall {A B} (f : B -> option A) (xs : list A) :
  forall ls, map Some xs = map f ls ->
  Forall (fun x => exists l, In l ls /\ f l = Some x) xs.
Proof.
  induction xs as [|x xs IH]; intros ls H; [constructor | ].
  destruct ls as [|l ls]; [discriminate | ].
  cbn [map] in H. inversion H as [[Hx Hrest]]. constructor.
  - exists l. split; [left; reflexivity | symmetry; exact Hx].
  - apply IH in Hrest. eapply Forall_impl; [ | exact Hrest].
    intros y [l' [Hin Hy]]. exists l'. split; [right; exact Hin | exact Hy].
Qed.

Lemma digits_value_nonneg (s : pystr) : (0 <= digits_value s)%Z.
Proof. unfold digits_value. apply N2Z.is_nonneg. Qed.

Lemma int_of_digits_nonneg (s : pystr) (z : Z) :
  int_of_digits s = Some z -> (0 <= z)%Z.
Proof.
  intros H. apply int_of_digits_some in H. destruct H as [-> _].
  apply digits_value_nonneg.
Qed.

Lemma Qred_nonneg (q : Q) : (0 <= q)%Q -> (0 <= Qred q)%Q.
Proof.
  intros H. apply (Qle_trans _ q); [exact H | ].
  apply Qle_lteq. right. symmetry. apply Qred_correct.
Qed.

Lemma inject_Z_nonneg (z : Z) : (0 <= z)%Z -> (0 <= inject_Z z)%Q.
Proof. intros H. unfold Qle. cbn. lia. Qed.

Lemma float_of_decimal_nonneg (s : pystr) : (0 <= float_of_decimal s)%Q.
Proof.
  unfold float_of_decimal.
  destruct (split 46%N s) as [|ip [|fp rest]].
  - apply inject_Z_nonneg, digits_value_nonneg.
  - apply inject_Z_nonneg, digits_value_nonneg.
  - apply Qred_nonneg. unfold Qle. cbn [Qnum Qden].
    pose proof (digits_value_nonneg (ip ++ fp)). lia.
Qed.

Lemma detect_allergens_known (name : pystr) :
  incl (_detect_allergens name) (map fst ALLERGEN_KEYWORDS).
Proof.
  unfold _detect_allergens. intros tag H. apply in_map_iff in H.
  destruct H as [e [He Hin]]. apply filter_In in Hin.
  apply in_map_iff. exists e. tauto.
Qed.

Lemma parse_ingredient_line_invariant (line : pystr) (ing : ParsedIngredient) :
  _parse_ingredient_line line = Some ing ->
  In (ing_unit ing) unit_codes /\
  (0 <= num_Q (ing_value ing))%Q /\
  ing_amount ing = line /\
  ing_notes ing = [] /\
  incl (ing_allergens ing) (map fst ALLERGEN_KEYWORDS).
Proof.
  intros H. pose proof (parse_ingredient_line_cases line) as Hc.
  destruct (re_match ingredient_pattern line) as [m | ].
  - cbv zeta in Hc. rewrite Hc in H. inversion H; subst ing; clear H Hc.
    cbn [ing_unit ing_value ing_amount ing_notes ing_allergens].
    pose proof (normalize_unit_cases (group_or 2 m (u "шт"))) as Hu.
    remember (_normalize_unit (group_or 2 m (u "шт"))) as found eqn:Hf.
    clear Hf.
    pose proof (float_of_decimal_nonneg
                  (replace_cp (ch ",") (ch ".") (group_text 1 m))) as Hv.
    remember (float_of_decimal
                (replace_cp (ch ",") (ch ".") (group_text 1 m))) as q eqn:Hq.
    clear Hq.
    split; [ | split; [ | split; [reflexivity | split;
      [reflexivity | apply detect_allergens_known]]]].
    + cbn [In] in Hu.
      repeat (destruct Hu as [Hu | Hu];
              [subst found; apply str_in_iff; by_eval | ]).
      destruct Hu.
    + assert (Hm : (0 <= num_Q (snd found))%Q).
      { cbn [In] in Hu.
        repeat (destruct Hu as [Hu | Hu];
                [subst found; cbn; unfold Qle; cbn; lia | ]).
        destruct Hu. }
      destruct (negb (num_eqb (snd found) (Int 1))); [ | exact Hv].
      destruct (snd found) as [z | q'].
      * change (0 <= Qred (q * inject_Z z))%Q.
        apply Qred_nonneg, Qmult_le_0_compat; assumption.
      * change (0 <= Qred (q * q'))%Q.
        apply Qred_nonneg, Qmult_le_0_compat; assumption.
  - rewrite Hc in H. inversion H; subst ing; clear H Hc.
    cbn [ing_unit ing_value ing_amount ing_notes ing_allergens].
    split; [apply str_in_iff; by_eval | ].
    split; [unfold Qle; cbn; lia | ].
    split; [reflexivity | split; [reflexivity | apply detect_allergens_known]].
Qed.

(** X1: every ingredient record the parser returns has one of seven unit
    codes (never "mg", "ml", "tsp" or "tbsp"), empty notes and allergen
    tags among the fourteen categories; its quantity is not negative when
    no run of digits of its line has more than 308 digits, so that [float]
    of the number is finite. *)
Theorem parsed_ingredients_invariant (text : pystr) :
  Forall (fun ing =>
            In (ing_unit ing) unit_codes /\
            (digit_runs_within float_max_digits (ing_amount ing) = true ->
             (0 <= num_Q (ing_value ing))%Q) /\
            ing_notes ing = [] /\
            incl (ing_allergens ing) (map fst ALLERGEN_KEYWORDS))
         (parse_ingredients text) /\
  ~ In (u "mg") unit_codes /\ ~ In (u "ml") unit_codes /\
  ~ In (u "tsp") unit_codes /\ ~ In (u "tbsp") unit_codes.
Proof.
  split.
  - pose proof (map_some_forall _ _ _ (parse_ingredients_lines text)) as H.
    eapply Forall_impl; [ | exact H].
    intros ing [l [_ Hl]]. apply parse_ingredient_line_invariant in Hl. tauto.
  - repeat split; intros H; apply str_in_iff in H; vm_compute in H;
      discriminate.
Qed.

Lemma parsed_ingredients_invariant_witness :
  Forall (fun ing => (0 <= num_Q (ing_value ing))%Q)
         (parse_ingredients (u "2 кг сахара")).
Proof.
  pose proof (proj1 (parsed_ingredients_invariant (u "2 кг сахара"))) as H.
  remember (parse_ingredients (u "2 кг сахара")) as records eqn:E.
  vm_compute in E. subst records.
  inversion H as [|ing rest [_ [Hq _]] _]; subst.
  constructor; [ | constructor]. apply Hq. vm_compute. reflexivity.
Defined.

Lemma first_action_known (table : list (pystr * pystr)) (s : pystr) :
  In (first_action table s) (u "prepare" :: map snd table).
Proof.
  induction table as [|[keyword action] rest IH]; [left; reflexivity | ].
  cbn [first_action map snd]. destruct (contains keyword s).
  - right; left; reflexivity.
  - destruct IH as [IH | IH]; [left; exact IH | right; right; exact IH].
Qed.

Lemma extract_time_loop_nonneg (patterns : list pattern) (text : pystr)
  (r : option Z) :
  extract_time_loop patterns text = Some r -> opt_nonneg r.
Proof.
  induction patterns as [|[src rx] rest IH]; cbn [extract_time_loop].
  - intros H. inversion H. exact I.
  - destruct (re_search rx (lower text)) as [m | ]; [ | exact IH].
    destruct (int_of_digits (group_text 1 m)) as [a|] eqn:Ha;
      [ | destruct (contains (u "час") src);
          [ | destruct (lastindex m) as [[|[|[|j]]] | ]]; discriminate].
    apply int_of_digits_nonneg in Ha. cbn [bind].
    destruct (contains (u "час") src).
    { intros H. inversion H. cbn [opt_nonneg]. lia. }
    destruct (lastindex m) as [[|[|[|j]]] | ];
      try (intros H; inversion H; exact Ha).
    destruct (int_of_digits (group_text 2 m)) as [b|] eqn:Hb;
      [ | discriminate].
    apply int_of_digits_nonneg in Hb. cbn [bind].
    intros H. inversion H. cbn [opt_nonneg]. apply Z.div_pos; lia.
Qed.

Lemma extract_temperature_loop_nonneg (patterns : list pattern)
  (text : pystr) (r : option Z) :
  extract_temperature_loop patterns text = Some r -> opt_nonneg r.
Proof.
  induction patterns as [|[src rx] rest IH]; cbn [extract_temperature_loop].
  - intros H. inversion H. exact I.
  - destruct (re_search rx text) as [m | ]; [ | exact IH].
    destruct (int_of_digits (group_text 1 m)) as [a|] eqn:Ha;
      [ | discriminate].
    apply int_of_digits_nonneg in Ha. cbn [bind].
    intros H. inversion H. exact Ha.
Qed.

(** The records of the step parser, whenever it returns, are those of its
    lines. *)
Lemma parsed_steps_from_lines (text : pystr) (steps : list ParsedStep) :
  parse_steps text = Some steps ->
  Forall (fun step =>
            exists l time temp,
              In l (data_lines step_headings text) /\
              step = MkStep (re_sub_start bullet_pattern
                               (re_sub_start numbering_pattern l))
                            (_detect_action
                               (re_sub_start bullet_pattern
                                  (re_sub_start numbering_pattern l)))
                            time temp /\
              _extract_time
                (re_sub_start bullet_pattern
                   (re_sub_start numbering_pattern l)) = Some time /\
              _extract_temperature
                (re_sub_start bullet_pattern
                   (re_sub_start numbering_pattern l)) = Some temp)
         steps.
Proof.
  intros H. apply parse_steps_lines in H.
  rewrite <- (map_map Some Some) in H.
  apply map_some_forall in H. rewrite Forall_map in H.
  eapply Forall_impl; [ | exact H].
  intros step [l [Hin Hl]].
  destruct (parse_step_line_cases
              (re_sub_start bullet_pattern (re_sub_start numbering_pattern l)))
    as [Hn | [time [temp [Ht [Hc Hs]]]]].
  - rewrite Hn in Hl. discriminate.
  - rewrite Hs in Hl. inversion Hl. exists l, time, temp. auto.
Qed.

(** X2: every step record the parser returns has an action among the eighteen
    tags, and a time and a temperature that are not negative when present
    (a sign before the number is not read). *)
Theorem parsed_steps_invariant (text : pystr) (steps : list ParsedStep) :
  parse_steps text = Some steps ->
  Forall (fun step =>
            In (step_action step) action_tags /\
            opt_nonneg (time_minutes step) /\
            opt_nonneg (temperature_c step))
         steps.
Proof.
  intros H. apply parsed_steps_from_lines in H.
  eapply Forall_impl; [ | exact H].
  intros step [l [time [temp [_ [-> [Ht Hc]]]]]].
  cbn [step_action time_minutes temperature_c].
  split; [ | split].
  - assert (Hincl : incl (u "prepare" :: map snd ACTION_MAPPING) action_tags)
      by (apply incl_by_eval; by_eval).
    apply Hincl. unfold _detect_action. apply first_action_known.
  - apply (extract_time_loop_nonneg _ _ Ht).
  - apply (extract_temperature_loop_nonneg _ _ Hc).
Qed.

Lemma parsed_steps_invariant_witness :
  Forall (fun step =>
            In (step_action step) action_tags /\
            opt_nonneg (time_minutes step) /\
            opt_nonneg (temperature_c step))
         [MkStep (u "Варить 10 минут") (u "boil") (Some 10%Z) None].
Proof.
  apply (@parsed_steps_invariant (u "Варить 10 минут")).
  vm_compute. reflexivity.
Defined.

(* ================================================================== *)
(** ** Allergen detection *)
(* ================================================================== *)

Lemma lower_app (a b : pystr) : lower (a ++ b) = lower a ++ lower b.
Proof. unfold lower. apply flat_map_app. Qed.

Lemma contains_app_l (k a b : pystr) :
  contains k a = true -> contains k (a ++ b) = true.
Proof.
  rewrite !contains_iff. intros [x [y ->]]. exists x, (y ++ b).
  rewrite <- !app_assoc. reflexivity.
Qed.

Lemma contains_app_r (k a b : pystr) :
  contains k b = true -> contains k (a ++ b) = true.
Proof.
  rewrite !contains_iff. intros [x [y ->]]. exists (a ++ x), y.
  rewrite <- !app_assoc. reflexivity.
Qed.

Lemma detect_allergens_in (tag name : pystr) :
  In tag (_detect_allergens name) <->
  exists keywords,
    In (tag, keywords) ALLERGEN_KEYWORDS /\
    existsb (fun keyword => contains keyword (lower name)) keywords = true.
Proof.
  unfold _detect_allergens. rewrite in_map_iff. split.
  - intros [[t kws] [Ht Hin]]. cbn [fst] in Ht. subst t.
    apply filter_In in Hin. exists kws. exact Hin.
  - intros [kws [Hin Hk]]. exists (tag, kws). split; [reflexivity | ].
    apply filter_In. split; [exact Hin | exact Hk].
Qed.

Lemma existsb_contains_mono (keywords : list pystr) (s t : pystr) :
  (forall k, contains k s = true -> contains k t = true) ->
  existsb (fun keyword => contains keyword s) keywords = true ->
  existsb (fun keyword => contains keyword t) keywords = true.
Proof.
  intros Hst H. apply existsb_exists in H. destruct H as [k [Hin Hk]].
  apply existsb_exists. exists k. split; [exact Hin | apply Hst, Hk].
Qed.

(** X3: allergen detection only grows with the name: every tag found for a
    name is found for any longer name that starts or ends with it, so adding
    words never removes a tag. *)
Theorem detect_allergens_monotone (a b : pystr) :
  incl (_detect_allergens a) (_detect_allergens (a ++ b)) /\
  incl (_detect_allergens b) (_detect_allergens (a ++ b)).
Proof.
  split; intros tag H; apply detect_allergens_in in H;
    destruct H as [kws [Hin Hk]]; apply detect_allergens_in; exists kws;
    (split; [exact Hin | ]); rewrite lower_app;
    (eapply existsb_contains_mono; [ | exact Hk]); intros k Hc.
  - apply contains_app_l, Hc.
  - apply contains_app_r, Hc.
Qed.

(** Keeping some entries of a table whose keys are distinct leaves the
    keys distinct. *)
Lemma kept_keys_distinct {K V} (keep : K * V -> bool)
  (table : list (K * V)) (Hkeys : NoDup (map fst table)) :
  NoDup (map fst (filter keep table)).
Proof.
  induction table as [|entry table IH]; [constructor | ].
  apply NoDup_cons_iff in Hkeys. destruct Hkeys as [Hnew Hold].
  cbn [filter]. destruct (keep entry); [ | exact (IH Hold)].
  cbn [map]. apply NoDup_cons; [ | exact (IH Hold)].
  intros Hin. apply Hnew. apply in_map_iff in Hin.
  destruct Hin as [other [Hkey Hin]]. apply filter_In in Hin.
  apply in_map_iff. exists other. tauto.
Qed.

(** X4: the tags of a name come without repetition, and a name tagged
    "lactose" is always tagged "milk" as well: every lactose keyword is a
    milk keyword. *)
Theorem detect_allergens_lactose_implies_milk (name : pystr) :
  NoDup (_detect_allergens name) /\
  (In (u "lactose") (_detect_allergens name) ->
   In (u "milk") (_detect_allergens name)).
Proof.
  split.
  - unfold _detect_allergens. apply kept_keys_distinct.
    apply nodupb_sound. by_eval.
  - intros H. apply detect_allergens_in in H. destruct H as [kws [Hin Hk]].
    apply detect_allergens_in.
    exists [u "молоко"; u "сливки"; u "сметана"; u "йогурт"; u "кефир";
            u "творог"; u "сыр"; u "масло сливочное"].
    split; [left; reflexivity | ].
    assert (Hkws : kws = [u "молоко"; u "сливки"; u "сметана"; u "йогурт";
                          u "кефир"]).
    { unfold ALLERGEN_KEYWORDS in Hin. cbn [In] in Hin.
      repeat (destruct Hin as [Hin | Hin];
              [first [injection Hin as Ht Hl; vm_compute in Ht;
                      discriminate Ht
                     | injection Hin as Hl; symmetry; exact Hl] | ]).
      destruct Hin. }
    subst kws. cbn [existsb] in Hk |- *.
    repeat rewrite orb_true_iff in Hk. repeat rewrite orb_true_iff.
    tauto.
Qed.

Lemma detect_allergens_lactose_implies_milk_witness :
  In (u "milk") (_detect_allergens (u "Кефир 1%")).
Proof.
  apply (detect_allergens_lactose_implies_milk (u "Кефир 1%")).
  vm_compute. right. left. reflexivity.
Defined.

(* ================================================================== *)
(** ** The meta section and the empty recipe *)
(* ================================================================== *)

Lemma truthy_of_int (p : Z) :
  truthy (of_opt_int (Some p)) = negb (p =? 0)%Z.
Proof. destruct p; reflexivity. Qed.

Lemma dict_get_set_same (d : dict) (k : pystr) (v : pyval) :
  dict_get (dict_set d k v) k = Some v.
Proof.
  induction d as [|[k' v'] d IH]; cbn [dict_set dict_get].
  - rewrite str_eqb_refl. reflexivity.
  - destruct (str_eqb k' k) eqn:E; cbn [dict_get]; rewrite E;
      [reflexivity | exact IH].
Qed.

Lemma create_meta_times (o : Outside) (name desc serv : pyval)
  (pt ct : option Z) (diff cui : pystr) (auth labels : pyval) :
  let meta :=
    dict_set (_create_meta o name desc serv pt ct diff cui auth)
             (u "diet_labels") labels in
  dict_get meta (u "prep_time_minutes") =
    match pt with
    | Some p => if (p =? 0)%Z then None else Some (PNum (Int p))
    | None => None
    end /\
  dict_get meta (u "cook_time_minutes") =
    match ct with
    | Some c => if (c =? 0)%Z then None else Some (PNum (Int c))
    | None => None
    end /\
  dict_get meta (u "total_time_minutes") =
    match pt, ct with
    | Some p, Some c =>
        if (p =? 0)%Z || (c =? 0)%Z then None else Some (PNum (Int (p + c)))
    | _, _ => None
    end /\
  dict_get meta (u "servings") =
    (if truthy serv
     then Some (PDict [ (u "amount", serv); (u "unit", PStr (u "portions"));
                        (u "adjustable", PBool true) ])
     else None) /\
  dict_get meta (u "description") = (if truthy desc then Some desc else None).
Proof.
  unfold _create_meta.
  destruct pt as [p|], ct as [c|]; rewrite ?truthy_of_int;
    try destruct (p =? 0)%Z; try destruct (c =? 0)%Z;
    destruct (truthy desc), (truthy serv), (truthy (PStr cui));
    vm_compute; repeat split; reflexivity.
Qed.

(** X5: in every document [convert] returns, the preparation and cooking
    times appear only when given and not zero, the total time only when
    both do and then as their sum, the servings block and the description
    only when their arguments are not empty or zero. *)
Theorem convert_meta_times (o : Outside) (name : pyval)
  (it st : option pystr) (desc serv : pyval) (pt ct : option Z)
  (diff cui : pystr) (auth : pyval) (url : pystr) (recipe : pyval) :
  convert o name it st desc serv pt ct diff cui auth url = Some recipe ->
  exists meta,
    field (u "meta") recipe = Some meta /\
    field (u "prep_time_minutes") meta =
      match pt with
      | Some p => if (p =? 0)%Z then None else Some (PNum (Int p))
      | None => None
      end /\
    field (u "cook_time_minutes") meta =
      match ct with
      | Some c => if (c =? 0)%Z then None else Some (PNum (Int c))
      | None => None
      end /\
    field (u "total_time_minutes") meta =
      match pt, ct with
      | Some p, Some c =>
          if (p =? 0)%Z || (c =? 0)%Z then None
          else Some (PNum (Int (p + c)))
      | _, _ => None
      end /\
    field (u "servings") meta =
      (if truthy serv
       then Some (PDict [ (u "amount", serv); (u "unit", PStr (u "portions"));
                          (u "adjustable", PBool true) ])
       else None) /\
    field (u "description") meta = (if truthy desc then Some desc else None).
Proof.
  intros H. apply convert_returned in H.
  destruct H as [labels [parsed [_ [_ ->]]]].
  eexists. split; [reflexivity | ].
  apply create_meta_times.
Qed.

Lemma convert_meta_times_witness :
  exists recipe meta,
    convert (MkOutside (u "id") (u "t1") (u "t2")) (PStr (u "Суп"))
      (Some (u "Соль")) (Some (u "Варить 10 минут")) (PStr [])
      (PNum (Int 4)) (Some 10%Z) (Some 0%Z) (u "intermediate") []
      (PStr (u "Web Source")) [] = Some recipe /\
    field (u "meta") recipe = Some meta /\
    field (u "prep_time_minutes") meta = Some (PNum (Int 10)) /\
    field (u "cook_time_minutes") meta = None /\
    field (u "total_time_minutes") meta = None.
Proof.
  destruct (convert (MkOutside (u "id") (u "t1") (u "t2")) (PStr (u "Суп"))
              (Some (u "Соль")) (Some (u "Варить 10 минут")) (PStr [])
              (PNum (Int 4)) (Some 10%Z) (Some 0%Z) (u "intermediate") []
              (PStr (u "Web Source")) []) as [recipe|] eqn:E;
    [ | vm_compute in E; discriminate E].
  destruct (convert_meta_times _ _ _ _ _ _ _ _ _ _ _ _ E)
    as [meta [Hm [Hp [Hc [Ht _]]]]].
  exists recipe, meta. auto.
Defined.

(** X6: with no ingredient line (no text, an empty text, or only blank and
    heading lines) the document [convert] returns has no ingredient, carries
    all three labels "gluten-free", "dairy-free" and "nut-free", and is
    accepted by [validate]; a document is returned when no run of digits of
    the steps text is beyond the limit of [int]. *)
Theorem convert_without_ingredients (o : Outside) (name : pyval)
  (it st : option pystr) (desc serv : pyval) (pt ct : option Z)
  (diff cui : pystr) (auth : pyval) (url : pystr) :
  data_lines ingredient_headings (text_or_empty it) = [] ->
  (forall recipe,
     convert o name it st desc serv pt ct diff cui auth url = Some recipe ->
     exists meta,
       field (u "ingredients") recipe = Some (PList []) /\
       field (u "meta") recipe = Some meta /\
       field (u "diet_labels") meta =
         Some (PList [ PStr (u "gluten-free"); PStr (u "dairy-free");
                       PStr (u "nut-free") ]) /\
       validate recipe = Some (true, [])) /\
  (digit_runs_within int_max_str_digits (text_or_empty st) = true ->
   exists recipe,
     convert o name it st desc serv pt ct diff cui auth url = Some recipe).
Proof.
  intros Hlines. split; [ | apply convert_returns].
  intros recipe H. apply convert_returned in H.
  destruct H as [labels [parsed [Hl [_ ->]]]].
  assert (Hp : parse_ingredients (text_or_empty it) = []).
  { apply length_zero_iff_nil. rewrite parse_ingredients_length, Hlines.
    reflexivity. }
  rewrite Hp in Hl |- *.
  assert (Hlabels : labels = [u "gluten-free"; u "dairy-free"; u "nut-free"]).
  { vm_compute in Hl. inversion Hl. reflexivity. }
  subst labels.
  eexists.
  split; [reflexivity | ].
  split; [reflexivity | ].
  split; [apply dict_get_set_same | ].
  apply validate_recipe_lit. reflexivity.
Qed.

Lemma convert_without_ingredients_witness :
  exists recipe meta,
    convert (MkOutside (u "id") (u "t1") (u "t2")) (PStr (u "Чай"))
      (Some (u "Ингредиенты:")) None (PStr []) (PNum (Int 4)) None None
      (u "intermediate") [] (PStr (u "Web Source")) [] = Some recipe /\
    field (u "ingredients") recipe = Some (PList []) /\
    field (u "meta") recipe = Some meta /\
    field (u "diet_labels") meta =
      Some (PList [ PStr (u "gluten-free"); PStr (u "dairy-free");
                    PStr (u "nut-free") ]) /\
    validate recipe = Some (true, []).
Proof.
  destruct (@convert_without_ingredients
              (MkOutside (u "id") (u "t1") (u "t2"))
              (PStr (u "Чай")) (Some (u "Ингредиенты:")) None (PStr [])
              (PNum (Int 4)) None None (u "intermediate") []
              (PStr (u "Web Source")) []) as [Hdoc Hret].
  - vm_compute. reflexivity.
  - destruct Hret as [recipe Hr]; [vm_compute; reflexivity | ].
    destruct (Hdoc recipe Hr) as [meta H].
    exists recipe, meta. split; [exact Hr | exact H].
Defined.

(* ================================================================== *)
(** ** The two validators *)
(* ================================================================== *)

Lemma rcip_fields_present_true (recipe : pyval) (fields : list pystr) :
  rcip_fields_present fields recipe = Some true <->
  forallb (fun f => present f recipe) fields = true.
Proof.
  induction fields as [|f rest IH]; cbn [rcip_fields_present forallb].
  - tauto.
  - unfold present at 1.
    destruct (py_in f recipe) as [[|]|]; cbn [bind negb andb].
    + exact IH.
    + split; discriminate.
    + split; discriminate.
Qed.

Lemma rcip_allergens_present_true (items : list pyval) :
  rcip_allergens_present items = Some true <->
  forallb (present (u "allergens")) items = true.
Proof.
  induction items as [|ing rest IH]; cbn [rcip_allergens_present forallb].
  - tauto.
  - unfold present at 1.
    destruct (py_in (u "allergens") ing) as [[|]|]; cbn [bind negb andb].
    + exact IH.
    + destruct (py_get ing (u "name") PNone); cbn [bind]; split; discriminate.
    + split; discriminate.
Qed.

Lemma check_required_all_present (recipe : pyval) (fields : list pystr) :
  forallb (fun f => present f recipe) fields = true ->
  forall errors, check_required fields recipe errors = Some errors.
Proof.
  induction fields as [|f rest IH]; intros H errors; [reflexivity | ].
  cbn [forallb] in H. andb_split H Hf Hrest.
  cbn [check_required]. unfold present in Hf.
  destruct (py_in f recipe) as [[|]|]; try discriminate.
  cbn [bind negb]. apply IH, Hrest.
Qed.

Lemma no_violation_all_present (items : list pyval) :
  forall n,
    filter (fun '(_, ing) => negb (present (u "allergens") ing))
           (enumerate_from n items) = [] ->
    forallb (present (u "allergens")) items = true.
Proof.
  induction items as [|ing rest IH]; intros n H; [reflexivity | ].
  cbn [enumerate_from filter] in H. cbn [forallb].
  destruct (present (u "allergens") ing); cbn [negb] in H;
    [apply (IH _ H) | discriminate].
Qed.

Lemma no_missing_all_present (recipe : pyval) (fields : list pystr) :
  filter (fun f => negb (present f recipe)) fields = [] ->
  forallb (fun f => present f recipe) fields = true.
Proof.
  induction fields as [|f rest IH]; intros H; [reflexivity | ].
  cbn [filter] in H. cbn [forallb].
  destruct (present f recipe); cbn [negb] in H; [apply (IH H) | discriminate].
Qed.

(** X7: the validator of the agent, which stops at the first fault, and
    the validator of the converter, which lists them all, accept the same
    documents; every document [convert] returns is accepted by the
    agent's. *)
Theorem validators_accept_the_same (recipe : pyval) (o : Outside)
  (name : pyval) (it st : option pystr) (desc serv : pyval)
  (pt ct : option Z) (diff cui : pystr) (auth : pyval) (url : pystr) :
  (validate_rcip recipe = Some true <-> validate recipe = Some (true, [])) /\
  (forall converted,
     convert o name it st desc serv pt ct diff cui auth url = Some converted ->
     validate_rcip converted = Some true).
Proof.
  assert (Hiff : forall r,
            validate_rcip r = Some true <-> validate r = Some (true, [])).
  { intros r. split.
    - unfold validate_rcip. intros H.
      apply bind_some in H. destruct H as [ok [Hok H]].
      destruct ok; cbn [negb] in H; [ | discriminate].
      apply bind_some in H. destruct H as [v [Hv H]].
      apply bind_some in H. destruct H as [items [Hi H]].
      apply rcip_fields_present_true in Hok.
      apply rcip_allergens_present_true in H.
      unfold validate.
      rewrite (check_required_all_present r required_fields Hok). cbn [bind].
      rewrite Hv. cbn [bind]. rewrite Hi. cbn [bind]. unfold enumerate.
      rewrite (check_allergens_all_present items H). reflexivity.
    - intros H. apply validate_reports_all in H.
      destruct H as [v [items [Hv [Hi [He _]]]]].
      unfold violations in He. symmetry in He.
      apply app_eq_nil in He. destruct He as [He1 He2].
      apply map_eq_nil in He1. apply map_eq_nil in He2.
      apply no_missing_all_present in He1.
      apply (no_violation_all_present items 0) in He2.
      unfold validate_rcip.
      rewrite (proj2 (rcip_fields_present_true r agent_required_fields) He1).
      cbn [bind negb]. rewrite Hv. cbn [bind]. rewrite Hi. cbn [bind].
      apply rcip_allergens_present_true, He2. }
  split; [apply Hiff | ].
  intros converted H. apply convert_returned in H.
  destruct H as [labels [parsed [_ [_ ->]]]].
  apply Hiff, validate_recipe_lit, (rcip_ingredients_have_allergens _ 0).
Qed.

Lemma validators_accept_the_same_witness :
  validate_rcip (PDict [ (u "id", PStr (u "rcip-1")) ]) <> Some true /\
  exists converted,
    convert (MkOutside (u "id") (u "t1") (u "t2")) (PStr (u "Суп"))
      (Some (u "Соль")) (Some (u "Варить 10 минут")) (PStr [])
      (PNum (Int 4)) None None (u "intermediate") []
      (PStr (u "Web Source")) [] = Some converted /\
    validate_rcip converted = Some true.
Proof.
  destruct (validators_accept_the_same
              (PDict [ (u "id", PStr (u "rcip-1")) ])
              (MkOutside (u "id") (u "t1") (u "t2")) (PStr (u "Суп"))
              (Some (u "Соль")) (Some (u "Варить 10 минут")) (PStr [])
              (PNum (Int 4)) None None (u "intermediate") []
              (PStr (u "Web Source")) []) as [Hiff Hdoc].
  split.
  - intros H. apply Hiff in H. vm_compute in H. discriminate H.
  - destruct (convert (MkOutside (u "id") (u "t1") (u "t2")) (PStr (u "Суп"))
                (Some (u "Соль")) (Some (u "Варить 10 минут")) (PStr [])
                (PNum (Int 4)) None None (u "intermediate") []
                (PStr (u "Web Source")) []) as [converted|] eqn:E;
      [ | vm_compute in E; discriminate E].
    exists converted. split; [reflexivity | apply Hdoc; reflexivity].
Defined.


(* ================================================================== *)
(** ** Lines: joining, splitting and what the records keep *)
(* ================================================================== *)

Lemma no_lf_cons (c : cp) (l : pystr) :
  no_lf (c :: l) = true -> cp_eqb c LF = false /\ no_lf l = true.
Proof.
  unfold no_lf. cbn [existsb]. rewrite negb_true_iff, orb_false_iff.
  intros [Hc Hl]. split.
  - unfold cp_eqb in *. rewrite N.eqb_sym. exact Hc.
  - rewrite Hl. reflexivity.
Qed.

Lemma split_no_lf (l : pystr) : no_lf l = true -> split LF l = [l].
Proof.
  induction l as [|c l IH]; intros H; [reflexivity | ].
  apply no_lf_cons in H. destruct H as [Hc Hl].
  cbn [split]. rewrite Hc, (IH Hl). reflexivity.
Qed.

Lemma split_app_lf (l rest : pystr) :
  no_lf l = true -> split LF (l ++ LF :: rest) = l :: split LF rest.
Proof.
  induction l as [|c l IH]; intros H.
  - cbn [app split]. unfold cp_eqb. rewrite N.eqb_refl. reflexivity.
  - apply no_lf_cons in H. destruct H as [Hc Hl].
    cbn [app split]. rewrite Hc, (IH Hl). reflexivity.
Qed.

Lemma split_join_lines (l : pystr) (ls : list pystr) :
  forallb no_lf (l :: ls) = true ->
  split LF (join newline (l :: ls)) = l :: ls.
Proof.
  revert l. induction ls as [|l2 ls IH]; intros l H.
  - cbn [forallb] in H. andb_split H Hl Hnil. apply split_no_lf, Hl.
  - cbn [forallb] in H. andb_split H Hl Hrest.
    change (join newline (l :: l2 :: ls))
      with (l ++ LF :: join newline (l2 :: ls)).
    rewrite split_app_lf by exact Hl. rewrite (IH l2 Hrest). reflexivity.
Qed.

Lemma stripped_lines_join (ss : list pystr) :
  forallb no_lf ss = true ->
  stripped_lines (join newline ss) =
  map strip (filter (fun line => negb (str_eqb (strip line) [])) ss).
Proof.
  intros H. destruct ss as [|l ls]; [reflexivity | ].
  unfold stripped_lines. rewrite split_join_lines by exact H. reflexivity.
Qed.

Lemma map_some_map {A B C} (f : B -> option A) (g : A -> C) (h : B -> C)
  (xs : list A) :
  (forall l x, f l = Some x -> g x = h l) ->
  forall ls, map Some xs = map f ls -> map g xs = map h ls.
Proof.
  intros Hf. induction xs as [|x xs IH]; intros [|l ls] H;
    try discriminate; [reflexivity | ].
  cbn [map] in *. inversion H as [[Hx Hrest]].
  rewrite (Hf l x (eq_sym Hx)), (IH ls Hrest). reflexivity.
Qed.

Lemma map_some_some_map {A B C} (f : B -> option (option A)) (g : A -> C)
  (h : B -> C) (xs : list A) :
  (forall l x, f l = Some (Some x) -> g x = h l) ->
  forall ls, map (fun x => Some (Some x)) xs = map f ls ->
  map g xs = map h ls.
Proof.
  intros Hf. induction xs as [|x xs IH]; intros [|l ls] H;
    try discriminate; [reflexivity | ].
  cbn [map] in *. inversion H as [[Hx Hrest]].
  rewrite (Hf l x (eq_sym Hx)), (IH ls Hrest). reflexivity.
Qed.

Lemma records_keep_their_lines_aux (text : pystr) :
  map ing_amount (parse_ingredients text) =
    map (re_sub_start bullet_pattern) (data_lines ingredient_headings text) /\
  (forall steps,
     parse_steps text = Some steps ->
     map step_text steps =
       map (fun l => re_sub_start bullet_pattern
                       (re_sub_start numbering_pattern l))
           (data_lines step_headings text)).
Proof.
  split.
  - apply (map_some_map
             (fun l => _parse_ingredient_line (re_sub_start bullet_pattern l)));
      [ | apply parse_ingredients_lines].
    intros l ing H. apply parse_ingredient_line_invariant in H. tauto.
  - intros steps H. apply parse_steps_lines in H.
    apply (map_some_some_map
             (fun l => _parse_step_line
                         (re_sub_start bullet_pattern
                            (re_sub_start numbering_pattern l))));
      [ | exact H].
    intros l step Hx.
    destruct (parse_step_line_cases
                (re_sub_start bullet_pattern
                   (re_sub_start numbering_pattern l)))
      as [Hn | [time [temp [_ [_ Hs]]]]].
    + rewrite Hn in Hx. discriminate.
    + rewrite Hs in Hx. inversion Hx. reflexivity.
Qed.

(** X8: each record keeps its source line: the amount text of the i-th
    ingredient record and the text of the i-th step record the step parser
    returns are the i-th data line of the input, stripped and without its
    bullet or number, whether or not anything else was recognised in
    it. *)
Theorem records_keep_their_lines (text : pystr) :
  map ing_amount (parse_ingredients text) =
    map (re_sub_start bullet_pattern) (data_lines ingredient_headings text) /\
  (forall steps,
     parse_steps text = Some steps ->
     map step_text steps =
       map (fun l => re_sub_start bullet_pattern
                       (re_sub_start numbering_pattern l))
           (data_lines step_headings text)).
Proof. apply records_keep_their_lines_aux. Qed.

Lemma records_keep_their_lines_witness :
  option_map (map step_text) (parse_steps (u "1. Варить 10 минут")) =
    Some [u "Варить 10 минут"].
Proof.
  destruct (parse_steps (u "1. Варить 10 минут")) as [steps|] eqn:E;
    [ | vm_compute in E; discriminate E].
  cbn [option_map].
  rewrite (proj2 (records_keep_their_lines (u "1. Варить 10 минут"))
             steps E).
  vm_compute. reflexivity.
Defined.

(** X9: the Schema.org adapter joins the recipeIngredient strings with line
    feeds and parses the text: when no string holds a line feed, the
    records are, in order, those of the strings that are neither blank nor
    headings, so K strings give at most K records, and exactly K when
    none is blank or a heading. *)
Theorem joined_strings_give_one_record_each (ss : list pystr) :
  forallb no_lf ss = true ->
  let kept :=
    filter (fun line => negb (startswith_any ingredient_headings (lower line)))
           (map strip
                (filter (fun line => negb (str_eqb (strip line) [])) ss)) in
  map ing_amount (parse_ingredients (join newline ss)) =
    map (re_sub_start bullet_pattern) kept /\
  (length (parse_ingredients (join newline ss)) <= length ss)%nat /\
  (forallb (fun line => negb (str_eqb (strip line) []) &&
                        negb (startswith_any ingredient_headings
                                (lower (strip line)))) ss = true ->
   length (parse_ingredients (join newline ss)) = length ss).
Proof.
  intros H kept.
  assert (Hd : data_lines ingredient_headings (join newline ss) = kept).
  { unfold data_lines. rewrite stripped_lines_join by exact H. reflexivity. }
  split; [ | split].
  - rewrite (proj1 (records_keep_their_lines_aux (join newline ss))), Hd.
    reflexivity.
  - rewrite parse_ingredients_length, Hd. unfold kept.
    eapply Nat.le_trans; [apply filter_length_le | ].
    rewrite length_map. apply filter_length_le.
  - intros Hall. rewrite parse_ingredients_length, Hd. unfold kept.
    clear H Hd kept. induction ss as [|l ls IH]; [reflexivity | ].
    cbn [forallb] in Hall. andb_split Hall Hl Hrest. andb_split Hl Hb Hh.
    cbn [filter]. rewrite Hb. cbn [map filter]. rewrite Hh.
    cbn [length]. f_equal. apply IH, Hrest.
Qed.

Lemma joined_strings_give_one_record_each_witness :
  length (parse_ingredients
            (join newline [u "2 помидора"; u "100г феты"; u "Соль"])) = 3%nat.
Proof.
  apply (joined_strings_give_one_record_each
           [u "2 помидора"; u "100г феты"; u "Соль"]).
  - vm_compute. reflexivity.
  - vm_compute. reflexivity.
Defined.

(* ================================================================== *)
(** ** What a greedy run of digits captures *)
(* ================================================================== *)

Lemma star_greedy_only {A} (p : cp -> bool) (k : pystr -> option A) :
  (forall c t, p c = true -> k (c :: t) = None) ->
  forall s, star p s k = k (lstrip_by p s).
Proof.
  intros Hk. induction s as [|c s IH]; [reflexivity | ].
  cbn [star lstrip_by]. destruct (p c) eqn:Hc; [ | reflexivity].
  rewrite IH, (Hk c s Hc). destruct (k (lstrip_by p s)); reflexivity.
Qed.

Lemma star_first {A} (p : cp -> bool) (k : pystr -> option A) (r : A) :
  forall s, k (lstrip_by p s) = Some r -> star p s k = Some r.
Proof.
  induction s as [|c s IH]; intros H; [exact H | ].
  cbn [star lstrip_by] in *. destruct (p c); [ | exact H].
  rewrite (IH H). reflexivity.
Qed.

Lemma lstrip_run (p : cp -> bool) (a rest : pystr) :
  forallb p a = true -> starts_without p rest = true ->
  lstrip_by p (a ++ rest) = rest.
Proof.
  intros Ha Hr. induction a as [|c a IH].
  - destruct rest as [|c rest]; [reflexivity | ].
    cbn [app lstrip_by]. cbn [starts_without] in Hr.
    apply negb_true_iff in Hr. rewrite Hr. reflexivity.
  - cbn [forallb] in Ha. andb_split Ha Hc Ha.
    cbn [app lstrip_by]. rewrite Hc. apply IH, Ha.
Qed.

Section DigitsThenLiteral.

(** The pattern ["(\d+)" + l] for a literal [l] that starts with a
    character that is not a digit. *)
Variables (x : cp) (l' : pystr).
Hypothesis Hx : is_digit x = false.

Lemma literal_fails_on_digit (s : pystr) (c : cp) (t : pystr) :
  is_digit c = true ->
  match drop_prefix (x :: l') (c :: t) with
  | Some s' => Some (MkMatch [(1%nat, consumed s (c :: t))] s')
  | None => None
  end = None.
Proof.
  intros Hc. cbn [drop_prefix]. destruct (cp_eqb x c) eqn:E; [ | reflexivity].
  apply cp_eqb_eq in E. subst c. rewrite Hx in Hc. discriminate.
Qed.

Lemma digits_literal_match (h rest : pystr) :
  h <> [] -> forallb is_digit h = true ->
  re_match (Grp 1 (Plus is_digit) &> Lit (x :: l')) (h ++ (x :: l') ++ rest) = Some (MkMatch [(1%nat, h)] rest).
Proof.
  intros Hne Hh. destruct h as [|c a]; [contradiction | ].
  cbn [forallb] in Hh. andb_split Hh Hc Ha.
  unfold re_match, Plus. cbn [rmatch app]. rewrite Hc.
  rewrite star_greedy_only
    by (intros c' t Hc'; apply literal_fails_on_digit, Hc').
  rewrite lstrip_run;
    [ | exact Ha | cbn [starts_without app]; rewrite Hx; reflexivity].
  change (x :: l' ++ rest) with ((x :: l') ++ rest).
  rewrite drop_prefix_app.
  change (c :: a ++ (x :: l') ++ rest) with ((c :: a) ++ (x :: l') ++ rest).
  rewrite consumed_app. reflexivity.
Qed.

Lemma digits_literal_no_match (a y : pystr) :
  forallb is_digit a = true -> starts_without is_digit y = true ->
  drop_prefix (x :: l') y = None ->
  re_match (Grp 1 (Plus is_digit) &> Lit (x :: l')) (a ++ y) = None.
Proof.
  intros Ha Hy Hd. destruct a as [|c a].
  - cbn [app]. unfold re_match, Plus. cbn [rmatch].
    destruct y as [|c y]; [reflexivity | ].
    cbn [starts_without] in Hy. apply negb_true_iff in Hy. rewrite Hy.
    reflexivity.
  - cbn [forallb] in Ha. andb_split Ha Hc Ha.
    unfold re_match, Plus. cbn [rmatch app]. rewrite Hc.
    rewrite star_greedy_only
      by (intros c' t Hc'; apply literal_fails_on_digit, Hc').
    rewrite lstrip_run by assumption. rewrite Hd. reflexivity.
Qed.

Lemma search_skips_run (a y : pystr) :
  forallb is_digit a = true -> starts_without is_digit y = true ->
  drop_prefix (x :: l') y = None ->
  re_search (Grp 1 (Plus is_digit) &> Lit (x :: l')) (a ++ y) = re_search (Grp 1 (Plus is_digit) &> Lit (x :: l')) y.
Proof.
  intros Ha Hy Hd. induction a as [|c a IH]; [reflexivity | ].
  pose proof (digits_literal_no_match (c :: a) y Ha Hy Hd) as Hm.
  cbn [forallb] in Ha. andb_split Ha Hc Ha'.
  cbn [app re_search] in *. rewrite Hm. apply IH, Ha'.
Qed.

Lemma search_skips_char (c : cp) (s : pystr) :
  is_digit c = false -> re_search (Grp 1 (Plus is_digit) &> Lit (x :: l')) (c :: s) = re_search (Grp 1 (Plus is_digit) &> Lit (x :: l')) s.
Proof.
  intros Hc. cbn [re_search].
  replace (re_match (Grp 1 (Plus is_digit) &> Lit (x :: l')) (c :: s)) with (@None match_obj); [reflexivity | ].
  unfold re_match, Plus. cbn [rmatch]. rewrite Hc. reflexivity.
Qed.

Lemma search_hits (h rest : pystr) :
  h <> [] -> forallb is_digit h = true ->
  re_search (Grp 1 (Plus is_digit) &> Lit (x :: l')) (h ++ (x :: l') ++ rest) = Some (MkMatch [(1%nat, h)] rest).
Proof.
  intros Hne Hh. pose proof (digits_literal_match rest Hne Hh) as Hm.
  destruct h as [|c a]; [contradiction | ].
  cbn [app re_search] in *. rewrite Hm. reflexivity.
Qed.

End DigitsThenLiteral.

Lemma search_nothing (r : regex) :
  re_match r [] = None -> re_search r [] = None.
Proof. intros H. cbn [re_search]. rewrite H. reflexivity. Qed.

Lemma group_text_1 (t rest : pystr) :
  group_text 1 (MkMatch [(1%nat, t)] rest) = t.
Proof. reflexivity. Qed.

Lemma iso_duration_shape (s : pystr) :
  s <> [] ->
  _parse_iso_duration (PStr s) =
    (minutes <-
       match re_search hours_pattern s with
       | Some hours_match =>
           hours <- int_of_digits (group_text 1 hours_match) ;;
           Some (0 + hours * 60)%Z
       | None => Some 0%Z
       end ;;
     minutes <-
       match re_search minutes_pattern s with
       | Some minutes_match =>
           mins <- int_of_digits (group_text 1 minutes_match) ;;
           Some (minutes + mins)%Z
       | None => Some minutes
       end ;;
     Some (positive_or_none minutes)).
Proof.
  intros Hs. destruct s as [|c s]; [contradiction | ].
  unfold _parse_iso_duration, positive_or_none. cbn [truthy negb str_eqb].
  reflexivity.
Qed.

Section IsoDuration.

Variables h m : pystr.
Hypothesis Hh : h <> [].
Hypothesis Hm : m <> [].
Hypothesis Dh : forallb is_digit h = true.
Hypothesis Dm : forallb is_digit m = true.

Lemma iso_hours_and_minutes :
  _parse_iso_duration (PStr (u "PT" ++ h ++ u "H" ++ m ++ u "M")) =
    (hours <- int_of_digits h ;;
     mins <- int_of_digits m ;;
     Some (positive_or_none (hours * 60 + mins))).
Proof.
  rewrite iso_duration_shape by discriminate.
  unfold hours_pattern, minutes_pattern.
  change (u "PT" ++ h ++ u "H" ++ m ++ u "M")
    with (80%N :: 84%N :: h ++ [72%N] ++ m ++ [77%N] ++ []).
  change (u "H") with [72%N]. change (u "M") with [77%N].
  rewrite !search_skips_char by reflexivity.
  rewrite_cp (@search_hits 72%N [] eq_refl h (m ++ [77%N] ++ []) Hh Dh).
  rewrite_cp (@search_skips_run 77%N [] eq_refl h ([72%N] ++ m ++ [77%N] ++ [])
                Dh eq_refl eq_refl).
  cbn [app]. rewrite search_skips_char by reflexivity.
  change (m ++ [77%N]) with (m ++ [77%N] ++ []).
  rewrite_cp (@search_hits 77%N [] eq_refl m [] Hm Dm).
  rewrite !group_text_1.
  destruct (int_of_digits h), (int_of_digits m); reflexivity.
Qed.

Lemma iso_minutes_only (pre : pystr) :
  forallb (fun c => negb (is_digit c)) pre = true ->
  pre <> [] ->
  _parse_iso_duration (PStr (pre ++ m ++ u "M")) =
    (mins <- int_of_digits m ;; Some (positive_or_none mins)).
Proof.
  intros Hpre Hne.
  rewrite iso_duration_shape by (destruct pre; [contradiction | discriminate]).
  unfold hours_pattern, minutes_pattern.
  change (u "H") with [72%N]. change (u "M") with [77%N].
  assert (Hskip : forall x (Hx : is_digit x = false) s,
    re_search (Grp 1 (Plus is_digit) &> Lit [x]) (pre ++ s) =
    re_search (Grp 1 (Plus is_digit) &> Lit [x]) s).
  { intros x Hx s. clear Hne. induction pre as [|c p IH]; [reflexivity | ].
    cbn [forallb] in Hpre. andb_split Hpre Hc Hp.
    apply negb_true_iff in Hc. cbn [app].
    rewrite search_skips_char by assumption. apply IH, Hp. }
  rewrite !Hskip by reflexivity.
  change (m ++ [77%N]) with (m ++ [77%N] ++ []).
  rewrite_cp (@search_hits 77%N [] eq_refl m [] Hm Dm).
  rewrite_cp (@search_skips_run 72%N [] eq_refl m ([77%N] ++ []) Dm
                eq_refl eq_refl).
  cbn [app]. rewrite search_skips_char by reflexivity.
  rewrite search_nothing by reflexivity.
  rewrite group_text_1.
  destruct (int_of_digits m); reflexivity.
Qed.

Lemma iso_hours_only :
  _parse_iso_duration (PStr (u "PT" ++ h ++ u "H")) =
    (hours <- int_of_digits h ;; Some (positive_or_none (hours * 60))).
Proof.
  rewrite iso_duration_shape by discriminate.
  unfold hours_pattern, minutes_pattern.
  change (u "PT" ++ h ++ u "H") with (80%N :: 84%N :: h ++ [72%N] ++ []).
  change (u "H") with [72%N]. change (u "M") with [77%N].
  rewrite !search_skips_char by reflexivity.
  rewrite_cp (@search_hits 72%N [] eq_refl h [] Hh Dh).
  rewrite_cp (@search_skips_run 77%N [] eq_refl h ([72%N] ++ []) Dh
                eq_refl eq_refl).
  cbn [app]. rewrite search_skips_char by reflexivity.
  rewrite search_nothing by reflexivity.
  rewrite group_text_1.
  destruct (int_of_digits h); reflexivity.
Qed.

Lemma iso_seconds_dropped :
  _parse_iso_duration (PStr (u "PT" ++ m ++ u "M" ++ h ++ u "S")) =
    (mins <- int_of_digits m ;; Some (positive_or_none mins)).
Proof.
  rewrite iso_duration_shape by discriminate.
  unfold hours_pattern, minutes_pattern.
  change (u "PT" ++ m ++ u "M" ++ h ++ u "S")
    with (80%N :: 84%N :: m ++ [77%N] ++ h ++ [83%N]).
  change (u "H") with [72%N]. change (u "M") with [77%N].
  rewrite !search_skips_char by reflexivity.
  rewrite_cp (@search_hits 77%N [] eq_refl m (h ++ [83%N]) Hm Dm).
  rewrite_cp (@search_skips_run 72%N [] eq_refl m ([77%N] ++ h ++ [83%N]) Dm
                eq_refl eq_refl).
  cbn [app]. rewrite search_skips_char by reflexivity.
  rewrite_cp (@search_skips_run 72%N [] eq_refl h [83%N] Dh
                eq_refl eq_refl).
  rewrite search_skips_char by reflexivity.
  rewrite search_nothing by reflexivity.
  rewrite group_text_1.
  destruct (int_of_digits m); reflexivity.
Qed.

End IsoDuration.

(** X10: [_parse_iso_duration] on the usual shapes of an ISO 8601
    duration, for any two non-empty runs of decimal digits [h] and [m]:
    "PT<h>H<m>M" gives [60 h + m] minutes, "PT<m>M" gives [m], "PT<h>H"
    gives [60 h], and a seconds part is dropped.  The letter before the
    digits is not looked at, so the months of "P<m>M" are read as minutes
    too.  In every case a total of zero is returned as [None], and the
    call raises when [int] does, on a run of more than 4300 digits. *)
Theorem iso_duration_minutes (h m : pystr) :
  h <> [] -> m <> [] ->
  forallb is_digit h = true -> forallb is_digit m = true ->
  _parse_iso_duration (PStr (u "PT" ++ h ++ u "H" ++ m ++ u "M")) =
    (hours <- int_of_digits h ;;
     mins <- int_of_digits m ;;
     Some (positive_or_none (hours * 60 + mins))) /\
  _parse_iso_duration (PStr (u "PT" ++ m ++ u "M")) =
    (mins <- int_of_digits m ;; Some (positive_or_none mins)) /\
  _parse_iso_duration (PStr (u "PT" ++ h ++ u "H")) =
    (hours <- int_of_digits h ;; Some (positive_or_none (hours * 60))) /\
  _parse_iso_duration (PStr (u "PT" ++ m ++ u "M" ++ h ++ u "S")) =
    (mins <- int_of_digits m ;; Some (positive_or_none mins)) /\
  _parse_iso_duration (PStr (u "P" ++ m ++ u "M")) =
    (mins <- int_of_digits m ;; Some (positive_or_none mins)).
Proof.
  intros Hh Hm Dh Dm.
  split; [apply iso_hours_and_minutes; assumption | ].
  split; [apply iso_minutes_only; [assumption .. | reflexivity | discriminate] | ].
  split; [apply iso_hours_only; assumption | ].
  split; [apply iso_seconds_dropped; assumption | ].
  apply iso_minutes_only; [assumption .. | reflexivity | discriminate].
Qed.

Lemma iso_duration_minutes_witness :
  _parse_iso_duration (PStr (u "PT1H30M")) = Some (Some 90%Z) /\
  _parse_iso_duration (PStr (u "PT30M")) = Some (Some 30%Z) /\
  _parse_iso_duration (PStr (u "PT1H")) = Some (Some 60%Z) /\
  _parse_iso_duration (PStr (u "PT30M1S")) = Some (Some 30%Z) /\
  _parse_iso_duration (PStr (u "P30M")) = Some (Some 30%Z).
Proof.
  apply (@iso_duration_minutes (u "1") (u "30"));
    [discriminate | discriminate | reflexivity | reflexivity].
Defined.

Local Open Scope N_scope.

(* ================================================================== *)
(** ** Clean lines *)
(* ================================================================== *)

Lemma no_lf_app (a b : pystr) :
  no_lf (a ++ b) = no_lf a && no_lf b.
Proof. unfold no_lf. rewrite existsb_app, negb_orb. reflexivity. Qed.

Lemma strip_no_lf (s : pystr) : no_lf s = true -> no_lf (strip s) = true.
Proof.
  intros H. destruct (strip_by_middle is_space s) as [a [b E]].
  fold (strip s) in E. rewrite E, !no_lf_app in H.
  andb_split H Ha H. andb_split H Hs Hb. exact Hs.
Qed.

Lemma no_lf_cons_intro (c : cp) (l : pystr) :
  cp_eqb c LF = false -> no_lf l = true -> no_lf (c :: l) = true.
Proof.
  unfold no_lf. cbn [existsb]. intros Hc Hl.
  apply negb_true_iff in Hl. rewrite Hl.
  unfold cp_eqb in *. rewrite N.eqb_sym, Hc. reflexivity.
Qed.

Lemma split_lines_no_lf (text : pystr) :
  forallb no_lf (split LF text) = true.
Proof.
  induction text as [|c text IH]; [reflexivity | ].
  cbn [split]. destruct (cp_eqb c LF) eqn:Hc.
  - cbn [forallb]. rewrite IH. reflexivity.
  - destruct (split LF text) as [|l ls].
    + cbn [forallb]. rewrite no_lf_cons_intro; [reflexivity | exact Hc | reflexivity].
    + cbn [forallb] in *. andb_split IH Hl Hls. rewrite Hls.
      rewrite no_lf_cons_intro; [reflexivity | exact Hc | exact Hl].
Qed.

Lemma stripped_lines_clean (text l : pystr) :
  In l (stripped_lines text) -> clean_line l.
Proof.
  unfold stripped_lines. intros H. apply in_map_iff in H.
  destruct H as [raw [E H]]. apply filter_In in H. destruct H as [Hin Hne].
  subst l. split; [ | split].
  - apply strip_no_lf.
    pose proof (split_lines_no_lf text) as Hall.
    rewrite forallb_forall in Hall. apply Hall, Hin.
  - apply strip_by_idempotent.
  - intros E. rewrite E in Hne. discriminate.
Qed.

Lemma stripped_lines_of_clean (ls : list pystr) :
  Forall clean_line ls -> stripped_lines (join newline ls) = ls.
Proof.
  intros H.
  assert (Hlf : forallb no_lf ls = true).
  { apply forallb_forall. intros l Hl.
    rewrite Forall_forall in H. apply (H l Hl). }
  rewrite (stripped_lines_join _ Hlf). clear Hlf.
  induction H as [|l ls [_ [Hs Hne]] _ IH]; [reflexivity | ].
  cbn [filter]. rewrite Hs.
  destruct (str_eqb l []) eqn:E; [apply str_eqb_eq in E; contradiction | ].
  cbn [negb map]. rewrite Hs, IH. reflexivity.
Qed.

(* ================================================================== *)
(** ** The section splitter of the agent *)
(* ================================================================== *)

Lemma startswith_contains (p s : pystr) :
  startswith p s = true -> contains p s = true.
Proof. intros H. destruct s; cbn [contains]; rewrite H; reflexivity. Qed.

Lemma digit_range (c : cp) : is_digit c = true -> c <= 57 \/ 1632 <= c.
Proof.
  unfold is_digit. intros H. apply existsb_exists in H.
  destruct H as [b [Hb Hc]].
  assert (Hall : forallb (fun b => (b =? 48) || (1632 <=? b)) digit_blocks
                 = true) by (vm_compute; reflexivity).
  rewrite forallb_forall in Hall. specialize (Hall b Hb).
  unfold in_block in Hc. andb_split Hc H1 H2.
  apply N.leb_le in H1, H2. apply orb_true_iff in Hall.
  destruct Hall as [E | E]; [apply N.eqb_eq in E | apply N.leb_le in E]; lia.
Qed.

Lemma bullet_range (c : cp) :
  any_of (u "-•*") c = true -> c <= 57 \/ 1632 <= c.
Proof.
  unfold any_of. change (u "-•*") with [45; 8226; 42].
  cbn [existsb]. unfold cp_eqb. rewrite !orb_true_iff, !N.eqb_eq. lia.
Qed.

Lemma lower_first (c : cp) (t : pystr) :
  c <= 57 \/ 1632 <= c ->
  exists x rest, lower (c :: t) = x :: rest /\ (x <= 107 \/ 1632 <= x).
Proof.
  intros H. unfold lower. cbn [flat_map]. unfold lower_cp.
  destruct ((65 <=? c) && (c <=? 90)) eqn:E1.
  { andb_split E1 A B. apply N.leb_le in A, B. lia. }
  destruct (c =? 304) eqn:E2; [apply N.eqb_eq in E2; lia | ].
  destruct ((1024 <=? c) && (c <=? 1039)) eqn:E3.
  { andb_split E3 A B. apply N.leb_le in A, B. lia. }
  destruct ((1040 <=? c) && (c <=? 1071)) eqn:E4.
  { andb_split E4 A B. apply N.leb_le in A, B. lia. }
  destruct (c =? 8490); cbn [app].
  - exists 107, (flat_map lower_cp t). split; [reflexivity | lia].
  - exists c, (flat_map lower_cp t). split; [reflexivity | lia].
Qed.

Lemma not_a_heading_by_first (c : cp) (t : pystr) :
  c <= 57 \/ 1632 <= c ->
  startswith_any ingredient_headings (lower (c :: t)) = false.
Proof.
  intros H. destruct (lower_first t H) as [x [rest [E Hx]]]. rewrite E.
  unfold startswith_any, ingredient_headings.
  change (u "ингредиент") with (1080 :: List.tl (u "ингредиент")).
  change (u "состав") with (1089 :: List.tl (u "состав")).
  change (u "для теста") with (1076 :: List.tl (u "для теста")).
  cbn [existsb startswith]. unfold cp_eqb.
  destruct (N.eqb_spec 1080 x); [lia | ].
  destruct (N.eqb_spec 1089 x); [lia | ].
  destruct (N.eqb_spec 1076 x); [lia | ].
  reflexivity.
Qed.

Lemma no_step_word_no_heading (s : pystr) :
  contains_any step_words s = false ->
  startswith_any step_headings s = false.
Proof.
  unfold contains_any, startswith_any, step_words, step_headings.
  cbn [existsb]. intros H. rewrite !orb_false_iff in H.
  destruct H as [_ [_ [_ [_ [_ [H1 [H2 [_ [H3 _]]]]]]]]].
  assert (Hn : forall p, contains p s = false -> startswith p s = false).
  { intros p Hp. destruct (startswith p s) eqn:E; [ | reflexivity].
    rewrite (startswith_contains _ _ E) in Hp. discriminate. }
  rewrite (Hn _ H1), (Hn _ H2), (Hn _ H3). reflexivity.
Qed.

Lemma match_starts_with_digit (r : regex) (l : pystr) :
  is_some (re_match (Plus is_digit &> r) l) = true ->
  exists c t, l = c :: t /\ is_digit c = true.
Proof.
  unfold re_match, Plus. cbn [rmatch]. destruct l as [|c t]; [discriminate | ].
  destruct (is_digit c) eqn:Hc; [intros _; exists c, t; auto | discriminate].
Qed.

Lemma match_starts_with_bullet (l : pystr) :
  is_some (re_match bullet_start_pattern l) = true ->
  exists c t, l = c :: t /\ any_of (u "-•*") c = true.
Proof.
  unfold re_match, bullet_start_pattern. cbn [rmatch].
  destruct l as [|c t]; [discriminate | ].
  destruct (any_of (u "-•*") c) eqn:Hc;
    [intros _; exists c, t; auto | discriminate].
Qed.

Section SplitterLines.

Variable is_alnum : cp -> bool.

(** All the lines of the text. *)
Variable all_lines : list pystr.

Lemma extract_loop_collects (lines : list pystr) :
  incl lines all_lines ->
  forall sec ings steps,
    let kept (headings : list pystr) (l : pystr) :=
      In l (map strip all_lines) /\ l <> [] /\
      startswith_any headings (lower l) = false in
    Forall (kept ingredient_headings) ings ->
    Forall (kept step_headings) steps ->
    Forall (kept ingredient_headings)
      (fst (extract_loop is_alnum lines sec ings steps)) /\
    Forall (kept step_headings)
      (snd (extract_loop is_alnum lines sec ings steps)).
Proof.
  intros Hincl sec ings steps kept. revert sec ings steps.
  induction lines as [|raw rest IH]; intros sec ings steps Hi Hs;
    [split; assumption | ].
  assert (Hrest : incl rest all_lines)
    by (intros x Hx; apply Hincl; right; exact Hx).
  assert (Hraw : In (strip raw) (map strip all_lines))
    by (apply in_map, Hincl; left; reflexivity).
  specialize (IH Hrest).
  cbn [extract_loop].
  destruct (str_eqb (strip raw) []) eqn:Hne; [apply IH; assumption | ].
  assert (Hne' : strip raw <> [])
    by (intros E; rewrite E in Hne; discriminate).
  destruct (contains_any ingredient_words (lower (strip raw)));
    [apply IH; assumption | ].
  destruct (contains_any step_words (lower (strip raw))) eqn:Hw;
    [apply IH; assumption | ].
  destruct sec as [[|]|]; [ | | apply IH; assumption].
  - destruct (is_some (re_match (quantity_start_pattern is_alnum) (strip raw))
              || is_some (re_match bullet_start_pattern (strip raw))) eqn:Hm;
      [ | apply IH; assumption].
    apply IH; [ | assumption].
    apply Forall_app. split; [assumption | ].
    constructor; [ | constructor].
    split; [exact Hraw | split; [exact Hne' | ]].
    apply orb_true_iff in Hm. destruct Hm as [Hm | Hm].
    + apply match_starts_with_digit in Hm. destruct Hm as [c [t [E Hc]]].
      rewrite E. apply not_a_heading_by_first, digit_range, Hc.
    + apply match_starts_with_bullet in Hm. destruct Hm as [c [t [E Hc]]].
      rewrite E. apply not_a_heading_by_first, bullet_range, Hc.
  - destruct (is_some (re_match numbered_start_pattern (strip raw))
              || is_some (re_match bullet_start_pattern (strip raw))
              || Nat.ltb 30 (length (strip raw)));
      [ | apply IH; assumption].
    apply IH; [assumption | ].
    apply Forall_app. split; [assumption | ].
    constructor; [ | constructor].
    split; [exact Hraw | split; [exact Hne' | ]].
    apply no_step_word_no_heading, Hw.
Qed.

End SplitterLines.

Lemma kept_lines_are_data_lines (headings : list pystr) (text : pystr)
  (ls : list pystr) :
  Forall (fun l => In l (map strip (split LF text)) /\ l <> [] /\
                   startswith_any headings (lower l) = false) ls ->
  incl ls (stripped_lines text) /\
  data_lines headings (join newline ls) = ls.
Proof.
  intros H.
  assert (Hin : incl ls (stripped_lines text)).
  { intros l Hl. rewrite Forall_forall in H.
    destruct (H l Hl) as [Hraw [Hne _]].
    apply in_map_iff in Hraw. destruct Hraw as [raw [E Hraw]].
    unfold stripped_lines. rewrite <- E. apply in_map, filter_In.
    split; [exact Hraw | ]. rewrite E.
    destruct (str_eqb l []) eqn:Hb; [ | reflexivity].
    apply str_eqb_eq in Hb. contradiction. }
  split; [exact Hin | ].
  unfold data_lines. rewrite stripped_lines_of_clean.
  - clear Hin. induction H as [|l ls [_ [_ Hh]] _ IH]; [reflexivity | ].
    cbn [filter]. rewrite Hh, IH. reflexivity.
  - apply Forall_forall. intros l Hl.
    apply (stripped_lines_clean text), Hin, Hl.
Qed.

Lemma extract_loop_data_lines (is_alnum : cp -> bool) (text : pystr) :
  let ings := fst (extract_loop is_alnum (split LF text) None [] []) in
  let steps := snd (extract_loop is_alnum (split LF text) None [] []) in
  (incl ings (stripped_lines text) /\
   data_lines ingredient_headings (join newline ings) = ings) /\
  (incl steps (stripped_lines text) /\
   data_lines step_headings (join newline steps) = steps).
Proof.
  intros ings steps.
  destruct (@extract_loop_collects is_alnum (split LF text) (split LF text)
              (incl_refl _) None [] [] (Forall_nil _) (Forall_nil _))
    as [Hi Hs].
  split; apply kept_lines_are_data_lines; assumption.
Qed.

(** The step parser returns on the lines the splitter collected from a
    text whose digit runs are inside the limit of [int]. *)
Lemma collected_steps_return (text : pystr) (ls : list pystr) :
  incl ls (stripped_lines text) ->
  digit_runs_within int_max_str_digits text = true ->
  exists parsed, parse_steps (join newline ls) = Some parsed.
Proof.
  intros Hin Hr. unfold parse_steps. rewrite stripped_lines_of_clean.
  - apply parse_steps_loop_returns, Forall_forall. intros l Hl.
    apply (@step_line_runs _ text l Hr), Hin, Hl.
  - apply Forall_forall. intros l Hl.
    apply (stripped_lines_clean text), Hin, Hl.
Qed.

(** X11: every line the section splitter of the agent collects becomes one
    record of the converter: the ingredient lines and the step lines it
    returns, joined with line feeds as [_extract_structured_text] hands
    them on, are stripped lines of the page text, and the parsers turn
    them into one record each, in order, that keeps the line without its
    bullet or number.  No collected line is dropped as blank or as a
    heading.  The step parser raises on the collected lines exactly when
    it raises on one of them, and never when the digit runs of the page
    are inside the limit of [int]. *)
Theorem splitter_lines_become_records (is_alnum : cp -> bool)
  (text : pystr) :
  exists ings steps,
    extract_loop is_alnum (split LF text) None [] [] = (ings, steps) /\
    _extract_structured_text is_alnum text =
      (join_or_none ings, join_or_none steps) /\
    incl ings (stripped_lines text) /\
    incl steps (stripped_lines text) /\
    map ing_amount (parse_ingredients (join newline ings)) =
      map (re_sub_start bullet_pattern) ings /\
    (forall parsed,
       parse_steps (join newline steps) = Some parsed ->
       map step_text parsed =
         map (fun l => re_sub_start bullet_pattern
                         (re_sub_start numbering_pattern l)) steps) /\
    (parse_steps (join newline steps) = None <->
     exists l,
       In l steps /\
       _parse_step_line
         (re_sub_start bullet_pattern (re_sub_start numbering_pattern l)) =
       None) /\
    (digit_runs_within int_max_str_digits text = true ->
     exists parsed, parse_steps (join newline steps) = Some parsed).
Proof.
  pose proof (extract_loop_data_lines is_alnum text) as H.
  unfold _extract_structured_text.
  destruct (extract_loop is_alnum (split LF text) None [] [])
    as [ings steps].
  cbn [fst snd] in H. destruct H as [[Hi Di] [Hs Ds]].
  exists ings, steps.
  destruct (records_keep_their_lines_aux (join newline ings)) as [Ri _].
  destruct (records_keep_their_lines_aux (join newline steps)) as [_ Rs].
  pose proof (parse_steps_raises (join newline steps)) as Rr.
  rewrite Di in Ri. rewrite Ds in Rs, Rr.
  split; [reflexivity | ]. split; [reflexivity | ].
  split; [exact Hi | ]. split; [exact Hs | ]. split; [exact Ri | ].
  split; [exact Rs | ]. split; [exact Rr | ].
  apply collected_steps_return, Hs.
Qed.

Lemma splitter_lines_become_records_witness :
  exists ings steps,
    extract_loop (fun c => is_digit c || ((97 <=? c) && (c <=? 122)))
      (split LF (join newline [u "Ingredients"; u "2 eggs"; u "- salt";
                               u "Method"; u "1. Beat the eggs for 2 minutes"]))
      None [] [] = (ings, steps) /\
    ings = [u "2 eggs"; u "- salt"] /\
    steps = [u "1. Beat the eggs for 2 minutes"] /\
    exists parsed,
      parse_steps (join newline steps) = Some parsed /\
      map step_text parsed = [u "Beat the eggs for 2 minutes"].
Proof.
  destruct (splitter_lines_become_records
              (fun c => is_digit c || ((97 <=? c) && (c <=? 122)))
              (join newline [u "Ingredients"; u "2 eggs"; u "- salt";
                             u "Method"; u "1. Beat the eggs for 2 minutes"]))
    as [ings [steps [E [_ [_ [_ [_ [Hp [_ Hr]]]]]]]]].
  exists ings, steps. split; [exact E | ].
  vm_compute in E. injection E as Ei Es. subst ings steps.
  split; [reflexivity | ]. split; [reflexivity | ].
  destruct (Hr eq_refl) as [parsed Hparsed].
  exists parsed. split; [exact Hparsed | ].
  rewrite (Hp parsed Hparsed). vm_compute. reflexivity.
Defined.

Lemma validate_rcip_recipe_lit (idv meta : pyval) (X Y : list pyval)
  (ext : dict) :
  forallb (present (u "allergens")) X = true ->
  validate_rcip (PDict (recipe_lit idv meta X Y ++ ext)) = Some true.
Proof.
  intros HX. unfold validate_rcip.
  change (rcip_fields_present agent_required_fields
            (PDict (recipe_lit idv meta X Y ++ ext))) with (Some true).
  cbn [bind negb].
  change (py_get (PDict (recipe_lit idv meta X Y ++ ext)) (u "ingredients")
            (PList [])) with (Some (PList X)).
  cbn [bind py_iter]. apply rcip_allergens_present_true, HX.
Qed.

(** A document [convert] returns holds the records of both parsers and
    passes the check of the agent. *)
Lemma convert_gives_valid_document (o : Outside) (name : pyval)
  (it st : option pystr) (desc serv : pyval) (pt ct : option Z)
  (diff cui : pystr) (auth : pyval) (url : pystr) (r : pyval) :
  convert o name it st desc serv pt ct diff cui auth url = Some r ->
  exists parsed,
    parse_steps (text_or_empty st) = Some parsed /\
    field (u "ingredients") r =
      Some (PList (ingredients_to_rcip
                     (parse_ingredients (text_or_empty it)))) /\
    field (u "steps") r = Some (PList (steps_to_rcip parsed)) /\
    validate_rcip r = Some true.
Proof.
  intros H.
  destruct (@convert_returned name it st desc serv pt ct diff cui auth url
              o r H) as [labels [parsed [_ [Hp E]]]].
  exists parsed. split; [exact Hp | ]. subst r.
  split; [reflexivity | ]. split; [reflexivity | ].
  apply validate_rcip_recipe_lit, (rcip_ingredients_have_allergens _ 0).
Qed.

Lemma convert_with_llm_valid (o : Outside) (reply : option pystr)
  (rd : RecipeData) (name r : pyval) :
  _convert_with_llm o reply rd name = Some r -> validate_rcip r = Some true.
Proof.
  unfold _convert_with_llm. destruct reply as [response|]; [ | discriminate].
  destruct (split_str (u "STEPS:") response) as [|p0 [|p1 [|p2 ps]]];
    try discriminate.
  intros H. apply convert_gives_valid_document in H.
  destruct H as [parsed [_ [_ [_ Hv]]]]. exact Hv.
Qed.

Lemma enumerate_from_length {A} (l : list A) :
  forall n, length (enumerate_from n l) = length l.
Proof.
  induction l as [|x l IH]; intros n; [reflexivity | ].
  cbn [enumerate_from length]. rewrite IH. reflexivity.
Qed.

Lemma join_first_nonempty (l : pystr) (ls : list pystr) :
  l <> [] -> truthy (PStr (join newline (l :: ls))) = true.
Proof.
  intros H. destruct l as [|c t]; [contradiction | ].
  destruct ls; reflexivity.
Qed.

(** X12: what the conversion of the agent returns.  When the splitter collects
    at least one ingredient line and one step line and no run of digits of
    the page is beyond the limit of [int], the local parser answers
    whatever the language model would reply, and the document has one
    ingredient entry for each collected ingredient line and one step entry
    for each collected step line.  When the step parser raises on the
    collected lines, or when either list is empty, the answer is that of
    the language-model path alone.  In every case a document that is
    returned passes [validate_rcip]. *)
Theorem agent_conversion (is_alnum : cp -> bool) (o : Outside)
  (rd : RecipeData) (name : pyval) :
  exists ings steps,
    extract_loop is_alnum (split LF (rd_text rd)) None [] [] = (ings, steps) /\
    (ings <> [] -> steps <> [] ->
     digit_runs_within int_max_str_digits (rd_text rd) = true ->
     exists r X Y,
       (forall reply, convert_to_rcip is_alnum o reply rd name = Some r) /\
       field (u "ingredients") r = Some (PList X) /\
       field (u "steps") r = Some (PList Y) /\
       length X = length ings /\ length Y = length steps) /\
    (ings <> [] -> steps <> [] ->
     parse_steps (join newline steps) = None ->
     forall reply,
       convert_to_rcip is_alnum o reply rd name =
       _convert_with_llm o reply rd name) /\
    (ings = [] \/ steps = [] ->
     forall reply,
       convert_to_rcip is_alnum o reply rd name =
       _convert_with_llm o reply rd name) /\
    (forall reply r,
       convert_to_rcip is_alnum o reply rd name = Some r ->
       validate_rcip r = Some true).
Proof.
  pose proof (extract_loop_data_lines is_alnum (rd_text rd)) as H.
  unfold convert_to_rcip, _extract_structured_text.
  destruct (extract_loop is_alnum (split LF (rd_text rd)) None [] [])
    as [ings steps].
  cbn [fst snd] in H. destruct H as [[Hi Di] [Hs Ds]].
  exists ings, steps. split; [reflexivity | ].
  split; [ | split; [ | split]].
  - intros Ni Ns Hr.
    destruct ings as [|i0 ings]; [contradiction | ].
    destruct steps as [|s0 steps]; [contradiction | ].
    assert (Hi0 : i0 <> []).
    { apply (stripped_lines_clean (rd_text rd)), Hi. left. reflexivity. }
    assert (Hs0 : s0 <> []).
    { apply (stripped_lines_clean (rd_text rd)), Hs. left. reflexivity. }
    cbn [join_or_none of_opt_str].
    rewrite (join_first_nonempty ings Hi0), (join_first_nonempty steps Hs0).
    cbn [andb].
    destruct (@collected_steps_return (rd_text rd) (s0 :: steps) Hs Hr)
      as [parsed Hp].
    destruct (@convert_normal_form name (Some (join newline (i0 :: ings)))
                (Some (join newline (s0 :: steps)))
                (PStr []) (PNum (Int 4)) None None (u "intermediate") []
                (PStr (u "Web Source")) (rd_url rd) o)
      as [labels [_ Hc]].
    cbn [text_or_empty] in Hc. rewrite Hp in Hc.
    eexists. eexists. eexists.
    split; [intros reply; rewrite Hc; reflexivity | ].
    split; [reflexivity | ]. split; [reflexivity | ].
    unfold ingredients_to_rcip, steps_to_rcip, enumerate.
    rewrite !length_map, !enumerate_from_length.
    rewrite parse_ingredients_length, (parse_steps_length _ Hp), Di, Ds.
    split; reflexivity.
  - intros Ni Ns Hn reply.
    destruct ings as [|i0 ings]; [contradiction | ].
    destruct steps as [|s0 steps]; [contradiction | ].
    assert (Hi0 : i0 <> []).
    { apply (stripped_lines_clean (rd_text rd)), Hi. left. reflexivity. }
    assert (Hs0 : s0 <> []).
    { apply (stripped_lines_clean (rd_text rd)), Hs. left. reflexivity. }
    cbn [join_or_none of_opt_str].
    rewrite (join_first_nonempty ings Hi0), (join_first_nonempty steps Hs0).
    cbn [andb].
    destruct (@convert_raises name (Some (join newline (i0 :: ings)))
                (Some (join newline (s0 :: steps)))
                (PStr []) (PNum (Int 4)) None None (u "intermediate") []
                (PStr (u "Web Source")) (rd_url rd) o) as [_ Hc].
    rewrite (Hc Hn). reflexivity.
  - intros [E | E] reply; subst.
    + reflexivity.
    + cbn [join_or_none of_opt_str truthy]. rewrite andb_false_r.
      reflexivity.
  - intros reply r.
    destruct (truthy (of_opt_str (join_or_none ings)) &&
              truthy (of_opt_str (join_or_none steps)));
      [ | apply convert_with_llm_valid].
    match goal with
    | |- context [convert ?o ?n ?it ?st ?d ?s ?pt ?ct ?df ?cu ?au ?ur] =>
        destruct (convert o n it st d s pt ct df cu au ur) as [r'|] eqn:Hc
    end.
    + intros H. injection H as H. subst r'.
      apply convert_gives_valid_document in Hc.
      destruct Hc as [parsed [_ [_ [_ Hv]]]]. exact Hv.
    + apply convert_with_llm_valid.
Qed.

Lemma agent_conversion_witness :
  exists r X Y,
    (forall reply,
       convert_to_rcip
         (fun c => is_digit c || ((97 <=? c) && (c <=? 122)))
         (MkOutside (u "id") (u "t1") (u "t2")) reply
         (MkRecipeData (u "https://example.org/omelette")
            (join newline [u "Ingredients"; u "2 eggs"; u "- salt";
                           u "a pinch of pepper"; u "Method";
                           u "1. Beat the eggs"]))
         (PStr (u "Omelette")) = Some r) /\
    field (u "ingredients") r = Some (PList X) /\
    field (u "steps") r = Some (PList Y) /\
    length X = 2%nat /\ length Y = 1%nat.
Proof.
  destruct (agent_conversion
              (fun c => is_digit c || ((97 <=? c) && (c <=? 122)))
              (MkOutside (u "id") (u "t1") (u "t2"))
              (MkRecipeData (u "https://example.org/omelette")
                 (join newline [u "Ingredients"; u "2 eggs"; u "- salt";
                                u "a pinch of pepper"; u "Method";
                                u "1. Beat the eggs"]))
              (PStr (u "Omelette")))
    as [ings [steps [E [H _]]]].
  vm_compute in E. injection E as Ei Es. subst ings steps.
  apply H; [discriminate | discriminate | vm_compute; reflexivity].
Defined.

(* ================================================================== *)
(** ** The servings of a Schema.org recipe *)
(* ================================================================== *)

Lemma digits_search_skips (pre s : pystr) :
  forallb (fun c => negb (is_digit c)) pre = true ->
  re_search digits_pattern (pre ++ s) = re_search digits_pattern s.
Proof.
  intros H. induction pre as [|c pre IH]; [reflexivity | ].
  cbn [forallb] in H. andb_split H Hc Hpre. apply negb_true_iff in Hc.
  cbn [app re_search].
  replace (re_match digits_pattern (c :: pre ++ s)) with (@None match_obj);
    [apply IH, Hpre | ].
  unfold re_match, digits_pattern, Plus. cbn [rmatch]. rewrite Hc.
  reflexivity.
Qed.

Lemma digits_search_hits (d rest : pystr) :
  d <> [] -> forallb is_digit d = true ->
  starts_without is_digit rest = true ->
  re_search digits_pattern (d ++ rest) = Some (MkMatch [(0%nat, d)] rest).
Proof.
  intros Hne Hd Hr. destruct d as [|c a]; [contradiction | ].
  cbn [forallb] in Hd. andb_split Hd Hc Ha.
  cbn [app re_search].
  replace (re_match digits_pattern (c :: a ++ rest))
    with (Some (MkMatch [(0%nat, c :: a)] rest)); [reflexivity | ].
  unfold re_match, digits_pattern, Plus. cbn [rmatch]. rewrite Hc.
  symmetry. apply star_first. rewrite (@lstrip_run is_digit a rest Ha Hr).
  change (c :: a ++ rest) with ((c :: a) ++ rest).
  rewrite consumed_app. reflexivity.
Qed.

(** X13: the servings [from_schema_org] reads from a [recipeYield] string are the
    first run of decimal digits in it, whatever follows ("6-8 servings"
    gives 6), and 4 when the string holds no digit.  The run is handed to
    [int]: a run of at most 4300 digits gives its value, a longer one makes
    the adapter raise. *)
Theorem schema_servings_first_number (pre d rest : pystr) :
  forallb (fun c => negb (is_digit c)) pre = true ->
  d <> [] -> forallb is_digit d = true ->
  starts_without is_digit rest = true ->
  schema_servings (PStr (pre ++ d ++ rest)) =
    (amount <- int_of_digits d ;; Some (PNum (Int amount))) /\
  ((length d <= int_max_str_digits)%nat ->
   schema_servings (PStr (pre ++ d ++ rest)) =
     Some (PNum (Int (digits_value d)))) /\
  ((int_max_str_digits < length d)%nat ->
   schema_servings (PStr (pre ++ d ++ rest)) = None) /\
  schema_servings (PStr pre) = Some (PNum (Int 4)).
Proof.
  intros Hpre Hne Hd Hr.
  assert (E : schema_servings (PStr (pre ++ d ++ rest)) =
              (amount <- int_of_digits d ;; Some (PNum (Int amount)))).
  { unfold schema_servings. rewrite digits_search_skips by exact Hpre.
    rewrite digits_search_hits by assumption. reflexivity. }
  split; [exact E | ]. split; [ | split].
  - intros Hl. rewrite E, (int_of_digits_short _ Hl). reflexivity.
  - intros Hl. apply int_of_digits_none in Hl. rewrite E, Hl. reflexivity.
  - unfold schema_servings. rewrite <- (app_nil_r pre).
    rewrite digits_search_skips by exact Hpre. reflexivity.
Qed.

Lemma schema_servings_first_number_witness :
  schema_servings (PStr (u "Makes 6-8 servings")) = Some (PNum (Int 6)) /\
  schema_servings (PStr (u "Makes ")) = Some (PNum (Int 4)).
Proof.
  destruct (@schema_servings_first_number (u "Makes ") (u "6")
              (u "-8 servings"))
    as [_ [H6 [_ H4]]];
    [reflexivity | discriminate | reflexivity | reflexivity | ].
  split; [ | exact H4].
  apply H6. vm_compute. lia.
Defined.

(* ================================================================== *)
(** ** The reply of the language model *)
(* ================================================================== *)

Lemma split_go_no_match (sep s : pystr) :
  contains sep s = false ->
  forall cur, split_go sep s 0 cur = [List.rev cur ++ s].
Proof.
  induction s as [|c s IH]; intros H cur.
  - cbn [split_go]. rewrite app_nil_r. reflexivity.
  - cbn [contains] in H. apply orb_false_iff in H. destruct H as [H1 H2].
    cbn [split_go]. rewrite H1, (IH H2). cbn [List.rev].
    rewrite <- app_assoc. reflexivity.
Qed.

Lemma split_go_skip (sep pre s cur : pystr) :
  split_go sep (pre ++ s) (length pre) cur = split_go sep s 0 cur.
Proof.
  induction pre as [|c pre IH]; [destruct s; reflexivity | ].
  cbn [app length split_go]. exact IH.
Qed.

(** The marker has no border: it cannot start inside a text that is
    followed by the marker, unless it lies inside that text. *)
Lemma marker_not_straddling (a b : pystr) :
  a <> [] -> startswith (u "STEPS:") a = false ->
  startswith (u "STEPS:") (a ++ u "STEPS:" ++ b) = false.
Proof.
  change (u "STEPS:") with [83; 84; 69; 80; 83; 58].
  intros Hne H.
  destruct a as [|c1 [|c2 [|c3 [|c4 [|c5 [|c6 a]]]]]];
    [contradiction | .. ]; cbn [app startswith] in H |- *;
    try exact H;
    repeat match goal with
           | |- context [cp_eqb ?k ?c] =>
               is_var c; destruct (cp_eqb k c); cbn [andb]
           end;
    reflexivity.
Qed.

Lemma split_go_marker (a : pystr) :
  contains (u "STEPS:") a = false ->
  forall cur b,
    split_go (u "STEPS:") (a ++ u "STEPS:" ++ b) 0 cur =
    (List.rev cur ++ a) :: split_go (u "STEPS:") b 0 [].
Proof.
  induction a as [|c a IH]; intros H cur b.
  - cbn [app]. rewrite app_nil_r.
    change (u "STEPS:" ++ b) with (83 :: u "TEPS:" ++ b).
    cbn [split_go].
    replace (startswith (u "STEPS:") (83 :: u "TEPS:" ++ b)) with true
      by (change (u "STEPS:") with [83; 84; 69; 80; 83; 58];
          change (u "TEPS:") with [84; 69; 80; 83; 58]; reflexivity).
    change (length (u "STEPS:") - 1)%nat with (length (u "TEPS:")).
    rewrite split_go_skip. reflexivity.
  - pose proof H as Hc. cbn [contains] in Hc.
    apply orb_false_iff in Hc. destruct Hc as [H1 H2].
    change ((c :: a) ++ u "STEPS:" ++ b) with (c :: a ++ u "STEPS:" ++ b).
    cbn [split_go].
    change (c :: a ++ u "STEPS:" ++ b) with ((c :: a) ++ u "STEPS:" ++ b).
    rewrite marker_not_straddling by (discriminate || exact H1).
    rewrite (IH H2). cbn [List.rev]. rewrite <- app_assoc. reflexivity.
Qed.

Lemma split_join_marker (p : pystr) (ps : list pystr) :
  Forall (fun p => contains (u "STEPS:") p = false) (p :: ps) ->
  split_str (u "STEPS:") (join (u "STEPS:") (p :: ps)) = p :: ps.
Proof.
  revert p. induction ps as [|q ps IH]; intros p H.
  - inversion H as [|? ? Hp _]. subst. unfold split_str. cbn [join].
    rewrite split_go_no_match by exact Hp. reflexivity.
  - inversion H as [|? ? Hp Hrest]. subst.
    change (join (u "STEPS:") (p :: q :: ps))
      with (p ++ u "STEPS:" ++ join (u "STEPS:") (q :: ps)).
    unfold split_str. rewrite split_go_marker by exact Hp.
    cbn [List.rev app]. f_equal. apply (IH q Hrest).
Qed.

(** X14: the reply of the language model is used only when it holds the marker
    "STEPS:" exactly once.  For a reply made of parts that are free of the
    marker, joined by it: two parts give the document [convert] builds
    from the first part, without its "INGREDIENTS:" labels, and the second,
    both stripped; one part (no marker) or three and more (the marker
    repeated) give no document, as does a failed call. *)
Theorem llm_reply_needs_one_marker (o : Outside) (rd : RecipeData)
  (name : pyval) (parts : list pystr) :
  Forall (fun p => contains (u "STEPS:") p = false) parts ->
  _convert_with_llm o (Some (join (u "STEPS:") parts)) rd name =
    match parts with
    | [a; b] =>
        convert o name
          (Some (strip (replace_str (u "INGREDIENTS:") [] a)))
          (Some (strip b)) (PStr []) (PNum (Int 4)) None None
          (u "intermediate") [] (PStr (u "Web Source")) (rd_url rd)
    | _ => None
    end /\
  _convert_with_llm o None rd name = None.
Proof.
  intros H. split; [ | reflexivity]. unfold _convert_with_llm.
  destruct parts as [|p ps]; [reflexivity | ].
  rewrite (split_join_marker H).
  destruct ps as [|q [|r ps]]; reflexivity.
Qed.

Lemma llm_reply_needs_one_marker_witness :
  _convert_with_llm (MkOutside (u "id") (u "t1") (u "t2"))
    (Some (join (u "STEPS:")
             [u "INGREDIENTS: - 300g flour "; u " 1. Mix the flour"]))
    (MkRecipeData (u "https://example.org/bread") []) (PStr (u "Bread")) =
  convert (MkOutside (u "id") (u "t1") (u "t2")) (PStr (u "Bread"))
    (Some (strip (replace_str (u "INGREDIENTS:") []
                    (u "INGREDIENTS: - 300g flour "))))
    (Some (strip (u " 1. Mix the flour"))) (PStr []) (PNum (Int 4)) None None
    (u "intermediate") [] (PStr (u "Web Source"))
    (rd_url (MkRecipeData (u "https://example.org/bread") [])) /\
  _convert_with_llm (MkOutside (u "id") (u "t1") (u "t2")) None
    (MkRecipeData (u "https://example.org/bread") []) (PStr (u "Bread")) =
  None.
Proof.
  assert (H : Forall (fun p => contains (u "STEPS:") p = false)
                [u "INGREDIENTS: - 300g flour "; u " 1. Mix the flour"]).
  { constructor; [vm_compute; reflexivity | ].
    constructor; [vm_compute; reflexivity | constructor]. }
  pose proof (@llm_reply_needs_one_marker
                (MkOutside (u "id") (u "t1") (u "t2"))
                (MkRecipeData (u "https://example.org/bread") [])
                (PStr (u "Bread")) _ H) as W.
  cbv beta iota in W. exact W.
Defined.
